(** * UT-Marketplace: end-to-end encrypted messaging

    A shallow embedding of the key-management and message-encryption layer
    of the marketplace:

    - [src/app/lib/encryption.ts]  (key generation, RSA-OAEP message cipher,
      password protection of the private key, [isValidKey]);
    - [KeyService.ts]              ([getPublicKey], and in the module
      [KeyService] the storing and fetching of the keys of a user);
    - [src/app/lib/database/MessageService.ts] ([sendMessage], [getMessages],
      [getConversations], [looksEncrypted], and in the modules
      [MessageUpdates] and [Subscription] the mutations and the callback of
      the channel);
    - [CryptoContext.tsx]          ([setKeys], [clearKeys], [hasKeys]);
    - [src/app/messages/page.tsx]  (the conversation key and the updates of
      the message list, module [MessagesPage]);
    - [src/app/test-encryption/page.tsx] ([testWrongKey]).

    The browser platform the code runs on is modelled in two layers.  What
    the standards pin down bit for bit is written out and computes: [atob]
    and [btoa] (HTML, forgiving-base64), [TextEncoder] and [TextDecoder]
    (WHATWG Encoding, UTF-8), HMAC and PBKDF2 (RFC 2104, RFC 8018).  What is
    a cryptographic primitive or a remote service is a field of the class
    [Platform]: RSA-OAEP, AES-GCM, SHA-256, the random source, JSON and the
    Supabase client.  The facts about those fields a proof relies on are
    stated one by one ([rsa_oaep_correct], [aes_gcm_correct], ...) and are
    hypotheses of the theorems that use them; the module [Toy] is a small
    platform on which they hold and on which every definition runs. *)

From Stdlib Require Import String List NArith ZArith Bool Lia PeanoNat.
From Stdlib Require Import Strings.Byte.
Import ListNotations.
Local Open Scope N_scope.

(* ====================================================================== *)
(** * JavaScript values                                                    *)
(* ====================================================================== *)

Module JS.

(** A JavaScript string is a sequence of 16-bit code units. *)
Definition char16 := N.
Definition jsstring := list char16.

(** A [Uint8Array] / [ArrayBuffer]. *)
Definition bytes := list byte.

(** An ASCII literal of the source, as a JavaScript string. *)
Definition lit (s : string) : jsstring :=
  map Byte.to_N (list_byte_of_string s).

(** [new Uint8Array(n)[i] = v]: storing a number keeps it modulo 256. *)
Definition byte_of_N (n : N) : byte :=
  match Byte.of_N (n mod 256) with
  | Some b => b
  | None => x00
  end.

(** What the code can throw or reject with. *)
Inductive exn : Type :=
| DOMException (name : string)
| SyntaxError
| TypeError
| Error (message : string).

(** The completion of a call: a value, or an exception. *)
Inductive outcome (A : Type) : Type :=
| Return (a : A)
| Throw (e : exn).
Arguments Return {A} a.
Arguments Throw {A} e.

(** [string | null | undefined], the parameter type of [isValidKey]. *)
Inductive nullable : Type :=
| Null
| Undefined
| Str (s : jsstring).

End JS.
Import JS.

(* ====================================================================== *)
(** * atob and btoa                                                        *)
(* ====================================================================== *)

Module Base64.

(** The base64 alphabet of RFC 4648, table 1. *)
Definition b64_char (n : N) : char16 :=
  if n <? 26 then 65 + n
  else if n <? 52 then 71 + n
  else if n <? 62 then n - 4
  else if n =? 62 then 43
  else 47.

Definition b64_index (c : char16) : option N :=
  if (65 <=? c) && (c <=? 90) then Some (c - 65)
  else if (97 <=? c) && (c <=? 122) then Some (c - 71)
  else if (48 <=? c) && (c <=? 57) then Some (c + 4)
  else if c =? 43 then Some 62
  else if c =? 47 then Some 63
  else None.

Definition equals_sign : char16 := 61.

(** forgiving-base64 encode: three octets give four characters, the last
    group is padded with [=]. *)
Fixpoint base64_encode (octets : list N) : jsstring :=
  match octets with
  | [] => []
  | [a] =>
      [b64_char (a / 4); b64_char ((a mod 4) * 16); equals_sign; equals_sign]
  | [a; b] =>
      [b64_char (a / 4); b64_char ((a mod 4) * 16 + b / 16);
       b64_char ((b mod 16) * 4); equals_sign]
  | a :: b :: c :: rest =>
      b64_char (a / 4) :: b64_char ((a mod 4) * 16 + b / 16)
      :: b64_char ((b mod 16) * 4 + c / 64) :: b64_char (c mod 64)
      :: base64_encode rest
  end.

(** ASCII whitespace: TAB, LF, FF, CR, SPACE. *)
Definition is_ascii_whitespace (c : char16) : bool :=
  (c =? 9) || (c =? 10) || (c =? 12) || (c =? 13) || (c =? 32).

Definition ends_with_equals (data : jsstring) : bool :=
  match data with
  | [] => false
  | _ => last data 0 =? equals_sign
  end.

(** Step 2 of forgiving-base64 decode: when the length is a multiple of
    four, one or two trailing [=] are removed. *)
Definition strip_padding (data : jsstring) : jsstring :=
  if (length data mod 4 =? 0)%nat then
    if ends_with_equals data then
      let data1 := removelast data in
      if ends_with_equals data1 then removelast data1 else data1
    else data
  else data.

(** Steps 5 to 9: every four sextets give three octets; a last group of
    three sextets gives two octets and one of two sextets gives one, the
    spare low bits being dropped. *)
Fixpoint decode_sextets (l : list N) : list N :=
  match l with
  | [a; b] => [a * 4 + b / 16]
  | [a; b; c] => [a * 4 + b / 16; (b mod 16) * 16 + c / 4]
  | a :: b :: c :: d :: rest =>
      (a * 4 + b / 16) :: ((b mod 16) * 16 + c / 4) :: ((c mod 4) * 64 + d)
      :: decode_sextets rest
  | _ => []
  end.

(** All positions of [data] are alphabet characters: their indices. *)
Fixpoint sextets_of (data : jsstring) : option (list N) :=
  match data with
  | [] => Some []
  | c :: rest =>
      match b64_index c, sextets_of rest with
      | Some i, Some l => Some (i :: l)
      | _, _ => None
      end
  end.

(** forgiving-base64 decode; [None] is the standard's "failure". *)
Definition base64_decode (data : jsstring) : option (list N) :=
  let data := filter (fun c => negb (is_ascii_whitespace c)) data in
  let data := strip_padding data in
  if (length data mod 4 =? 1)%nat then None
  else option_map decode_sextets (sextets_of data).

(** The sextets of an encoding and its padding, apart: [base64_encode] is
    the characters of the first followed by the second. *)
Fixpoint sextets (octets : list N) : list N :=
  match octets with
  | [] => []
  | [a] => [a / 4; (a mod 4) * 16]
  | [a; b] => [a / 4; (a mod 4) * 16 + b / 16; (b mod 16) * 4]
  | a :: b :: c :: rest =>
      a / 4 :: ((a mod 4) * 16 + b / 16) :: ((b mod 16) * 4 + c / 64)
      :: c mod 64 :: sextets rest
  end.

Fixpoint padding (octets : list N) : jsstring :=
  match octets with
  | [] => []
  | [a] => [equals_sign; equals_sign]
  | [a; b] => [equals_sign]
  | a :: b :: c :: rest => padding rest
  end.

(** [btoa(data)]: throws when a code unit is above U+00FF. *)
Definition btoa (data : jsstring) : outcome jsstring :=
  if forallb (fun c => c <=? 255) data
  then Return (base64_encode data)
  else Throw (DOMException "InvalidCharacterError").

(** [atob(data)]: the decoded octets as a binary string. *)
Definition atob (data : jsstring) : outcome jsstring :=
  match base64_decode data with
  | Some octets => Return octets
  | None => Throw (DOMException "InvalidCharacterError")
  end.

End Base64.
Import Base64.

(* ====================================================================== *)
(** * TextEncoder and TextDecoder                                          *)
(* ====================================================================== *)

Module Utf8.

Definition REPLACEMENT : N := 65533.   (* U+FFFD *)
Definition BOM : N := 65279.           (* U+FEFF *)

Definition is_lead (c : char16) : bool := (55296 <=? c) && (c <=? 56319).
Definition is_trail (c : char16) : bool := (56320 <=? c) && (c <=? 57343).

(** Conversion of a JavaScript string to scalar values (Web IDL
    [USVString]): a surrogate pair is one scalar value, a surrogate that is
    not part of a pair becomes U+FFFD. *)
Fixpoint scalar_values (s : jsstring) : list N :=
  match s with
  | [] => []
  | c :: rest =>
      if is_lead c then
        match rest with
        | d :: rest' =>
            if is_trail d
            then (65536 + (c - 55296) * 1024 + (d - 56320)) :: scalar_values rest'
            else REPLACEMENT :: scalar_values rest
        | [] => [REPLACEMENT]
        end
      else if is_trail c then REPLACEMENT :: scalar_values rest
      else c :: scalar_values rest
  end.

(** The UTF-8 encoder: one to four bytes for a scalar value.  The
    standard's [cp >> 6k] and [0x80 | (x & 0x3F)] are written [cp / 64^k]
    and [128 + x mod 64]. *)
Definition utf8_encode_scalar (cp : N) : bytes :=
  if cp <=? 127 then [byte_of_N cp]
  else if cp <=? 2047 then
    [byte_of_N (192 + cp / 64); byte_of_N (128 + cp mod 64)]
  else if cp <=? 65535 then
    [byte_of_N (224 + cp / 4096); byte_of_N (128 + (cp / 64) mod 64);
     byte_of_N (128 + cp mod 64)]
  else
    [byte_of_N (240 + cp / 262144); byte_of_N (128 + (cp / 4096) mod 64);
     byte_of_N (128 + (cp / 64) mod 64); byte_of_N (128 + cp mod 64)].

(** [new TextEncoder().encode(s)]. *)
Definition TextEncoder_encode (s : jsstring) : bytes :=
  flat_map utf8_encode_scalar (scalar_values s).

(** The state of the UTF-8 decoder. *)
Record decoder : Type := mkDecoder {
  code_point : N;
  bytes_seen : N;
  bytes_needed : N;
  lower_boundary : N;
  upper_boundary : N
}.

Definition initial : decoder := mkDecoder 0 0 0 128 191.

(** A byte read when no sequence is open (step 3 of the decoder's
    handler): the scalar values emitted and the next state.  For a lead
    byte the standard's [byte & 0x1F], [byte & 0xF] and [byte & 0x7] are
    [b - 192], [b - 224] and [b - 240]. *)
Definition first_byte (b : N) : list N * decoder :=
  if b <=? 127 then ([b], initial)
  else if (194 <=? b) && (b <=? 223) then
    ([], mkDecoder (b - 192) 0 1 128 191)
  else if (224 <=? b) && (b <=? 239) then
    ([], mkDecoder (b - 224) 0 2
           (if b =? 224 then 160 else 128) (if b =? 237 then 159 else 191))
  else if (240 <=? b) && (b <=? 244) then
    ([], mkDecoder (b - 240) 0 3
           (if b =? 240 then 144 else 128) (if b =? 244 then 143 else 191))
  else ([REPLACEMENT], initial).

(** One byte through the handler.  A byte outside the boundaries of an
    open sequence is an error, and the byte is read again with no sequence
    open (the standard restores it to the queue). *)
Definition step (d : decoder) (b : N) : list N * decoder :=
  if bytes_needed d =? 0 then first_byte b
  else if (lower_boundary d <=? b) && (b <=? upper_boundary d) then
    let cp := code_point d * 64 + (b - 128) in
    if bytes_seen d + 1 =? bytes_needed d then ([cp], initial)
    else ([], mkDecoder cp (bytes_seen d + 1) (bytes_needed d) 128 191)
  else
    let (out, d') := first_byte b in (REPLACEMENT :: out, d').

(** The decoder run over a queue of bytes; at the end of the queue an open
    sequence is an error. *)
Fixpoint utf8_decode (d : decoder) (input : list N) : list N :=
  match input with
  | [] => if bytes_needed d =? 0 then [] else [REPLACEMENT]
  | b :: rest => let (out, d') := step d b in out ++ utf8_decode d' rest
  end.

(** [ignoreBOM] is false by default: a first U+FEFF is not part of the
    output. *)
Definition strip_bom (cps : list N) : list N :=
  match cps with
  | c :: rest => if c =? BOM then rest else cps
  | [] => []
  end.

(** A scalar value as one or two code units. *)
Definition utf16_units (cp : N) : jsstring :=
  if cp <? 65536 then [cp]
  else [55296 + (cp - 65536) / 1024; 56320 + (cp - 65536) mod 1024].

(** [new TextDecoder().decode(buffer)]: UTF-8, not fatal, BOM removed. *)
Definition TextDecoder_decode (input : bytes) : jsstring :=
  flat_map utf16_units (strip_bom (utf8_decode initial (map Byte.to_N input))).

(** Strings of 16-bit code units in which every surrogate is part of a
    pair: the strings [TextEncoder] encodes without replacing anything. *)
Fixpoint well_formed (s : jsstring) : bool :=
  match s with
  | [] => true
  | c :: rest =>
      if is_lead c then
        match rest with
        | d :: rest' => is_trail d && well_formed rest'
        | [] => false
        end
      else negb (is_trail c) && (c <? 65536) && well_formed rest
  end.

(** A Unicode scalar value: a code point that is not a surrogate. *)
Definition is_scalar (cp : N) : bool :=
  (cp <? 1114112) && negb ((55296 <=? cp) && (cp <=? 57343)).

Definition starts_with_bom (s : jsstring) : bool :=
  match s with
  | c :: _ => c =? BOM
  | [] => false
  end.

End Utf8.
Import Utf8.

(* ====================================================================== *)
(** * HMAC and PBKDF2                                                      *)
(* ====================================================================== *)

Module Kdf.

(** Bitwise exclusive or of two bytes. *)
Definition xor_byte (a b : byte) : byte :=
  let '(a0, (a1, (a2, (a3, (a4, (a5, (a6, a7))))))) := Byte.to_bits a in
  let '(b0, (b1, (b2, (b3, (b4, (b5, (b6, b7))))))) := Byte.to_bits b in
  Byte.of_bits
    (xorb a0 b0, (xorb a1 b1, (xorb a2 b2, (xorb a3 b3,
     (xorb a4 b4, (xorb a5 b5, (xorb a6 b6, xorb a7 b7))))))).

Fixpoint xor_bytes (a b : bytes) : bytes :=
  match a, b with
  | x :: a', y :: b' => xor_byte x y :: xor_bytes a' b'
  | _, _ => []
  end.

Section WithHash.

(** The hash function and its block size in bytes. *)
Variable H : bytes -> bytes.
Variable B : nat.

(** A key longer than a block is hashed first; the key is then padded
    with zero bytes to the block size (RFC 2104, section 2). *)
Definition hmac_key_block (key : bytes) : bytes :=
  let key := if (B <? List.length key)%nat then H key else key in
  key ++ repeat x00 (B - List.length key).

(** [H((K0 xor opad) || H((K0 xor ipad) || text))]. *)
Definition hmac (key : bytes) : bytes -> bytes :=
  let k0 := hmac_key_block key in
  let ipad := map (xor_byte x36) k0 in
  let opad := map (xor_byte x5c) k0 in
  fun text => H (opad ++ H (ipad ++ text)).

(** The block index as four bytes, most significant first. *)
Definition INT (i : N) : bytes :=
  [byte_of_N (i / 16777216); byte_of_N (i / 65536); byte_of_N (i / 256);
   byte_of_N i].

(** [F(P, S, c, i) = U_1 xor U_2 xor ... xor U_c] (RFC 8018, 5.2). *)
Definition pbkdf2_block (password salt : bytes) (c : N) (i : N) : bytes :=
  let PRF := hmac password in
  let U1 := PRF (salt ++ INT i) in
  snd (N.iter (c - 1)
         (fun ut : bytes * bytes =>
            let u := PRF (fst ut) in (u, xor_bytes (snd ut) u))
         (U1, U1)).

(** PBKDF2 for a derived key of [dkLen] bytes from blocks of [hLen]. *)
Definition pbkdf2 (hLen : nat) (password salt : bytes) (c : N) (dkLen : nat)
  : bytes :=
  let blocks := seq 1 ((dkLen + hLen - 1) / hLen)%nat in
  firstn dkLen
    (flat_map (fun i => pbkdf2_block password salt c (N.of_nat i)) blocks).

End WithHash.

End Kdf.
Import Kdf.

(* ====================================================================== *)
(** * The platform                                                         *)
(* ====================================================================== *)

(** Console and [dbLogger] output. *)
Inductive level : Type := LLog | LInfo | LWarn | LError | LSuccess.

Record log_entry : Type := mkLog {
  log_level : level;
  log_text : string;
  log_detail : option exn
}.

(** The [{ data, error }] object a Supabase query resolves to. *)
Record response (A : Type) : Type := mkResponse {
  data : option A;
  error : option string
}.
Arguments mkResponse {A} data error.
Arguments data {A} r.
Arguments error {A} r.

(** Modelled from the spec: the [Message] type of [props/listing], which
    is not part of these sources; its fields are those section 6 of the
    specification lists and [MessageService.ts] reads. *)
Record Message : Type := mkMessage {
  id : string;
  sender_id : string;
  receiver_id : string;
  content : jsstring;
  is_read : bool;
  listing_id : option string;
  created_at : string
}.

(** The object handed to [.insert(...)] in [sendMessage]
    (MessageService.ts, lines 71 to 77). *)
Record MessageInsert : Type := mkMessageInsert {
  insert_sender_id : string;
  insert_receiver_id : string;
  insert_content : jsstring;
  insert_is_read : bool;
  insert_listing_id : option string
}.

Record PublicKeyRow : Type := mkPublicKeyRow { public_key : jsstring }.

Record MessageQueryParams : Type := mkMessageQueryParams {
  query_userId : string;
  query_otherUserId : string;
  query_listingId : option string
}.

Record UserSettings : Type := mkUserSettings {
  settings_id : string;
  display_name : option string;
  profile_image_url : option string
}.

Record Listing : Type := mkListing {
  listing_row_id : string;
  title : string
}.

(** What the code takes from the browser and from Supabase.  Keys are the
    opaque [CryptoKey] handles of [crypto.subtle]; [Entropy] is the state of
    the random source behind [crypto.getRandomValues], key generation and
    OAEP padding; [JSValue] is what [JSON.parse] returns. *)
Class Platform : Type := {
  PublicKey : Type;
  PrivateKey : Type;
  Entropy : Type;
  Database : Type;
  JSValue : Type;

  (* crypto.getRandomValues(new Uint8Array(n)) *)
  getRandomValues : nat -> Entropy -> bytes * Entropy;

  (* crypto.subtle, RSA-OAEP with SHA-256 *)
  rsa_generateKey : N -> Entropy -> outcome (PublicKey * PrivateKey) * Entropy;
  exportKey_spki : PublicKey -> outcome bytes;
  exportKey_pkcs8 : PrivateKey -> outcome bytes;
  importKey_spki : bytes -> outcome PublicKey;
  importKey_pkcs8 : bytes -> outcome PrivateKey;
  rsa_oaep_encrypt : PublicKey -> bytes -> Entropy -> outcome bytes * Entropy;
  rsa_oaep_decrypt : PrivateKey -> bytes -> outcome bytes;

  (* SHA-256 and AES-GCM on a raw key *)
  sha256 : bytes -> bytes;
  aes_gcm_encrypt : bytes -> bytes -> bytes -> outcome bytes;
  aes_gcm_decrypt : bytes -> bytes -> bytes -> outcome bytes;

  (* JSON and the values it exchanges *)
  Array_from : bytes -> JSValue;
  object_literal : list (string * JSValue) -> JSValue;
  JSON_stringify : JSValue -> jsstring;
  JSON_parse : jsstring -> outcome JSValue;
  get_property : JSValue -> string -> outcome JSValue;
  Uint8Array_from : JSValue -> outcome bytes;

  (* the Supabase client and the query builders of ./utils *)
  select_public_key : string -> Database -> outcome (response PublicKeyRow);
  insert_message :
    MessageInsert -> Database -> outcome (response Message) * Database;
  buildMessageQuery :
    MessageQueryParams -> Database -> outcome (response (list Message));
  buildConversationQuery :
    string -> Database -> outcome (response (list Message));
  buildUserSettingsQuery :
    list string -> Database -> outcome (response (list UserSettings));
  buildListingQuery :
    list string -> Database -> outcome (response (list Listing));

  (* dbLogger of ./utils: what a call adds to the log *)
  dbLogger : level -> string -> list log_entry -> list log_entry
}.

(** Bytes an RSA-OAEP key of [modulusLength] bits takes in one message
    with a hash of [hLen] bytes (RFC 8017, 7.1.1). *)
Definition max_payload (modulusLength : N) (hLen : N) : N :=
  modulusLength / 8 - 2 * hLen - 2.

Definition modulusLength : N := 2048.
Definition payload_limit : nat := N.to_nat (max_payload modulusLength 32).

(** ** What the proofs take from the primitives *)

(** [crypto.getRandomValues] fills the whole array. *)
Definition random_fills (P : Platform) : Prop :=
  forall n e, List.length (fst (getRandomValues n e)) = n.

(** RSA-OAEP is correct for the pairs [generateKey] makes: both halves
    survive export and import, and a message within the payload limit
    encrypted under the public half decrypts under the private half. *)
Definition rsa_oaep_correct (P : Platform) : Prop :=
  forall e e' pk sk,
    rsa_generateKey modulusLength e = (Return (pk, sk), e') ->
    exists spki pkcs8 pk' sk',
      exportKey_spki pk = Return spki /\
      exportKey_pkcs8 sk = Return pkcs8 /\
      importKey_spki spki = Return pk' /\
      importKey_pkcs8 pkcs8 = Return sk' /\
      forall m e1,
        (List.length m <= payload_limit)%nat ->
        exists c e2,
          rsa_oaep_encrypt pk' m e1 = (Return c, e2) /\
          rsa_oaep_decrypt sk' c = Return m.

(** An RSA-OAEP ciphertext is longer than its message: it has the size of
    the modulus, and a message leaves room for the padding (RFC 8017,
    7.1.1).  Stated for the keys [importKey] gives. *)
Definition rsa_oaep_expands (P : Platform) : Prop :=
  forall raw pk m e c e',
    importKey_spki raw = Return pk ->
    rsa_oaep_encrypt pk m e = (Return c, e') ->
    (List.length m < List.length c)%nat.

Definition sha256_size (P : Platform) : Prop :=
  forall x, List.length (sha256 x) = 32%nat.

(** AES-GCM with a 256-bit key and a 96-bit IV encrypts, and decrypts what
    it encrypted under the same key and IV. *)
Definition aes_gcm_correct (P : Platform) : Prop :=
  forall key iv m,
    List.length key = 32%nat -> List.length iv = 12%nat ->
    exists c,
      aes_gcm_encrypt key iv m = Return c /\
      aes_gcm_decrypt key iv c = Return m.

(** AES-GCM authenticates: the tag of what was encrypted under one key
    does not verify under another key.  This is the idealised form of the
    authentication property; for the real cipher a tag verifies under
    another key with probability about 2^-128. *)
Definition aes_gcm_authentic (P : Platform) : Prop :=
  forall key key' iv m c,
    List.length key = 32%nat -> List.length key' = 32%nat ->
    key' <> key ->
    aes_gcm_encrypt key iv m = Return c ->
    exists err, aes_gcm_decrypt key' iv c = Throw err.

(** [JSON.parse(JSON.stringify({ salt, iv, data }))] is an object whose
    three properties hold the same numbers, and [new Uint8Array] of each is
    the byte array it came from. *)
Definition json_blob_roundtrip (P : Platform) : Prop :=
  forall salt iv d,
    exists v vs vi vd,
      JSON_parse
        (JSON_stringify
           (object_literal
              [("salt"%string, Array_from salt); ("iv"%string, Array_from iv);
               ("data"%string, Array_from d)])) = Return v /\
      get_property v "salt" = Return vs /\
      get_property v "iv" = Return vi /\
      get_property v "data" = Return vd /\
      Uint8Array_from vs = Return salt /\
      Uint8Array_from vi = Return iv /\
      Uint8Array_from vd = Return d.

(* ====================================================================== *)
(** * Calls with effects                                                   *)
(* ====================================================================== *)

Section Program.

Context {P : Platform}.

(** What a call can read and change. *)
Record World : Type := mkWorld {
  entropy : Entropy;
  console : list log_entry;
  database : Database
}.

(** An [async] function: from the world to its completion and the world
    it leaves. What was done before a [throw] stays done. *)
Definition M (A : Type) : Type := World -> outcome A * World.

Definition ret {A} (a : A) : M A := fun w => (Return a, w).

Definition throw {A} (e : exn) : M A := fun w => (Throw e, w).

Definition bind {A B} (m : M A) (k : A -> M B) : M B :=
  fun w =>
    match m w with
    | (Return a, w') => k a w'
    | (Throw e, w') => (Throw e, w')
    end.

(** [try { body } catch (error) { handler }]. *)
Definition try_catch {A} (body : M A) (handler : exn -> M A) : M A :=
  fun w =>
    match body w with
    | (Return a, w') => (Return a, w')
    | (Throw e, w') => handler e w'
    end.

Definition lift {A} (o : outcome A) : M A := fun w => (o, w).

Definition with_entropy {A} (f : Entropy -> A * Entropy) : M A :=
  fun w =>
    let (a, e) := f (entropy w) in
    (Return a, mkWorld e (console w) (database w)).

Definition with_entropy_outcome {A} (f : Entropy -> outcome A * Entropy) : M A :=
  fun w =>
    let (a, e) := f (entropy w) in
    (a, mkWorld e (console w) (database w)).

Definition read_database {A} (f : Database -> outcome A) : M A :=
  fun w => (f (database w), w).

Definition with_database {A} (f : Database -> outcome A * Database) : M A :=
  fun w =>
    let (a, d) := f (database w) in
    (a, mkWorld (entropy w) (console w) d).

Definition write_log (l : level) (text : string) (detail : option exn) : M unit :=
  fun w =>
    (Return tt,
     mkWorld (entropy w) (console w ++ [mkLog l text detail]) (database w)).

End Program.

Declare Scope js_scope.
Delimit Scope js_scope with js.
Notation "x <- m ;; k" := (bind m (fun x => k))
  (at level 61, m at next level, right associativity) : js_scope.
Notation "m ;; k" := (bind m (fun _ => k))
  (at level 61, right associativity) : js_scope.
Local Open Scope js_scope.

(* ====================================================================== *)
(** * src/app/lib/encryption.ts                                            *)
(* ====================================================================== *)

Section Encryption.

Context {P : Platform}.

Definition console_error (text : string) (e : exn) : M unit :=
  write_log LError text (Some e).

(** [arrayBufferToBase64] (lines 272 to 279): one character per byte,
    then [btoa]. *)
Definition arrayBufferToBase64 (buffer : bytes) : outcome jsstring :=
  let binary := map Byte.to_N buffer in
  btoa binary.

(** [base64ToArrayBuffer] (lines 284 to 291): [atob], then one byte per
    character. *)
Definition base64ToArrayBuffer (base64 : jsstring) : outcome bytes :=
  match atob base64 with
  | Return binary => Return (map byte_of_N binary)
  | Throw e => Throw e
  end.

Record KeyPair : Type := mkKeyPair {
  publicKey : jsstring;
  privateKey : jsstring
}.

(** [generateKeyPair] (lines 19 to 44): the keys are generated
    extractable, exported as SPKI and PKCS8 and returned in base64.
    Nothing is caught. *)
Definition generateKeyPair : M KeyPair :=
  keyPair <- with_entropy_outcome (rsa_generateKey modulusLength) ;;
  publicKeyRaw <- lift (exportKey_spki (fst keyPair)) ;;
  privateKeyRaw <- lift (exportKey_pkcs8 (snd keyPair)) ;;
  publicKeyBase64 <- lift (arrayBufferToBase64 publicKeyRaw) ;;
  privateKeyBase64 <- lift (arrayBufferToBase64 privateKeyRaw) ;;
  ret (mkKeyPair publicKeyBase64 privateKeyBase64).

(** [encryptMessage] (lines 58 to 93). *)
Definition encryptMessage (plaintext receiverPublicKeyBase64 : jsstring)
  : M jsstring :=
  try_catch
    (publicKeyBuffer <- lift (base64ToArrayBuffer receiverPublicKeyBase64) ;;
     publicKey <- lift (importKey_spki publicKeyBuffer) ;;
     let data := TextEncoder_encode plaintext in
     encryptedData <- with_entropy_outcome (rsa_oaep_encrypt publicKey data) ;;
     lift (arrayBufferToBase64 encryptedData))
    (fun error =>
       console_error "Encryption failed:" error ;;
       throw (Error "Failed to encrypt message")).

Definition UNABLE_TO_DECRYPT : jsstring := lit "[Unable to decrypt message]".

(** The [try] block of [decryptMessage] (lines 111 to 136). *)
Definition decryptMessage_try (encryptedBase64 privateKeyBase64 : jsstring)
  : M jsstring :=
  privateKeyBuffer <- lift (base64ToArrayBuffer privateKeyBase64) ;;
  privateKey <- lift (importKey_pkcs8 privateKeyBuffer) ;;
  encryptedData <- lift (base64ToArrayBuffer encryptedBase64) ;;
  decryptedData <- lift (rsa_oaep_decrypt privateKey encryptedData) ;;
  ret (TextDecoder_decode decryptedData).

(** [decryptMessage] (lines 106 to 142): the [catch] logs and returns the
    placeholder. *)
Definition decryptMessage (encryptedBase64 privateKeyBase64 : jsstring)
  : M jsstring :=
  try_catch
    (decryptMessage_try encryptedBase64 privateKeyBase64)
    (fun error =>
       console_error "Decryption failed:" error ;;
       ret UNABLE_TO_DECRYPT).

(** [deriveKey] with [{ name: 'PBKDF2', salt, iterations: 100000,
    hash: 'SHA-256' }] for [{ name: 'AES-GCM', length: 256 }]: PBKDF2 over
    HMAC-SHA-256 (64-byte blocks, 32-byte output), 32 bytes of key. *)
Definition iterations : N := 100000.

Definition deriveKey (salt keyMaterial : bytes) : bytes :=
  pbkdf2 sha256 64 32 keyMaterial salt iterations 32.

(** [encryptPrivateKey] (lines 156 to 208). *)
Definition encryptPrivateKey (privateKey password : jsstring) : M jsstring :=
  try_catch
    (salt <- with_entropy (getRandomValues 16) ;;
     let keyMaterial := TextEncoder_encode password in
     let key := deriveKey salt keyMaterial in
     iv <- with_entropy (getRandomValues 12) ;;
     encryptedData <-
       lift (aes_gcm_encrypt key iv (TextEncoder_encode privateKey)) ;;
     ret (JSON_stringify
            (object_literal
               [("salt"%string, Array_from salt); ("iv"%string, Array_from iv);
                ("data"%string, Array_from encryptedData)])))
    (fun error =>
       console_error "Private key encryption failed:" error ;;
       throw (Error "Failed to encrypt private key")).

Definition INVALID_PASSWORD : exn := Error "Invalid password or corrupted key".

(** The [try] block of [decryptPrivateKey] (lines 223 to 258);
    [const { salt, iv, data } = JSON.parse(...)] reads three properties. *)
Definition decryptPrivateKey_try (encryptedPrivateKey password : jsstring)
  : M jsstring :=
  parsed <- lift (JSON_parse encryptedPrivateKey) ;;
  salt <- lift (get_property parsed "salt") ;;
  iv <- lift (get_property parsed "iv") ;;
  data <- lift (get_property parsed "data") ;;
  let keyMaterial := TextEncoder_encode password in
  saltBytes <- lift (Uint8Array_from salt) ;;
  let key := deriveKey saltBytes keyMaterial in
  ivBytes <- lift (Uint8Array_from iv) ;;
  dataBytes <- lift (Uint8Array_from data) ;;
  decryptedData <- lift (aes_gcm_decrypt key ivBytes dataBytes) ;;
  ret (TextDecoder_decode decryptedData).

(** [decryptPrivateKey] (lines 218 to 263): whatever was thrown, the
    caller sees one error. *)
Definition decryptPrivateKey (encryptedPrivateKey password : jsstring)
  : M jsstring :=
  try_catch
    (decryptPrivateKey_try encryptedPrivateKey password)
    (fun error =>
       console_error "Private key decryption failed:" error ;;
       throw INVALID_PASSWORD).

End Encryption.

(** What [decryptMessage] computes, apart from the console: the completion
    of its [try] block, and the string it resolves to. *)
Definition and_then {A B} (o : outcome A) (k : A -> outcome B) : outcome B :=
  match o with
  | Return a => k a
  | Throw e => Throw e
  end.

Definition decrypted_text {P : Platform} (encryptedBase64 privateKeyBase64 : jsstring)
  : outcome jsstring :=
  and_then (base64ToArrayBuffer privateKeyBase64) (fun privateKeyBuffer =>
  and_then (importKey_pkcs8 privateKeyBuffer) (fun privateKey =>
  and_then (base64ToArrayBuffer encryptedBase64) (fun encryptedData =>
  and_then (rsa_oaep_decrypt privateKey encryptedData) (fun decryptedData =>
  Return (TextDecoder_decode decryptedData))))).

Definition shown_text {P : Platform} (encryptedBase64 privateKeyBase64 : jsstring)
  : jsstring :=
  match decrypted_text encryptedBase64 privateKeyBase64 with
  | Return s => s
  | Throw _ => UNABLE_TO_DECRYPT
  end.

(** [isValidKey] (lines 296 to 304): [!key] rejects [null], [undefined]
    and the empty string; what is left is a string, valid when [atob] does
    not throw. *)
Definition isValidKey (key : nullable) : bool :=
  match key with
  | Null => false
  | Undefined => false
  | Str [] => false
  | Str s =>
      match atob s with
      | Return _ => true
      | Throw _ => false
      end
  end.

(* ====================================================================== *)
(** * KeyService.ts                                                        *)
(* ====================================================================== *)

Section KeyService.

Context {P : Platform}.

(** [getPublicKey] (KeyService.ts): the receiver's public key, or
    [null] when there is no row, the query failed or the client threw. *)
Definition getPublicKey (userId : string) : M (option jsstring) :=
  try_catch
    (r <- read_database (select_public_key userId) ;;
     match error r, data r with
     | None, Some row => ret (Some (public_key row))
     | _, _ =>
         write_log LError
           ("Failed to fetch public key for user " ++ userId ++ ":") None ;;
         ret None
     end)
    (fun error =>
       console_error "Error fetching public key:" error ;;
       ret None).

End KeyService.

(* ====================================================================== *)
(** * src/app/lib/database/MessageService.ts                               *)
(* ====================================================================== *)

Module MessageService.

Record SendMessageParams : Type := mkSendMessageParams {
  senderId : string;
  receiverId : string;
  send_content : jsstring;
  send_listingId : option string;
  encryptionEnabled : option bool
}.

Record GetMessagesParams : Type := mkGetMessagesParams {
  userId : string;
  otherUserId : string;
  listingId : option string;
  privateKey : option jsstring
}.

(** The object [getConversations] builds for a group (lines 207 to 216). *)
Record Conversation : Type := mkConversation {
  user_id : string;
  user_name : string;
  user_image : option string;
  conversation_listing_id : string;
  listing_title : string;
  last_message : jsstring;
  last_message_time : string;
  unread_count : N
}.

(** Truthiness of [string | null | undefined]. *)
Definition truthy (s : option string) : bool :=
  match s with
  | Some EmptyString => false
  | Some _ => true
  | None => false
  end.

(** [a || b] on strings. *)
Definition or_else (a : option string) (b : string) : string :=
  if truthy a then match a with Some x => x | None => b end else b.

(** [a || null]. *)
Definition or_null (a : option string) : option string :=
  if truthy a then a else None.

Definition set_content (m : Message) (c : jsstring) : Message :=
  mkMessage (id m) (sender_id m) (receiver_id m) c (is_read m) (listing_id m)
    (created_at m).

(** The placeholder of conversation previews: U+1F512 (a surrogate pair)
    and the text. *)
Definition ENCRYPTED_MESSAGE : jsstring :=
  [55357; 56594] ++ lit " Encrypted message".

(** The characters of [/^[A-Za-z0-9+/=]+$/]. *)
Definition is_base64_char (c : char16) : bool :=
  match b64_index c with
  | Some _ => true
  | None => c =? equals_sign
  end.

(** [looksEncrypted] (lines 429 to 436). *)
Definition looksEncrypted (content : jsstring) : bool :=
  if (List.length content =? 0)%nat || (List.length content <? 50)%nat
  then false
  else forallb is_base64_char content && (100 <? List.length content)%nat.

(** A [Map] keeps its entries in insertion order. *)
Definition conversation_map : Type := list (string * Conversation).

Definition map_has (key : string) (m : conversation_map) : bool :=
  existsb (fun e => String.eqb (fst e) key) m.

Definition map_set (key : string) (c : Conversation) (m : conversation_map)
  : conversation_map :=
  if map_has key m
  then map (fun e => if String.eqb (fst e) key then (key, c) else e) m
  else m ++ [(key, c)].

Definition map_update (key : string) (f : Conversation -> Conversation)
  (m : conversation_map) : conversation_map :=
  map (fun e => if String.eqb (fst e) key then (fst e, f (snd e)) else e) m.

Definition map_values (m : conversation_map) : list Conversation :=
  map snd m.

Definition increment_unread (c : Conversation) : Conversation :=
  mkConversation (user_id c) (user_name c) (user_image c)
    (conversation_listing_id c) (listing_title c) (last_message c)
    (last_message_time c) (unread_count c + 1).

Section Service.

Context {P : Platform}.

(** A call of [dbLogger]: it writes to the log and returns. *)
Definition dbLogger_write (l : level) (text : string) : M unit :=
  fun w =>
    (Return tt, mkWorld (entropy w) (dbLogger l text (console w)) (database w)).

Fixpoint mapM {A B} (f : A -> M B) (l : list A) : M (list B) :=
  match l with
  | [] => ret []
  | a :: l' => b <- f a ;; bs <- mapM f l' ;; ret (b :: bs)
  end.

Fixpoint foldM {A S} (f : S -> A -> M S) (s : S) (l : list A) : M S :=
  match l with
  | [] => ret s
  | a :: l' => s' <- f s a ;; foldM f s' l'
  end.

(** The row [sendMessage] inserts for a content to store. *)
Definition inserted_row (params : SendMessageParams) (contentToStore : jsstring)
  : MessageInsert :=
  mkMessageInsert (senderId params) (receiverId params) contentToStore false
    (or_null (send_listingId params)).

(** [sendMessage] (lines 46 to 97).  [data.id] on a null [data] is the
    [TypeError] of the last branch. *)
Definition sendMessage (params : SendMessageParams) : M (option Message) :=
  let content := send_content params in
  let encryptionEnabled :=
    match encryptionEnabled params with Some b => b | None => true end in
  try_catch
    (dbLogger_write LInfo "Sending message" ;;
     contentToStore <-
       (if encryptionEnabled then
          receiverPublicKey <- getPublicKey (receiverId params) ;;
          match receiverPublicKey with
          | Some (c :: key) =>
              encrypted <- encryptMessage content (c :: key) ;;
              dbLogger_write LInfo "Message encrypted successfully" ;;
              ret encrypted
          | _ =>
              dbLogger_write LWarn
                "Receiver has no public key, sending unencrypted" ;;
              ret content
          end
        else ret content) ;;
     r <- with_database (insert_message (inserted_row params contentToStore)) ;;
     match error r with
     | Some _ =>
         dbLogger_write LError "Failed to send message" ;;
         ret None
     | None =>
         match data r with
         | Some row =>
             dbLogger_write LSuccess "Message sent successfully" ;;
             ret (Some (set_content row content))
         | None => throw TypeError
         end
     end)
    (fun error =>
       dbLogger_write LError "Error in sendMessage" ;;
       ret None).

(** The callback of [messages.map] in [getMessages] (lines 128 to 150). *)
Definition decrypt_one (userId : string) (privateKey : jsstring) (msg : Message)
  : M Message :=
  try_catch
    (if String.eqb (receiver_id msg) userId then
       decryptedContent <- decryptMessage (content msg) privateKey ;;
       ret (set_content msg decryptedContent)
     else if String.eqb (sender_id msg) userId then ret msg
     else ret msg)
    (fun error =>
       dbLogger_write LWarn "Failed to decrypt message, returning as-is" ;;
       ret msg).

(** [getMessages] (lines 102 to 163).  The callbacks of [Promise.all] are
    run one after the other, in the order of the list. *)
Definition getMessages (params : GetMessagesParams) : M (list Message) :=
  try_catch
    (dbLogger_write LInfo "Fetching messages" ;;
     r <- read_database
            (buildMessageQuery
               (mkMessageQueryParams (userId params) (otherUserId params)
                  (listingId params))) ;;
     match error r with
     | Some _ =>
         dbLogger_write LError "Failed to fetch messages" ;;
         ret []
     | None =>
         let messages := match data r with Some l => l | None => [] end in
         match privateKey params, messages with
         | Some (c :: key), _ :: _ =>
             dbLogger_write LInfo "Decrypting messages" ;;
             decryptedMessages <-
               mapM (decrypt_one (userId params) (c :: key)) messages ;;
             dbLogger_write LSuccess "Messages decrypted successfully" ;;
             ret decryptedMessages
         | _, _ =>
             dbLogger_write LSuccess "Messages fetched successfully" ;;
             ret messages
         end
     end)
    (fun error =>
       dbLogger_write LError "Error in getMessages" ;;
       ret []).

(** The preview [getConversations] computes for one message
    ([lastMessage], lines 192 to 204). *)
Definition last_message_of (userId : string) (privateKey : option jsstring)
  (message : Message) : M jsstring :=
  match privateKey, String.eqb (receiver_id message) userId with
  | Some (c :: key), true =>
      try_catch
        (decryptMessage (content message) (c :: key))
        (fun error => ret ENCRYPTED_MESSAGE)
  | _, _ =>
      if looksEncrypted (content message) then ret ENCRYPTED_MESSAGE
      else ret (content message)
  end.

(** One turn of the loop over [filteredMessages] (lines 187 to 223). *)
Definition add_message (userId : string) (privateKey : option jsstring)
  (conversationMap : conversation_map) (message : Message)
  : M conversation_map :=
  let partnerId :=
    if String.eqb (sender_id message) userId
    then receiver_id message else sender_id message in
  let listingId := or_else (listing_id message) "general" in
  let key := (partnerId ++ ":" ++ listingId)%string in
  lastMessage <- last_message_of userId privateKey message ;;
  let unread := String.eqb (receiver_id message) userId && negb (is_read message) in
  if negb (map_has key conversationMap) then
    ret (map_set key
           (mkConversation partnerId "" None listingId "" lastMessage
              (created_at message) (if unread then 1 else 0))
           conversationMap)
  else
    ret (if unread then map_update key increment_unread conversationMap
         else conversationMap).

Definition with_user_info (users : option (list UserSettings))
  (conv : Conversation) : Conversation :=
  let found :=
    match users with
    | Some l => find (fun u => String.eqb (settings_id u) (user_id conv)) l
    | None => None
    end in
  match found with
  | Some userSettings =>
      mkConversation (user_id conv)
        (or_else (display_name userSettings) (user_id conv))
        (or_null (profile_image_url userSettings))
        (conversation_listing_id conv) (listing_title conv) (last_message conv)
        (last_message_time conv) (unread_count conv)
  | None => conv
  end.

Definition with_listing_info (listings : option (list Listing))
  (conv : Conversation) : Conversation :=
  let found :=
    match listings with
    | Some l =>
        find (fun r => String.eqb (listing_row_id r) (conversation_listing_id conv)) l
    | None => None
    end in
  match found with
  | Some listing =>
      mkConversation (user_id conv) (user_name conv) (user_image conv)
        (conversation_listing_id conv) (title listing) (last_message conv)
        (last_message_time conv) (unread_count conv)
  | None => conv
  end.

(** [getConversations] (lines 168 to 265).  [partnerIds] and [listingIds]
    are read off the map before the user and listing rows are fetched. *)
Definition getConversations (userId : string) (privateKey : option jsstring)
  : M (list Conversation) :=
  try_catch
    (dbLogger_write LInfo "Fetching conversations" ;;
     r <- read_database (buildConversationQuery userId) ;;
     match error r with
     | Some _ =>
         dbLogger_write LError "Failed to fetch conversations" ;;
         ret []
     | None =>
         let filteredMessages :=
           match data r with
           | Some l =>
               filter
                 (fun msg =>
                    String.eqb (sender_id msg) userId
                    || String.eqb (receiver_id msg) userId) l
           | None => []
           end in
         conversationMap <-
           foldM (add_message userId privateKey) [] filteredMessages ;;
         let partnerIds := map user_id (map_values conversationMap) in
         let listingIds :=
           filter (fun i => negb (String.eqb i "general"))
             (map conversation_listing_id (map_values conversationMap)) in
         conversationMap <-
           (match partnerIds with
            | _ :: _ =>
                u <- read_database (buildUserSettingsQuery partnerIds) ;;
                ret (map (fun e => (fst e, with_user_info (data u) (snd e)))
                       conversationMap)
            | [] => ret conversationMap
            end) ;;
         conversationMap <-
           (match listingIds with
            | _ :: _ =>
                l <- read_database (buildListingQuery listingIds) ;;
                ret (map (fun e => (fst e, with_listing_info (data l) (snd e)))
                       conversationMap)
            | [] => ret conversationMap
            end) ;;
         let conversations := map_values conversationMap in
         dbLogger_write LSuccess "Conversations fetched successfully" ;;
         ret conversations
     end)
    (fun error =>
       dbLogger_write LError "Error in getConversations" ;;
       ret []).

End Service.

End MessageService.

(* ====================================================================== *)
(** * CryptoContext.tsx                                                    *)
(* ====================================================================== *)

(** [CryptoProvider] (src/app/messages/page.tsx, lines 454 to 518). *)
Module CryptoContext.

(** The three [useState] cells of [CryptoProvider]; [None] is [null]. *)
Record State : Type := mkState {
  privateKey : option jsstring;
  publicKey : option jsstring;
  userId : option string
}.

Definition initial_state : State := mkState None None None.

Definition setPrivateKey (v : option jsstring) (st : State) : State :=
  mkState v (publicKey st) (userId st).

Definition setPublicKey (v : option jsstring) (st : State) : State :=
  mkState (privateKey st) v (userId st).

Definition setUserId (v : option string) (st : State) : State :=
  mkState (privateKey st) (publicKey st) v.

Definition as_nullable (v : option jsstring) : nullable :=
  match v with
  | Some s => Str s
  | None => Null
  end.

(** A handler of the provider: the state of the next render and what it
    wrote on the console.  The setters called by one handler are applied
    together. *)
Definition handler : Type := State -> State * list log_entry.

(** [setKeys] (lines 464 to 474). *)
Definition setKeys (newPrivateKey newPublicKey : jsstring) : handler :=
  fun st =>
    if negb (isValidKey (Str newPrivateKey)) || negb (isValidKey (Str newPublicKey))
    then (st, [mkLog LError "Invalid encryption keys provided" None])
    else
      (setPublicKey (Some newPublicKey) (setPrivateKey (Some newPrivateKey) st),
       [mkLog LLog "✅ Encryption keys loaded into memory" None]).

(** [clearKeys] (lines 480 to 485). *)
Definition clearKeys : handler :=
  fun st =>
    (setUserId None (setPublicKey None (setPrivateKey None st)),
     [mkLog LLog "🔒 Encryption keys cleared from memory" None]).

(** The cleanup of the effect (lines 495 to 502), run when the provider
    unmounts. *)
Definition unmount : handler :=
  fun st => (setUserId None (setPublicKey None (setPrivateKey None st)), []).

(** [hasKeys] (lines 490 to 492). *)
Definition hasKeys (st : State) : bool :=
  isValidKey (as_nullable (privateKey st))
  && isValidKey (as_nullable (publicKey st)).

(** [useRequireCrypto] (lines 547 to 560): the keys, or an exception when
    they are not loaded. *)
Definition useRequireCrypto (st : State)
  : outcome (option jsstring * option jsstring) :=
  if negb (hasKeys st)
  then Throw (Error "Encryption keys not loaded. User must be logged in.")
  else Return (privateKey st, publicKey st).

End CryptoContext.

(* ====================================================================== *)
(** * A small platform to run the code on                                  *)
(* ====================================================================== *)

(** Nothing here is cryptography: keys are eight bytes, a ciphertext
    carries the key it was made with in front of the message, the digest is
    a checksum.  The instance serves to run the definitions above on
    concrete inputs. *)
Module Toy.

Fixpoint bytes_eqb (a b : bytes) : bool :=
  match a, b with
  | [], [] => true
  | x :: a', y :: b' => Byte.eqb x y && bytes_eqb a' b'
  | _, _ => false
  end.

Definition random (n : nat) (e : N) : bytes * N :=
  (map (fun i => byte_of_N (e + N.of_nat i)) (seq 0 n), e + N.of_nat n).

Definition generateKey (bits : N) (e : N) : outcome (bytes * bytes) * N :=
  let (k, e') := random 8 e in (Return (k, k), e').

Definition importKey (raw : bytes) : outcome bytes :=
  if (List.length raw =? 8)%nat then Return raw
  else Throw (DOMException "DataError").

Definition rsa_encrypt (pk m : bytes) (e : N) : outcome bytes * N :=
  if (List.length m <=? payload_limit)%nat then (Return (pk ++ m), e)
  else (Throw (DOMException "OperationError"), e).

Definition open_sealed (key c : bytes) : outcome bytes :=
  if bytes_eqb (firstn (List.length key) c) key
  then Return (skipn (List.length key) c)
  else Throw (DOMException "OperationError").

Definition low8 (n : N) : byte :=
  match Byte.of_N (N.land n 255) with
  | Some b => b
  | None => x00
  end.

(** A 32-byte checksum of the first byte and of the byte after the first
    block. *)
Definition digest (x : bytes) : bytes :=
  let m := (Byte.to_N (nth 0 x x00) + 1) * (Byte.to_N (nth 64 x x00) + 3) in
  map (fun c => low8 (m + c))
    [1; 4; 9; 16; 25; 36; 49; 64; 81; 100; 121; 144; 169; 196; 225; 256;
     289; 324; 361; 400; 441; 484; 529; 576; 625; 676; 729; 784; 841; 900;
     961; 1024].

Definition gcm_encrypt (key iv m : bytes) : outcome bytes :=
  match iv with
  | [] => Throw (DOMException "OperationError")
  | _ => Return (key ++ iv ++ m)
  end.

Definition gcm_decrypt (key iv c : bytes) : outcome bytes :=
  match iv with
  | [] => Throw (DOMException "OperationError")
  | _ => open_sealed (key ++ iv) c
  end.

(** The values of the toy JSON: [undefined], an array of bytes, and the
    object with the three properties of a protected key. *)
Inductive value : Type :=
| VUndefined
| VArray (l : bytes)
| VBlob (salt iv data : bytes).

Definition field (name : string) (fields : list (string * value)) : bytes :=
  match find (fun f => String.eqb (fst f) name) fields with
  | Some (_, VArray l) => l
  | _ => []
  end.

Definition object (fields : list (string * value)) : value :=
  VBlob (field "salt" fields) (field "iv" fields) (field "data" fields).

Definition stringify (v : value) : jsstring :=
  match v with
  | VBlob s i d =>
      N.of_nat (List.length s) :: N.of_nat (List.length i)
      :: map Byte.to_N (s ++ i ++ d)
  | _ => []
  end.

Definition parse (text : jsstring) : outcome value :=
  match text with
  | ls :: li :: rest =>
      let ls := N.to_nat ls in
      let li := N.to_nat li in
      if (ls + li <=? List.length rest)%nat then
        Return (VBlob (map byte_of_N (firstn ls rest))
                  (map byte_of_N (firstn li (skipn ls rest)))
                  (map byte_of_N (skipn (ls + li) rest)))
      else Throw SyntaxError
  | _ => Throw SyntaxError
  end.

Definition property (v : value) (name : string) : outcome value :=
  match v with
  | VBlob s i d =>
      if String.eqb name "salt" then Return (VArray s)
      else if String.eqb name "iv" then Return (VArray i)
      else if String.eqb name "data" then Return (VArray d)
      else Return VUndefined
  | _ => Return VUndefined
  end.

Definition to_bytes (v : value) : outcome bytes :=
  match v with
  | VArray l => Return l
  | _ => Return []
  end.

(** The two tables the code reads and writes. *)
Record tables : Type := mkTables {
  user_keys : list (string * jsstring);
  messages : list Message
}.

Definition select_key (userId : string) (db : tables)
  : outcome (response PublicKeyRow) :=
  match find (fun r => String.eqb (fst r) userId) (user_keys db) with
  | Some (_, k) => Return (mkResponse (Some (mkPublicKeyRow k)) None)
  | None => Return (mkResponse None (Some "PGRST116"%string))
  end.

Definition insert (row : MessageInsert) (db : tables)
  : outcome (response Message) * tables :=
  let m :=
    mkMessage "m" (insert_sender_id row) (insert_receiver_id row)
      (insert_content row) (insert_is_read row) (insert_listing_id row) "now" in
  (Return (mkResponse (Some m) None),
   mkTables (user_keys db) (messages db ++ [m])).

Definition between (q : MessageQueryParams) (db : tables)
  : outcome (response (list Message)) :=
  Return
    (mkResponse
       (Some
          (filter
             (fun m =>
                (String.eqb (sender_id m) (query_userId q)
                 && String.eqb (receiver_id m) (query_otherUserId q))
                || (String.eqb (sender_id m) (query_otherUserId q)
                    && String.eqb (receiver_id m) (query_userId q)))
             (messages db)))
       None).

Definition involving (userId : string) (db : tables)
  : outcome (response (list Message)) :=
  Return (mkResponse (Some (rev (messages db))) None).

Definition platform : Platform := {|
  PublicKey := bytes;
  PrivateKey := bytes;
  Entropy := N;
  Database := tables;
  JSValue := value;
  getRandomValues := random;
  rsa_generateKey := generateKey;
  exportKey_spki := fun k => Return k;
  exportKey_pkcs8 := fun k => Return k;
  importKey_spki := importKey;
  importKey_pkcs8 := importKey;
  rsa_oaep_encrypt := rsa_encrypt;
  rsa_oaep_decrypt := open_sealed;
  sha256 := digest;
  aes_gcm_encrypt := gcm_encrypt;
  aes_gcm_decrypt := gcm_decrypt;
  Array_from := VArray;
  object_literal := object;
  JSON_stringify := stringify;
  JSON_parse := parse;
  get_property := property;
  Uint8Array_from := to_bytes;
  select_public_key := select_key;
  insert_message := insert;
  buildMessageQuery := between;
  buildConversationQuery := involving;
  buildUserSettingsQuery := fun _ _ => Return (mkResponse (Some []) None);
  buildListingQuery := fun _ _ => Return (mkResponse (Some []) None);
  dbLogger := fun l text log => log ++ [mkLog l text None]
|}.

Definition world0 : World (P := platform) :=
  mkWorld (P := platform) (0 : N) [] (mkTables [] []).

End Toy.


(* ====================================================================== *)
(** * Notions the statements use                                           *)
(* ====================================================================== *)

(** A world with one more console entry. *)
Definition logged {P : Platform} (w : World) (entry : log_entry) : World :=
  mkWorld (entropy w) (console w ++ [entry]) (database w).

(** Two worlds with the same random source and the same tables. *)
Definition same_state {P : Platform} (w w' : World) : Prop :=
  entropy w' = entropy w /\ database w' = database w.

(** The serialized object [encryptPrivateKey] returns. *)
Definition blob_of {P : Platform} (salt iv data : bytes) : jsstring :=
  JSON_stringify
    (object_literal
       [("salt"%string, Array_from salt); ("iv"%string, Array_from iv);
        ("data"%string, Array_from data)]).

(** What [getPublicKey] resolves to, from the table alone. *)
Definition public_key_lookup {P : Platform} (userId : string) (db : Database)
  : option jsstring :=
  match select_public_key userId db with
  | Return r =>
      match error r, data r with
      | None, Some row => Some (public_key row)
      | _, _ => None
      end
  | Throw _ => None
  end.

Module Conversations.
Import MessageService.

(** A message as [getMessages] returns it to [userId] holding
    [privateKey]. *)
Definition decrypted_view {P : Platform} (userId : string) (privateKey : jsstring)
  (msg : Message) : Message :=
  if String.eqb (receiver_id msg) userId
  then set_content msg (shown_text (content msg) privateKey)
  else msg.

(** The group of a message in [getConversations], and the preview it
    gets. *)
Definition partner_of (userId : string) (m : Message) : string :=
  if String.eqb (sender_id m) userId then receiver_id m else sender_id m.

Definition key_of (userId : string) (m : Message) : string :=
  (partner_of userId m ++ ":" ++ or_else (listing_id m) "general")%string.

Definition conversation_key (c : Conversation) : string :=
  (user_id c ++ ":" ++ conversation_listing_id c)%string.

Definition involves (userId : string) (m : Message) : bool :=
  String.eqb (sender_id m) userId || String.eqb (receiver_id m) userId.

Definition preview_text {P : Platform} (userId : string)
  (privateKey : option jsstring) (m : Message) : jsstring :=
  match privateKey, String.eqb (receiver_id m) userId with
  | Some (c :: key), true => shown_text (content m) (c :: key)
  | _, _ => if looksEncrypted (content m) then ENCRYPTED_MESSAGE else content m
  end.

(** One turn of the loop of [getConversations], without the console. *)
Definition add_to_map {P : Platform} (userId : string)
  (privateKey : option jsstring) (cm : conversation_map) (m : Message)
  : conversation_map :=
  let key := key_of userId m in
  let unread := String.eqb (receiver_id m) userId && negb (is_read m) in
  if negb (map_has key cm) then
    map_set key
      (mkConversation (partner_of userId m) "" None
         (or_else (listing_id m) "general") ""
         (preview_text userId privateKey m) (created_at m)
         (if unread then 1 else 0))
      cm
  else if unread then map_update key increment_unread cm else cm.

(** The first message of a group among the rows fetched; the query lists
    the newest message first. *)
Definition first_of_group (userId key : string) (msgs : list Message)
  : option Message :=
  find (fun m => String.eqb (key_of userId m) key) msgs.

(** Every entry of the map is keyed by its conversation and previews the
    first message of its group; a key not in the map has no message. *)
Definition previews_first {P : Platform} (userId : string)
  (privateKey : option jsstring) (seen : list Message) (cm : conversation_map)
  : Prop :=
  (forall k c, In (k, c) cm ->
     k = conversation_key c /\
     exists m, first_of_group userId k seen = Some m /\
               last_message c = preview_text userId privateKey m) /\
  (forall k, map_has k cm = false -> first_of_group userId k seen = None).

End Conversations.

(* ====================================================================== *)
(** * Scenarios                                                            *)
(* ====================================================================== *)

(** Concrete users, keys and rows on the small platform. *)
Module Scenario.
Import MessageService.

Definition P0 : Platform := Toy.platform.

Definition world0 : World (P := P0) := Toy.world0.

(** The pair [generateKeyPair] makes in [world0] and the world it leaves. *)
Definition keys0 : KeyPair := mkKeyPair (lit "AAECAwQFBgc=") (lit "AAECAwQFBgc=").

Definition world1 : World (P := P0) :=
  mkWorld (P := P0) (8 : N) [] (Toy.mkTables [] []).

Definition hello : jsstring := lit "Hello!".

(** A plaintext that is one U+FEFF, and a string that starts with one. *)
Definition bom_text : jsstring := [BOM].
Definition bom_key : jsstring := BOM :: lit "PRIV".

Definition password : jsstring := lit "pw".
Definition password_nul : jsstring := lit "pw" ++ [0].
Definition other_password : jsstring := lit "qw".

(** Two passwords from which the small platform derives different keys. *)
Definition horse : jsstring := lit "correct horse".
Definition staple : jsstring := lit "#battery staple".

(** A legacy plaintext row received by u1, a row u1 sent, and a row u1
    sent to u1. *)
Definition received : Message :=
  mkMessage "m1" "u2" "u1" (lit "hi") false None "2024-01-02".

Definition sent : Message :=
  mkMessage "m2" "u1" "u2" (lit "yo") true None "2024-01-01".

Definition to_self : Message :=
  mkMessage "m3" "u1" "u1" (lit "hi") false None "2024-01-03".

Definition inbox : World (P := P0) :=
  mkWorld (P := P0) (0 : N) [] (Toy.mkTables [] [sent; received]).

Definition notes : World (P := P0) :=
  mkWorld (P := P0) (0 : N) [] (Toy.mkTables [] [to_self]).

Definition send_hello : SendMessageParams :=
  mkSendMessageParams "u1" "u2" hello None None.

Definition read_inbox : GetMessagesParams :=
  mkGetMessagesParams "u1" "u2" None (Some (lit "k")).

Definition read_notes : GetMessagesParams :=
  mkGetMessagesParams "u1" "u1" None (Some (lit "k")).

End Scenario.

(* ====================================================================== *)
(** * Further queries of the Supabase client                               *)
(* ====================================================================== *)

(** A row of [user_keys] (DATABASE_MIGRATION.sql, lines 9 to 14, without
    [created_at], which the code never reads). *)
Record UserKeysRow : Type := mkUserKeysRow {
  row_user_id : string;
  row_public_key : jsstring;
  row_encrypted_private_key : jsstring
}.

(** The queries of [KeyService.ts] on [user_keys] and the mutations of
    [MessageService.ts] on [messages]; the three builders are those of
    [./utils]. *)
Class Queries (P : Platform) : Type := {
  (* .from('user_keys').insert({...}).select().single() *)
  insert_user_keys :
    UserKeysRow -> Database -> outcome (response UserKeysRow) * Database;
  (* .select('user_id, public_key, encrypted_private_key').eq('user_id', id).single() *)
  select_user_keys : string -> Database -> outcome (response UserKeysRow);
  (* .select('user_id, public_key').in('user_id', ids) *)
  select_public_keys :
    list string -> Database -> outcome (response (list (string * jsstring)));
  (* .select('user_id').eq('user_id', id).single() *)
  select_user_id : string -> Database -> outcome (response string);
  (* buildMarkAsReadQuery(supabase, messageIds) *)
  buildMarkAsReadQuery :
    list string -> Database -> outcome (response unit) * Database;
  (* .from('messages').delete().eq('id', messageId) *)
  delete_message : string -> Database -> outcome (response unit) * Database;
  (* buildDeleteMessagesQuery(supabase, { userId, otherUserId, listingId }) *)
  buildDeleteMessagesQuery :
    MessageQueryParams -> Database -> outcome (response unit) * Database
}.

(** [user_id] is the primary key of [user_keys]: after an insert that
    reported no error, the row of that user is the row inserted. *)
Definition stored_keys_found {P : Platform} (Q : Queries P) : Prop :=
  forall row db r db',
    insert_user_keys row db = (Return r, db') ->
    error r = None ->
    select_user_keys (row_user_id row) db' = Return (mkResponse (Some row) None).

(** The error object of a response, as the detail of a console line. *)
Definition error_detail (e : option string) : option exn := option_map Error e.

(* ====================================================================== *)
(** * KeyService.ts, the other functions                                   *)
(* ====================================================================== *)

Module KeyService.

(** [UserKeys] and [DecryptedUserKeys] (lines 76 to 86). *)
Record UserKeys : Type := mkUserKeys {
  userId : string;
  publicKey : jsstring;
  encryptedPrivateKey : jsstring
}.

Record DecryptedUserKeys : Type := mkDecryptedUserKeys {
  decrypted_userId : string;
  decrypted_publicKey : jsstring;
  privateKey : jsstring
}.

(** A [Map<string, string>]: entries in insertion order, [set] on a key
    that is present replaces its value in place. *)
Definition key_map : Type := list (string * jsstring).

Definition key_map_has (key : string) (m : key_map) : bool :=
  existsb (fun e => String.eqb (fst e) key) m.

Definition key_map_set (key : string) (value : jsstring) (m : key_map)
  : key_map :=
  if key_map_has key m
  then map (fun e => if String.eqb (fst e) key then (key, value) else e) m
  else m ++ [(key, value)].

Definition key_map_get (key : string) (m : key_map) : option jsstring :=
  option_map snd (find (fun e => String.eqb (fst e) key) m).

Section Service.

Context {P : Platform} {Q : Queries P}.

(** [generateAndStoreUserKeys] (lines 100 to 136). *)
Definition generateAndStoreUserKeys (userId : string) (password : jsstring)
  : M (option UserKeys) :=
  try_catch
    (write_log LLog
       ("Generating encryption keys for user " ++ userId ++ "...") None ;;
     keyPair <- generateKeyPair ;;
     let '(mkKeyPair publicKey privateKey) := keyPair in
     encryptedPrivateKey <- encryptPrivateKey privateKey password ;;
     r <- with_database
            (insert_user_keys
               (mkUserKeysRow userId publicKey encryptedPrivateKey)) ;;
     match error r with
     | Some e =>
         write_log LError "Failed to store user keys:" (Some (Error e)) ;;
         ret None
     | None =>
         write_log LLog
           ("✅ Encryption keys generated and stored for user " ++ userId)
           None ;;
         ret (Some (mkUserKeys userId publicKey encryptedPrivateKey))
     end)
    (fun error =>
       console_error "Error generating user keys:" error ;;
       ret None).

(** [getUserKeys] (lines 149 to 171). *)
Definition getUserKeys (userId : string) : M (option UserKeys) :=
  try_catch
    (r <- read_database (select_user_keys userId) ;;
     match error r, data r with
     | None, Some row =>
         ret (Some (mkUserKeys (row_user_id row) (row_public_key row)
                      (row_encrypted_private_key row)))
     | e, _ =>
         write_log LError "Failed to fetch user keys:" (error_detail e) ;;
         ret None
     end)
    (fun error =>
       console_error "Error fetching user keys:" error ;;
       ret None).

Definition FAILED_TO_DECRYPT_KEYS : exn :=
  Error "Failed to decrypt keys - invalid password?".

(** [getUserKeysDecrypted] (lines 181 to 208). *)
Definition getUserKeysDecrypted (userId : string) (password : jsstring)
  : M (option DecryptedUserKeys) :=
  try_catch
    (keys <- getUserKeys userId ;;
     match keys with
     | None => ret None
     | Some keys =>
         privateKey <- decryptPrivateKey (encryptedPrivateKey keys) password ;;
         write_log LLog ("✅ Private key decrypted for user " ++ userId) None ;;
         ret (Some (mkDecryptedUserKeys (KeyService.userId keys)
                      (publicKey keys) privateKey))
     end)
    (fun error =>
       console_error "Error decrypting user keys:" error ;;
       throw FAILED_TO_DECRYPT_KEYS).

(** [getPublicKeys] (lines 248 to 273): an array, also an empty one, is
    truthy. *)
Definition getPublicKeys (userIds : list string) : M key_map :=
  try_catch
    (r <- read_database (select_public_keys userIds) ;;
     match error r, data r with
     | None, Some rows =>
         ret (fold_left
                (fun keyMap row => key_map_set (fst row) (snd row) keyMap)
                rows [])
     | e, _ =>
         write_log LError "Failed to fetch public keys:" (error_detail e) ;;
         ret []
     end)
    (fun error =>
       console_error "Error fetching public keys:" error ;;
       ret []).

(** [hasEncryptionKeys] (lines 286 to 298). *)
Definition hasEncryptionKeys (userId : string) : M bool :=
  try_catch
    (r <- read_database (select_user_id userId) ;;
     ret (match error r, data r with
          | None, Some _ => true
          | _, _ => false
          end))
    (fun error => ret false).

(** [ensureUserHasKeys] (lines 315 to 330). *)
Definition ensureUserHasKeys (userId : string) (password : jsstring)
  : M (option UserKeys) :=
  existingKeys <- getUserKeys userId ;;
  match existingKeys with
  | Some keys => ret (Some keys)
  | None =>
      write_log LWarn
        ("User " ++ userId
         ++ " has no encryption keys. Generating now (migration path)...")
        None ;;
      generateAndStoreUserKeys userId password
  end.

End Service.

End KeyService.

(* ====================================================================== *)
(** * MessageService.ts, the mutations and the subscription                *)
(* ====================================================================== *)

Module MessageUpdates.
Import MessageService.

Record DeleteConversationParams : Type := mkDeleteConversationParams {
  delete_userId : string;
  delete_otherUserId : string;
  delete_listingId : option string
}.

Section Updates.

Context {P : Platform} {Q : Queries P}.

(** [markMessagesAsRead] (lines 270 to 289). *)
Definition markMessagesAsRead (messageIds : list string) : M bool :=
  match messageIds with
  | [] => ret true
  | _ :: _ =>
      try_catch
        (dbLogger_write LInfo "Marking messages as read" ;;
         r <- with_database (buildMarkAsReadQuery messageIds) ;;
         match error r with
         | Some _ =>
             dbLogger_write LError "Failed to mark messages as read" ;;
             ret false
         | None =>
             dbLogger_write LSuccess "Messages marked as read successfully" ;;
             ret true
         end)
        (fun error =>
           dbLogger_write LError "Error in markMessagesAsRead" ;;
           ret false)
  end.

(** [deleteMessage] (lines 294 to 314). *)
Definition deleteMessage (messageId : string) : M bool :=
  try_catch
    (dbLogger_write LInfo "Deleting message" ;;
     r <- with_database (delete_message messageId) ;;
     match error r with
     | Some _ =>
         dbLogger_write LError "Failed to delete message" ;;
         ret false
     | None =>
         dbLogger_write LSuccess "Message deleted successfully" ;;
         ret true
     end)
    (fun error =>
       dbLogger_write LError "Error in deleteMessage" ;;
       ret false).

(** [deleteConversation] (lines 319 to 344). *)
Definition deleteConversation (params : DeleteConversationParams) : M bool :=
  try_catch
    (dbLogger_write LInfo "Deleting conversation" ;;
     r <- with_database
            (buildDeleteMessagesQuery
               (mkMessageQueryParams (delete_userId params)
                  (delete_otherUserId params) (delete_listingId params))) ;;
     match error r with
     | Some _ =>
         dbLogger_write LError "Failed to delete conversation" ;;
         ret false
     | None =>
         dbLogger_write LSuccess "Conversation deleted successfully" ;;
         ret true
     end)
    (fun error =>
       dbLogger_write LError "Error in deleteConversation" ;;
       ret false).

End Updates.

End MessageUpdates.

Module Subscription.
Import MessageService.

(** What the callback reads of a [postgres_changes] payload. *)
Record Payload : Type := mkPayload {
  eventType : string;
  payload_new : Message
}.

Section Callback.

Context {P : Platform}.

(** The callback [subscribeToMessages] registers on the channel (lines 366
    to 412), for the arguments [userId], [onMessage], [onError] and
    [privateKey] of the call. *)
Definition on_postgres_changes (userId : string) (onMessage : Message -> M unit)
  (onError : option (exn -> M unit)) (privateKey : option jsstring)
  (payload : Payload) : M unit :=
  try_catch
    (if String.eqb (eventType payload) "INSERT" then
       let newMessage := payload_new payload in
       if String.eqb (sender_id newMessage) userId
          || String.eqb (receiver_id newMessage) userId
       then
         dbLogger_write LInfo "New message received via subscription" ;;
         match privateKey, String.eqb (receiver_id newMessage) userId with
         | Some (c :: key), true =>
             try_catch
               (decryptedContent <-
                  decryptMessage (content newMessage) (c :: key) ;;
                onMessage (set_content newMessage decryptedContent))
               (fun error =>
                  dbLogger_write LWarn "Failed to decrypt incoming message" ;;
                  onMessage newMessage)
         | _, _ => onMessage newMessage
         end
       else ret tt
     else if String.eqb (eventType payload) "UPDATE" then
       let updatedMessage := payload_new payload in
       if String.eqb (sender_id updatedMessage) userId
          || String.eqb (receiver_id updatedMessage) userId
       then
         dbLogger_write LInfo "Message updated via subscription" ;;
         match privateKey, String.eqb (receiver_id updatedMessage) userId with
         | Some (c :: key), true =>
             try_catch
               (decryptedContent <-
                  decryptMessage (content updatedMessage) (c :: key) ;;
                onMessage (set_content updatedMessage decryptedContent))
               (fun error =>
                  dbLogger_write LWarn "Failed to decrypt updated message" ;;
                  onMessage updatedMessage)
         | _, _ => onMessage updatedMessage
         end
       else ret tt
     else if String.eqb (eventType payload) "DELETE" then
       dbLogger_write LInfo "Message deleted via subscription"
     else ret tt)
    (fun error =>
       dbLogger_write LError "Error processing subscription event" ;;
       match onError with
       | Some f => f error
       | None => ret tt
       end).

End Callback.

End Subscription.

(* ====================================================================== *)
(** * src/app/messages/page.tsx, the message list                          *)
(* ====================================================================== *)

Module MessagesPage.
Import Ascii.
Import MessageService.

(** [s.split(sep)] for a separator of one character. *)
Fixpoint split (sep : ascii) (s : string) : list string :=
  match s with
  | EmptyString => [EmptyString]
  | String c rest =>
      if Ascii.eqb c sep then EmptyString :: split sep rest
      else
        match split sep rest with
        | part :: parts => String c part :: parts
        | [] => [String c EmptyString]
        end
  end.

(** The key of a conversation in the list:
    [c.user_id + ":" + c.listing_id] (lines 47 and 355). *)
Definition conversationKey (c : Conversation) : string :=
  user_id c ++ ":" ++ conversation_listing_id c.

(** [const [partnerId, listingId] = conversationKey.split(":")]. *)
Definition partnerId (conversationKey : string) : string :=
  nth 0 (split ":" conversationKey) EmptyString.

Definition listingId (conversationKey : string) : option string :=
  nth_error (split ":" conversationKey) 1.

(** [listingId === "general" ? null : listingId]. *)
Definition listing_param (listingId : option string) : option string :=
  match listingId with
  | Some l => if String.eqb l "general" then None else Some l
  | None => None
  end.

(** [privateKey || undefined]. *)
Definition key_param (privateKey : option jsstring) : option jsstring :=
  match privateKey with
  | Some (c :: key) => Some (c :: key)
  | _ => None
  end.

(** The argument of [MessageService.getMessages] in [fetchMessages] (lines
    62 to 70). *)
Definition fetch_params (userId : string) (privateKey : option jsstring)
  (conversationKey : string) : GetMessagesParams :=
  mkGetMessagesParams userId (partnerId conversationKey)
    (listing_param (listingId conversationKey)) (key_param privateKey).

(** The updater of the subscription callback (lines 189 to 193). *)
Definition add_if_new (message : Message) (prev : list Message)
  : list Message :=
  match find (fun msg => String.eqb (id msg) (id message)) prev with
  | Some _ => prev
  | None => prev ++ [message]
  end.

(** The [onMessage] callback of the page (lines 175 to 198), as the change
    of the message list; [updateConversations] is called in every case. *)
Definition on_message (userId : string) (selectedConversation : option string)
  (message : Message) (prev : list Message) : list Message :=
  match selectedConversation with
  | Some (String c key) =>
      let selected := String c key in
      let messageListingId := or_else (listing_id message) "general" in
      if (String.eqb (sender_id message) userId
          && String.eqb (receiver_id message) (partnerId selected))
         || (String.eqb (sender_id message) (partnerId selected)
             && String.eqb (receiver_id message) userId)
      then
        match listingId selected with
        | Some l =>
            if (String.eqb l "general" && String.eqb messageListingId "general")
               || (negb (String.eqb l "general")
                   && String.eqb messageListingId l)
            then add_if_new message prev
            else prev
        | None => prev
        end
      else prev
  | _ => prev
  end.

(** The optimistic message of [sendMessage] (lines 97 to 105); [tempId] is
    [`temp-${Date.now()}`] and [created_at] the time of the call. *)
Definition optimisticMessage (tempId userId : string) (selected : string)
  (content : jsstring) (created_at : string) : Message :=
  mkMessage tempId userId (partnerId selected) content false
    (listing_param (listingId selected)) created_at.

(** The three updaters of [sendMessage] (lines 107, 119 and 125). *)
Definition add_optimistic (optimistic : Message) (prev : list Message)
  : list Message :=
  prev ++ [optimistic].

Definition replace_temp (tempId : string) (sentMessage : Message)
  (prev : list Message) : list Message :=
  map (fun msg => if String.eqb (id msg) tempId then sentMessage else msg) prev.

Definition remove_temp (tempId : string) (prev : list Message) : list Message :=
  filter (fun msg => negb (String.eqb (id msg) tempId)) prev.

End MessagesPage.

(* ====================================================================== *)
(** * src/app/test-encryption/page.tsx, the two-user test                  *)
(* ====================================================================== *)

Module TestServicePage.

(** What a handler of the page shows: a line of the log, or an alert. *)
Inductive shown : Type :=
| addLog (msg : string)
| alert (msg : string).

Section Handlers.

Context {P : Platform}.

(** [testWrongKey]: the lines it adds to the log, in order. *)
Definition testWrongKey (user1Keys : option KeyPair) (encryptedMessage : jsstring)
  : M (list shown) :=
  match user1Keys, encryptedMessage with
  | Some user1Keys, _ :: _ =>
      let attempt :=
        addLog "🔓 Attempting to decrypt with User 1's key (should fail)..." in
      try_catch
        (_ <- decryptMessage encryptedMessage (privateKey user1Keys) ;;
         ret [attempt; addLog "❌ ERROR: Should not have decrypted!"])
        (fun error =>
           ret [attempt; addLog "✅ CORRECT: Cannot decrypt with wrong key!";
                addLog "🔒 Message is secure - only User 2 can read it"])
  | _, _ => ret [alert "Send a message first"]
  end.

End Handlers.

End TestServicePage.

(* ====================================================================== *)
(** * Further notions the statements use                                   *)
(* ====================================================================== *)

(** The [try] block of [encryptMessage] on the random source alone: its
    completion and the random source it leaves. *)
Definition encrypted_text {P : Platform}
  (plaintext receiverPublicKeyBase64 : jsstring) (e : Entropy)
  : outcome jsstring * Entropy :=
  match base64ToArrayBuffer receiverPublicKeyBase64 with
  | Throw err => (Throw err, e)
  | Return publicKeyBuffer =>
      match importKey_spki publicKeyBuffer with
      | Throw err => (Throw err, e)
      | Return publicKey =>
          match rsa_oaep_encrypt publicKey (TextEncoder_encode plaintext) e with
          | (Return encryptedData, e') => (arrayBufferToBase64 encryptedData, e')
          | (Throw err, e') => (Throw err, e')
          end
      end
  end.

(** A world after a call that only drew from the random source. *)
Definition drawn {P : Platform} (w : World) (e : Entropy) : World :=
  mkWorld e (console w) (database w).

(** What [getUserKeys] resolves to, from the table alone. *)
Definition user_keys_lookup {P : Platform} {Q : Queries P} (userId : string)
  (db : Database) : option KeyService.UserKeys :=
  match select_user_keys userId db with
  | Return r =>
      match error r, data r with
      | None, Some row =>
          Some (KeyService.mkUserKeys (row_user_id row) (row_public_key row)
                  (row_encrypted_private_key row))
      | _, _ => None
      end
  | Throw _ => None
  end.

(** The public key the last of the rows gives for a user. *)
Definition last_public_key (userId : string) (rows : list (string * jsstring))
  : option jsstring :=
  option_map snd (find (fun r => String.eqb (fst r) userId) (rev rows)).

(** A mutation succeeded: the query returned and reported no error. *)
Definition succeeded {A} (o : outcome (response A)) : bool :=
  match o with
  | Return r => match error r with None => true | Some _ => false end
  | Throw _ => false
  end.

(** The unread messages to [userId] in the conversation of key [key]. *)
Definition unread_in_group (userId key : string) (msgs : list Message) : N :=
  N.of_nat
    (List.length
       (filter
          (fun m =>
             String.eqb (Conversations.key_of userId m) key
             && (String.eqb (receiver_id m) userId && negb (is_read m)))
          msgs)).

(** What [sendMessage] resolves to after the insert of [row]. *)
Definition sent_message {P : Platform} (row : MessageInsert)
  (content : jsstring) (db : Database) : option Message :=
  match fst (insert_message row db) with
  | Return r =>
      match error r, data r with
      | None, Some m => Some (MessageService.set_content m content)
      | _, _ => None
      end
  | Throw _ => None
  end.

(** The map after the rows [seen]: one entry per group met, keyed by its
    conversation, counting the unread messages of the group. *)
Definition groups_counted (userId : string) (seen : list Message)
  (cm : MessageService.conversation_map) : Prop :=
  NoDup (map fst cm) /\
  (forall k c, In (k, c) cm ->
     k = Conversations.conversation_key c /\ MessageService.unread_count c = unread_in_group userId k seen) /\
  (forall k, MessageService.map_has k cm
             = existsb (fun m => String.eqb (Conversations.key_of userId m) k) seen).


(** The message the subscription hands to [onMessage]: the view
    [getMessages] gives of the row when there is a private key. *)
Definition delivered {P : Platform} (userId : string)
  (privateKey : option jsstring) (msg : Message) : Message :=
  match privateKey with
  | Some (c :: key) => Conversations.decrypted_view userId (c :: key) msg
  | _ => msg
  end.

(** A string without a colon. *)
Fixpoint no_colon (s : string) : bool :=
  match s with
  | EmptyString => true
  | String c rest =>
      negb (Ascii.eqb c (Ascii.Ascii false true false true true true false false))
      && no_colon rest
  end.

(** Every entry of the map carries the partner, the listing and the time
    of the first message of its group. *)
Definition groups_headed (userId : string) (seen : list Message)
  (cm : MessageService.conversation_map) : Prop :=
  (forall k c, In (k, c) cm ->
     exists m,
       Conversations.first_of_group userId k seen = Some m /\
       MessageService.user_id c = Conversations.partner_of userId m /\
       MessageService.conversation_listing_id c
       = MessageService.or_else (listing_id m) "general" /\
       MessageService.last_message_time c = created_at m) /\
  (forall k, MessageService.map_has k cm = false ->
     Conversations.first_of_group userId k seen = None).

(* ====================================================================== *)
(** * A small backend to run the services on                               *)
(* ====================================================================== *)

(** The two tables with the queries of both services; the primitives are
    those of [Toy]. *)
Module Backend.

Record tables : Type := mkTables {
  user_keys : list UserKeysRow;
  messages : list Message
}.

Definition keys_of (userId : string) (db : tables) : option UserKeysRow :=
  find (fun r => String.eqb (row_user_id r) userId) (user_keys db).

Definition select_key (userId : string) (db : tables)
  : outcome (response PublicKeyRow) :=
  match keys_of userId db with
  | Some r => Return (mkResponse (Some (mkPublicKeyRow (row_public_key r))) None)
  | None => Return (mkResponse None (Some "PGRST116"%string))
  end.

(** A second row for a user violates the primary key. *)
Definition insert_keys (row : UserKeysRow) (db : tables)
  : outcome (response UserKeysRow) * tables :=
  match keys_of (row_user_id row) db with
  | Some _ => (Return (mkResponse None (Some "23505"%string)), db)
  | None =>
      (Return (mkResponse (Some row) None),
       mkTables (user_keys db ++ [row]) (messages db))
  end.

Definition select_keys (userId : string) (db : tables)
  : outcome (response UserKeysRow) :=
  match keys_of userId db with
  | Some r => Return (mkResponse (Some r) None)
  | None => Return (mkResponse None (Some "PGRST116"%string))
  end.

Definition select_keys_in (userIds : list string) (db : tables)
  : outcome (response (list (string * jsstring))) :=
  Return
    (mkResponse
       (Some
          (map (fun r => (row_user_id r, row_public_key r))
             (filter
                (fun r => existsb (String.eqb (row_user_id r)) userIds)
                (user_keys db))))
       None).

Definition select_id (userId : string) (db : tables)
  : outcome (response string) :=
  match keys_of userId db with
  | Some r => Return (mkResponse (Some (row_user_id r)) None)
  | None => Return (mkResponse None (Some "PGRST116"%string))
  end.

Definition insert (row : MessageInsert) (db : tables)
  : outcome (response Message) * tables :=
  let m :=
    mkMessage "m" (insert_sender_id row) (insert_receiver_id row)
      (insert_content row) (insert_is_read row) (insert_listing_id row) "now" in
  (Return (mkResponse (Some m) None),
   mkTables (user_keys db) (messages db ++ [m])).

Definition in_conversation (q : MessageQueryParams) (m : Message) : bool :=
  (String.eqb (sender_id m) (query_userId q)
   && String.eqb (receiver_id m) (query_otherUserId q))
  || (String.eqb (sender_id m) (query_otherUserId q)
      && String.eqb (receiver_id m) (query_userId q)).

Definition between (q : MessageQueryParams) (db : tables)
  : outcome (response (list Message)) :=
  Return (mkResponse (Some (filter (in_conversation q) (messages db))) None).

Definition involving (userId : string) (db : tables)
  : outcome (response (list Message)) :=
  Return (mkResponse (Some (rev (messages db))) None).

Definition mark_read (ids : list string) (db : tables)
  : outcome (response unit) * tables :=
  (Return (mkResponse None None),
   mkTables (user_keys db)
     (map
        (fun m =>
           if existsb (String.eqb (id m)) ids
           then mkMessage (id m) (sender_id m) (receiver_id m) (content m) true
                  (listing_id m) (created_at m)
           else m)
        (messages db))).

Definition delete (messageId : string) (db : tables)
  : outcome (response unit) * tables :=
  (Return (mkResponse None None),
   mkTables (user_keys db)
     (filter (fun m => negb (String.eqb (id m) messageId)) (messages db))).

Definition delete_between (q : MessageQueryParams) (db : tables)
  : outcome (response unit) * tables :=
  (Return (mkResponse None None),
   mkTables (user_keys db)
     (filter (fun m => negb (in_conversation q m)) (messages db))).

Definition platform : Platform := {|
  PublicKey := bytes;
  PrivateKey := bytes;
  Entropy := N;
  Database := tables;
  JSValue := Toy.value;
  getRandomValues := Toy.random;
  rsa_generateKey := Toy.generateKey;
  exportKey_spki := fun k => Return k;
  exportKey_pkcs8 := fun k => Return k;
  importKey_spki := Toy.importKey;
  importKey_pkcs8 := Toy.importKey;
  rsa_oaep_encrypt := Toy.rsa_encrypt;
  rsa_oaep_decrypt := Toy.open_sealed;
  sha256 := Toy.digest;
  aes_gcm_encrypt := Toy.gcm_encrypt;
  aes_gcm_decrypt := Toy.gcm_decrypt;
  Array_from := Toy.VArray;
  object_literal := Toy.object;
  JSON_stringify := Toy.stringify;
  JSON_parse := Toy.parse;
  get_property := Toy.property;
  Uint8Array_from := Toy.to_bytes;
  select_public_key := select_key;
  insert_message := insert;
  buildMessageQuery := between;
  buildConversationQuery := involving;
  buildUserSettingsQuery := fun _ _ => Return (mkResponse (Some []) None);
  buildListingQuery := fun _ _ => Return (mkResponse (Some []) None);
  dbLogger := fun l text log => log ++ [mkLog l text None]
|}.

Definition queries : Queries platform :=
  @Build_Queries platform insert_keys select_keys select_keys_in select_id
    mark_read delete delete_between.

Definition world (e : N) (keys : list UserKeysRow) (msgs : list Message)
  : World (P := platform) :=
  mkWorld (P := platform) e [] (mkTables keys msgs).

End Backend.

(* ====================================================================== *)
(** * Further scenarios                                                    *)
(* ====================================================================== *)

(** Users, rows and events on the small backend. *)
Module Scenes.
Import MessageService.

Definition B0 : Platform := Backend.platform.
Definition Q0 : Queries B0 := Backend.queries.

(** The key rows of u1 and u2, and a second row for u1. *)
Definition keys_u1 : UserKeysRow :=
  mkUserKeysRow "u1" (lit "AAECAwQFBgc=") (lit "sealed-1").

Definition keys_u2 : UserKeysRow :=
  mkUserKeysRow "u2" (lit "CAkKCwwNDg8=") (lit "sealed-2").

(** No user has keys; u1 has; u1 and u2 have. *)
Definition empty : World (P := B0) := Backend.world 0 [] [].
Definition one_user : World (P := B0) := Backend.world 0 [keys_u1] [].
Definition two_users : World (P := B0) := Backend.world 0 [keys_u1; keys_u2] [].

(** The world [generateAndStoreUserKeys] generates the pair in. *)
Definition signing_up : World (P := B0) :=
  logged empty (mkLog LLog "Generating encryption keys for user u1..." None).

(** The ciphertext of [Scenario.hello] for the pair of
    [Scenario.world0]. *)
Definition sealed_hello : jsstring := lit "AAECAwQFBgdIZWxsbyE=".

(** A send from u2 to u1, whose key on file is the public key of
    [Scenario.keys0]. *)
Definition reply : SendMessageParams :=
  mkSendMessageParams "u2" "u1" (lit "Hello!") None None.

(** u1 reading the chat with u2, holding the private key of
    [Scenario.keys0]. *)
Definition read_chat : GetMessagesParams :=
  mkGetMessagesParams "u1" "u2" None (Some (lit "AAECAwQFBgc=")).

(** A send from u1 to u2 with encryption switched off. *)
Definition send_plain : SendMessageParams :=
  mkSendMessageParams "u1" "u2" (lit "Hello!") None (Some false).

(** Rows of a public-key query that names u1 twice. *)
Definition key_rows : list (string * jsstring) :=
  [("u1"%string, lit "old"); ("u2"%string, lit "CAkKCwwNDg8=");
   ("u1"%string, lit "AAECAwQFBgc=")].

(** Three rows between u1 and u2, the newest first, two of them unread by
    u1, and one row between two other users. *)
Definition m1 : Message :=
  mkMessage "m1" "u2" "u1" (lit "three") false None "2024-01-03".
Definition m2 : Message :=
  mkMessage "m2" "u1" "u2" (lit "two") false None "2024-01-02".
Definition m3 : Message :=
  mkMessage "m3" "u2" "u1" (lit "one") false None "2024-01-01".
Definition m4 : Message :=
  mkMessage "m4" "u3" "u4" (lit "other") false None "2024-01-04".

Definition chat : World (P := B0) := Backend.world 0 [] [m3; m2; m1].

(** Events of the channel. *)
Definition inserted : Subscription.Payload := Subscription.mkPayload "INSERT" m1.
Definition foreign : Subscription.Payload := Subscription.mkPayload "INSERT" m4.

(** A callback that writes a line on the console. *)
Definition note : Message -> M (P := B0) unit :=
  fun _ => write_log LLog "onMessage" None.

(** A conversation of the list, and an optimistic message. *)
Definition general_chat : Conversation :=
  mkConversation "u2" "User Two" None "general" EmptyString (lit "three")
    "2024-01-03" 2.

Definition pending : Message :=
  MessagesPage.optimisticMessage "temp-1" "u1" "u2:general" (lit "four")
    "2024-01-05".

Definition stored : Message :=
  mkMessage "m5" "u1" "u2" (lit "four") false None "2024-01-05".

End Scenes.

(* ====================================================================== *)
(** * Proofs                                                               *)
(* ====================================================================== *)

Ltac Zify.zify_post_hook ::= Z.to_euclidean_division_equations.

Ltac split_tests :=
  repeat match goal with
  | |- context [?a <? ?b] => destruct (N.ltb_spec a b)
  | |- context [?a =? ?b] => destruct (N.eqb_spec a b)
  | |- context [?a <=? ?b] => destruct (N.leb_spec a b)
  end.

Ltac crunch :=
  repeat (progress (split_tests; cbn [andb orb negb forallb]));
  try discriminate; try reflexivity; try lia.

Ltac list_eq :=
  repeat (apply (f_equal2 (@cons N)); [lia|]); try reflexivity.

(** ** Runs of the platform functions *)

Example btoa_hello : btoa (lit "hello") = Return (lit "aGVsbG8=").
Proof. reflexivity. Qed.

Example atob_hello : atob (lit "aGVsbG8=") = Return (lit "hello").
Proof. reflexivity. Qed.

Example atob_without_padding : atob (lit "aGVsbG8") = Return (lit "hello").
Proof. reflexivity. Qed.

Example atob_empty : atob [] = Return [].
Proof. reflexivity. Qed.

Example atob_one_character :
  atob (lit "k") = Throw (DOMException "InvalidCharacterError").
Proof. reflexivity. Qed.

Example atob_three_equals :
  atob (lit "A===") = Throw (DOMException "InvalidCharacterError").
Proof. reflexivity. Qed.

Example encode_surrogate_pair :
  TextEncoder_encode [55357; 56594] = [xf0; x9f; x94; x92].
Proof. reflexivity. Qed.

Example encode_lone_surrogate :
  TextDecoder_decode (TextEncoder_encode [55357; 104]) = [REPLACEMENT; 104].
Proof. reflexivity. Qed.

Example decode_removes_bom :
  TextDecoder_decode [xef; xbb; xbf; x68] = [104].
Proof. reflexivity. Qed.

Example decode_truncated_sequence :
  TextDecoder_decode [xe2; x82] = [REPLACEMENT].
Proof. reflexivity. Qed.

Example placeholder_is_utf16 :
  MessageService.ENCRYPTED_MESSAGE
  = TextDecoder_decode (list_byte_of_string "🔒 Encrypted message").
Proof. reflexivity. Qed.

(** ** base64 *)

Section Base64Facts.

Lemma list_ind3 {A} (Q : list A -> Prop) :
  Q [] -> (forall a, Q [a]) -> (forall a b, Q [a; b]) ->
  (forall a b c l, Q l -> Q (a :: b :: c :: l)) ->
  forall l, Q l.
Proof.
  intros H0 H1 H2 H3 l.
  assert (Q l /\ (forall a, Q (a :: l)) /\ (forall a b, Q (a :: b :: l))) as [? _].
  { induction l as [|x l [IH0 [IH1 IH2]]]; repeat split; auto. }
  assumption.
Qed.

Lemma b64_char_range n :
  let c := b64_char n in
  (65 <= c <= 90) \/ (97 <= c <= 122) \/ (48 <= c <= 57) \/ c = 43 \/ c = 47.
Proof. unfold b64_char. split_tests; lia. Qed.

Lemma b64_index_upper c : 65 <= c <= 90 -> b64_index c = Some (c - 65).
Proof.
  intros H. unfold b64_index.
  destruct (N.leb_spec 65 c), (N.leb_spec c 90); try lia. reflexivity.
Qed.

Lemma b64_index_lower c : 97 <= c <= 122 -> b64_index c = Some (c - 71).
Proof.
  intros H. unfold b64_index.
  destruct (N.leb_spec 65 c), (N.leb_spec c 90); try lia. cbn [andb].
  destruct (N.leb_spec 97 c), (N.leb_spec c 122); try lia. reflexivity.
Qed.

Lemma b64_index_digit c : 48 <= c <= 57 -> b64_index c = Some (c + 4).
Proof.
  intros H. unfold b64_index.
  destruct (N.leb_spec 65 c), (N.leb_spec c 90); try lia. cbn [andb].
  destruct (N.leb_spec 97 c), (N.leb_spec c 122); try lia. cbn [andb].
  destruct (N.leb_spec 48 c), (N.leb_spec c 57); try lia. reflexivity.
Qed.

(** The index of the character of a sextet is the sextet. *)
Lemma b64_index_char n : n < 64 -> b64_index (b64_char n) = Some n.
Proof.
  intros Hn. unfold b64_char.
  destruct (N.ltb_spec n 26);
    [rewrite b64_index_upper by lia; f_equal; lia|].
  destruct (N.ltb_spec n 52);
    [rewrite b64_index_lower by lia; f_equal; lia|].
  destruct (N.ltb_spec n 62);
    [rewrite b64_index_digit by lia; f_equal; lia|].
  destruct (N.eqb_spec n 62) as [->|]; [reflexivity|].
  replace n with 63 by lia. reflexivity.
Qed.

Lemma b64_char_not_equals n : b64_char n <> equals_sign.
Proof. pose proof (b64_char_range n) as H. cbv zeta in H. unfold equals_sign. lia. Qed.

Lemma b64_char_not_whitespace n : is_ascii_whitespace (b64_char n) = false.
Proof.
  pose proof (b64_char_range n) as H. cbv zeta in H. 
  unfold is_ascii_whitespace. generalize dependent (b64_char n). intros c H.
  split_tests; cbn; try reflexivity; lia.
Qed.

Lemma encode_split octets :
  base64_encode octets = map b64_char (sextets octets) ++ padding octets.
Proof.
  induction octets as [| a | a b | a b c l IH] using list_ind3; try reflexivity.
  cbn [base64_encode sextets padding map app]. now rewrite IH.
Qed.


Lemma sextets_bound octets :
  Forall (fun b => b < 256) octets -> Forall (fun s => s < 64) (sextets octets).
Proof.
  induction octets as [| a | a b | a b c l IH] using list_ind3; intros H; cbn [sextets].
  - constructor.
  - inversion_clear H. repeat constructor; lia.
  - inversion_clear H as [|? ? Ha H']. inversion_clear H' as [|? ? Hb _].
    repeat constructor; lia.
  - inversion_clear H as [|? ? Ha H']. inversion_clear H' as [|? ? Hb H''].
    inversion_clear H'' as [|? ? Hc Hl].
    repeat (constructor; [lia|]). auto.
Qed.

Lemma decode_sextets_sextets octets :
  Forall (fun b => b < 256) octets -> decode_sextets (sextets octets) = octets.
Proof.
  induction octets as [| a | a b | a b c l IH] using list_ind3; intros H.
  - reflexivity.
  - inversion_clear H. cbn [sextets decode_sextets]. list_eq.
  - inversion_clear H as [|? ? Ha H']. inversion_clear H' as [|? ? Hb _].
    cbn [sextets decode_sextets]. list_eq.
  - inversion_clear H as [|? ? Ha H']. inversion_clear H' as [|? ? Hb H''].
    inversion_clear H'' as [|? ? Hc Hl].
    cbn [sextets decode_sextets]. rewrite (IH Hl). list_eq.
Qed.

Lemma sextets_of_chars l :
  Forall (fun s => s < 64) l -> sextets_of (map b64_char l) = Some l.
Proof.
  induction 1 as [|s l Hs _ IH]; [reflexivity|].
  cbn [map sextets_of]. now rewrite (b64_index_char s Hs), IH.
Qed.

Lemma filter_whitespace_encode octets :
  filter (fun c => negb (is_ascii_whitespace c)) (base64_encode octets)
  = base64_encode octets.
Proof.
  induction octets as [| a | a b | a b c l IH] using list_ind3;
    cbn [base64_encode filter]; rewrite ?b64_char_not_whitespace; cbn; 
    rewrite ?IH; reflexivity.
Qed.

Lemma length_chars octets :
  (List.length (map b64_char (sextets octets)) mod 4 <> 1)%nat.
Proof.
  induction octets as [| a | a b | a b c l IH] using list_ind3;
    cbn [sextets map List.length]; try (cbn; lia).
  change (S (S (S (S ?n)))) with (4 + n)%nat.
  replace (4 + List.length (map b64_char (sextets l)))%nat
    with (List.length (map b64_char (sextets l)) + 1 * 4)%nat by lia.
  now rewrite Nat.Div0.mod_add.
Qed.

Lemma length_encode octets :
  (List.length (base64_encode octets) mod 4 = 0)%nat.
Proof.
  induction octets as [| a | a b | a b c l IH] using list_ind3;
    cbn [base64_encode List.length]; try reflexivity.
  replace (S (S (S (S (List.length (base64_encode l))))))
    with (List.length (base64_encode l) + 1 * 4)%nat by lia.
  now rewrite Nat.Div0.mod_add.
Qed.

Lemma ends_with_equals_chars l :
  ends_with_equals (map b64_char l) = false.
Proof.
  destruct l as [|x l] using rev_ind; [reflexivity|].
  rewrite map_app. cbn [map]. unfold ends_with_equals.
  destruct (map b64_char l ++ [b64_char x]) eqn:E.
  - reflexivity.
  - rewrite <- E, last_last. apply N.eqb_neq, b64_char_not_equals.
Qed.

Lemma ends_with_equals_snoc l : ends_with_equals (l ++ [equals_sign]) = true.
Proof.
  unfold ends_with_equals. destruct (l ++ [equals_sign]) eqn:E.
  - now destruct l.
  - rewrite <- E, last_last. reflexivity.
Qed.

Lemma padding_cases octets :
  padding octets = [] \/ padding octets = [equals_sign]
  \/ padding octets = [equals_sign; equals_sign].
Proof.
  induction octets as [| a | a b | a b c l IH] using list_ind3; cbn; auto.
Qed.

Lemma strip_padding_encode octets :
  strip_padding (base64_encode octets) = map b64_char (sextets octets).
Proof.
  unfold strip_padding. rewrite length_encode. cbn [Nat.eqb].
  rewrite encode_split.
  destruct (padding_cases octets) as [-> | [-> | ->]].
  - rewrite app_nil_r. now rewrite ends_with_equals_chars.
  - rewrite ends_with_equals_snoc, removelast_last, ends_with_equals_chars.
    reflexivity.
  - change [equals_sign; equals_sign] with ([equals_sign] ++ [equals_sign]).
    rewrite app_assoc, ends_with_equals_snoc, removelast_last.
    rewrite ends_with_equals_snoc, removelast_last. reflexivity.
Qed.

Theorem base64_decode_encode octets :
  Forall (fun b => b < 256) octets ->
  base64_decode (base64_encode octets) = Some octets.
Proof.
  intros H. unfold base64_decode.
  rewrite filter_whitespace_encode, strip_padding_encode.
  destruct (Nat.eqb_spec (List.length (map b64_char (sextets octets)) mod 4) 1)
    as [E|_]; [now apply length_chars in E|].
  rewrite sextets_of_chars by now apply sextets_bound.
  cbn [option_map]. now rewrite decode_sextets_sextets.
Qed.

End Base64Facts.

(** ** UTF-8 *)

Section Utf8Facts.

Lemma to_N_byte_of_N n : n < 256 -> Byte.to_N (byte_of_N n) = n.
Proof.
  intros H. unfold byte_of_N. rewrite N.mod_small by assumption.
  destruct (Byte.of_N n) eqn:E.
  - now apply Byte.to_of_N.
  - apply Byte.of_N_None_iff in E. lia.
Qed.

Lemma byte_of_N_to_N b : byte_of_N (Byte.to_N b) = b.
Proof.
  unfold byte_of_N. pose proof (Byte.to_N_bounded b).
  rewrite N.mod_small by lia. now rewrite Byte.of_to_N.
Qed.

Lemma first_byte_1 b : b <= 127 -> first_byte b = ([b], initial).
Proof.
  intros. unfold first_byte. destruct (N.leb_spec b 127); [reflexivity|lia].
Qed.

Lemma first_byte_2 b :
  194 <= b <= 223 -> first_byte b = ([], mkDecoder (b - 192) 0 1 128 191).
Proof.
  intros. unfold first_byte.
  destruct (N.leb_spec b 127); [lia|].
  destruct (N.leb_spec 194 b), (N.leb_spec b 223); try lia. reflexivity.
Qed.

Lemma first_byte_3 b :
  224 <= b <= 239 ->
  first_byte b =
    ([], mkDecoder (b - 224) 0 2
           (if b =? 224 then 160 else 128) (if b =? 237 then 159 else 191)).
Proof.
  intros. unfold first_byte.
  destruct (N.leb_spec b 127); [lia|].
  destruct (N.leb_spec 194 b), (N.leb_spec b 223); try lia; cbn [andb];
  destruct (N.leb_spec 224 b), (N.leb_spec b 239); try lia; reflexivity.
Qed.

Lemma first_byte_4 b :
  240 <= b <= 244 ->
  first_byte b =
    ([], mkDecoder (b - 240) 0 3
           (if b =? 240 then 144 else 128) (if b =? 244 then 143 else 191)).
Proof.
  intros. unfold first_byte.
  destruct (N.leb_spec b 127); [lia|].
  destruct (N.leb_spec 194 b), (N.leb_spec b 223); try lia; cbn [andb];
  destruct (N.leb_spec 224 b), (N.leb_spec b 239); try lia; cbn [andb];
  destruct (N.leb_spec 240 b), (N.leb_spec b 244); try lia; reflexivity.
Qed.

Lemma step_last cp seen needed lo hi b :
  needed <> 0 -> lo <= b <= hi -> seen + 1 = needed ->
  step (mkDecoder cp seen needed lo hi) b = ([cp * 64 + (b - 128)], initial).
Proof.
  intros Hn Hb Hs. unfold step. cbn [bytes_needed lower_boundary upper_boundary
    code_point bytes_seen].
  destruct (N.eqb_spec needed 0); [contradiction|].
  destruct (N.leb_spec lo b), (N.leb_spec b hi); try lia. cbn [andb].
  destruct (N.eqb_spec (seen + 1) needed); [reflexivity|contradiction].
Qed.

Lemma step_more cp seen needed lo hi b :
  needed <> 0 -> lo <= b <= hi -> seen + 1 <> needed ->
  step (mkDecoder cp seen needed lo hi) b =
    ([], mkDecoder (cp * 64 + (b - 128)) (seen + 1) needed 128 191).
Proof.
  intros Hn Hb Hs. unfold step. cbn [bytes_needed lower_boundary upper_boundary
    code_point bytes_seen].
  destruct (N.eqb_spec needed 0); [contradiction|].
  destruct (N.leb_spec lo b), (N.leb_spec b hi); try lia. cbn [andb].
  destruct (N.eqb_spec (seen + 1) needed); [contradiction|reflexivity].
Qed.

Lemma decode_encode_scalar cp rest :
  is_scalar cp = true ->
  utf8_decode initial (map Byte.to_N (utf8_encode_scalar cp) ++ rest)
  = cp :: utf8_decode initial rest.
Proof.
  unfold is_scalar. intros H.
  apply andb_true_iff in H as [H1 H2]. apply N.ltb_lt in H1.
  assert (Hs : cp < 55296 \/ 57343 < cp).
  { destruct (N.leb_spec 55296 cp), (N.leb_spec cp 57343); cbn in H2;
      try discriminate; lia. }
  clear H2. unfold utf8_encode_scalar.
  destruct (N.leb_spec cp 127) as [A|A];
    [|destruct (N.leb_spec cp 2047) as [B|B];
      [|destruct (N.leb_spec cp 65535) as [C|C]]];
    cbn [map app utf8_decode]; rewrite !to_N_byte_of_N by lia;
    change (step initial) with first_byte.
  - rewrite first_byte_1 by lia. reflexivity.
  - rewrite first_byte_2 by lia.
    rewrite step_last by lia. cbn [app].
    f_equal. lia.
  - rewrite first_byte_3 by lia.
    rewrite step_more by (split_tests; lia).
    rewrite step_last by lia. cbn [app].
    f_equal. lia.
  - rewrite first_byte_4 by lia.
    rewrite step_more by (split_tests; lia).
    rewrite step_more by lia.
    rewrite step_last by lia. cbn [app].
    f_equal. lia.
Qed.

Lemma decode_encode_scalars cps :
  forallb is_scalar cps = true ->
  utf8_decode initial (map Byte.to_N (flat_map utf8_encode_scalar cps)) = cps.
Proof.
  induction cps as [|cp cps IH]; [reflexivity|].
  cbn [forallb flat_map]. intros H. apply andb_true_iff in H as [H1 H2].
  rewrite map_app, decode_encode_scalar by assumption. now rewrite IH.
Qed.

Lemma list_ind2 {A} (Q : list A -> Prop) :
  Q [] -> (forall a, Q [a]) -> (forall a b l, Q l -> Q (b :: l) -> Q (a :: b :: l)) ->
  forall l, Q l.
Proof.
  intros H0 H1 H2 l.
  assert (Q l /\ forall a, Q (a :: l)) as [? _].
  { induction l as [|x l [IH0 IH1]]; split; auto. }
  assumption.
Qed.

Lemma scalar_values_nonlead c rest :
  is_lead c = false ->
  scalar_values (c :: rest)
  = (if is_trail c then REPLACEMENT else c) :: scalar_values rest.
Proof. intros H. cbn [scalar_values]. rewrite H. now destruct (is_trail c). Qed.

Lemma scalar_values_pair c d rest :
  is_lead c = true -> is_trail d = true ->
  scalar_values (c :: d :: rest)
  = (65536 + (c - 55296) * 1024 + (d - 56320)) :: scalar_values rest.
Proof. intros H1 H2. cbn [scalar_values]. now rewrite H1, H2. Qed.

Lemma well_formed_nonlead c rest :
  is_lead c = false ->
  well_formed (c :: rest) = negb (is_trail c) && (c <? 65536) && well_formed rest.
Proof. intros H. cbn [well_formed]. now rewrite H. Qed.

Lemma well_formed_lead c d rest :
  is_lead c = true ->
  well_formed (c :: d :: rest) = is_trail d && well_formed rest.
Proof. intros H. cbn [well_formed]. now rewrite H. Qed.

Lemma scalar_values_scalar s :
  well_formed s = true -> forallb is_scalar (scalar_values s) = true.
Proof.
  induction s as [| c | c d l IH IH'] using list_ind2; [reflexivity| |].
  - cbn [well_formed scalar_values]. unfold is_lead, is_trail, is_scalar.
    crunch.
  - destruct (is_lead c) eqn:Hc.
    + rewrite well_formed_lead by assumption.
      intros H. apply andb_true_iff in H as [Hd Hl].
      rewrite scalar_values_pair by assumption.
      cbn [forallb]. rewrite (IH Hl), andb_true_r.
      unfold is_lead, is_trail, is_scalar in *.
      revert Hc Hd. crunch.
    + rewrite well_formed_nonlead, scalar_values_nonlead by assumption.
      intros H. apply andb_true_iff in H as [H Hl].
      apply andb_true_iff in H as [Ht Hlt]. apply negb_true_iff in Ht.
      rewrite Ht. cbn [forallb]. rewrite (IH' Hl), andb_true_r.
      unfold is_lead, is_trail, is_scalar in *.
      revert Hc Ht Hlt. crunch.
Qed.

Lemma utf16_scalar_values s :
  well_formed s = true -> flat_map utf16_units (scalar_values s) = s.
Proof.
  induction s as [| c | c d l IH IH'] using list_ind2; [reflexivity| |].
  - cbn [well_formed scalar_values]. destruct (is_lead c); [discriminate|].
    destruct (is_trail c); [discriminate|]. cbn [negb andb flat_map app].
    rewrite andb_true_r. intros H. unfold utf16_units. now rewrite H.
  - destruct (is_lead c) eqn:Hc.
    + rewrite well_formed_lead by assumption.
      intros H. apply andb_true_iff in H as [Hd Hl].
      rewrite scalar_values_pair by assumption.
      cbn [flat_map]. rewrite (IH Hl).
      unfold is_lead, is_trail, utf16_units in *.
      apply andb_true_iff in Hc as [Hc1 Hc2]. apply andb_true_iff in Hd as [Hd1 Hd2].
      apply N.leb_le in Hc1, Hc2, Hd1, Hd2.
      destruct (N.ltb_spec (65536 + (c - 55296) * 1024 + (d - 56320)) 65536); [lia|].
      cbn [app]. f_equal; [lia|]. f_equal. lia.
    + rewrite well_formed_nonlead, scalar_values_nonlead by assumption.
      intros H. apply andb_true_iff in H as [H Hl].
      apply andb_true_iff in H as [Ht Hlt]. apply negb_true_iff in Ht.
      rewrite Ht. cbn [flat_map]. rewrite (IH' Hl). unfold utf16_units. now rewrite Hlt.
Qed.

Lemma strip_bom_scalar_values s :
  well_formed s = true -> starts_with_bom s = false ->
  strip_bom (scalar_values s) = scalar_values s.
Proof.
  destruct s as [|c s]; [reflexivity|].
  cbn [well_formed scalar_values starts_with_bom]. intros Hw Hb.
  destruct (is_lead c) eqn:Hc.
  - destruct s as [|d s]; [discriminate|].
    apply andb_true_iff in Hw as [Hd _]. rewrite Hd. unfold strip_bom, BOM.
    unfold is_lead, is_trail in *.
    apply andb_true_iff in Hc as [Hc1 Hc2]. apply andb_true_iff in Hd as [Hd1 Hd2].
    apply N.leb_le in Hc1, Hc2, Hd1, Hd2.
    destruct (N.eqb_spec (65536 + (c - 55296) * 1024 + (d - 56320)) 65279);
      [lia|reflexivity].
  - destruct (is_trail c); [discriminate|]. unfold strip_bom. now rewrite Hb.
Qed.

Theorem TextDecoder_TextEncoder s :
  well_formed s = true -> starts_with_bom s = false ->
  TextDecoder_decode (TextEncoder_encode s) = s.
Proof.
  intros Hw Hb. unfold TextDecoder_decode, TextEncoder_encode.
  rewrite decode_encode_scalars by now apply scalar_values_scalar.
  rewrite strip_bom_scalar_values by assumption.
  now apply utf16_scalar_values.
Qed.

End Utf8Facts.

(** ** Message encryption *)

Section EncryptionFacts.

Context {P : Platform}.

Lemma arrayBufferToBase64_returns buffer :
  arrayBufferToBase64 buffer = Return (base64_encode (map Byte.to_N buffer)).
Proof.
  unfold arrayBufferToBase64, btoa.
  replace (forallb (fun c => c <=? 255) (map Byte.to_N buffer)) with true;
    [reflexivity|].
  symmetry. apply forallb_forall. intros c Hc.
  apply in_map_iff in Hc as [b [<- _]]. apply N.leb_le, Byte.to_N_bounded.
Qed.

Lemma map_byte_of_N_to_N (l : bytes) : map byte_of_N (map Byte.to_N l) = l.
Proof.
  rewrite map_map. rewrite <- (map_id l) at 2. apply map_ext, byte_of_N_to_N.
Qed.

(** [base64ToArrayBuffer] undoes [arrayBufferToBase64]. *)
Lemma base64ToArrayBuffer_encode buffer :
  base64ToArrayBuffer (base64_encode (map Byte.to_N buffer)) = Return buffer.
Proof.
  unfold base64ToArrayBuffer, atob. rewrite base64_decode_encode.
  - f_equal. apply map_byte_of_N_to_N.
  - apply Forall_forall. intros c Hc.
    apply in_map_iff in Hc as [b [<- _]].
    pose proof (Byte.to_N_bounded b). lia.
Qed.

(** The [try] block of [decryptMessage] touches nothing. *)
Lemma decryptMessage_try_pure e k w :
  decryptMessage_try e k w = (decrypted_text e k, w).
Proof.
  unfold decryptMessage_try, decrypted_text, bind, lift, ret, and_then.
  destruct (base64ToArrayBuffer k); [|reflexivity].
  destruct (importKey_pkcs8 a); [|reflexivity].
  destruct (base64ToArrayBuffer e); [|reflexivity].
  destruct (rsa_oaep_decrypt a0 a1); reflexivity.
Qed.

Lemma decryptMessage_eq e k w :
  decryptMessage e k w =
    match decrypted_text e k with
    | Return s => (Return s, w)
    | Throw err =>
        (Return UNABLE_TO_DECRYPT,
         logged w (mkLog LError "Decryption failed:" (Some err)))
    end.
Proof.
  unfold decryptMessage, try_catch. rewrite decryptMessage_try_pure.
  destruct (decrypted_text e k); reflexivity.
Qed.

Lemma decryptMessage_value e k w :
  fst (decryptMessage e k w) = Return (shown_text e k).
Proof.
  rewrite decryptMessage_eq. unfold shown_text.
  destruct (decrypted_text e k); reflexivity.
Qed.

Lemma decryptMessage_returns e k w :
  exists w', decryptMessage e k w = (Return (shown_text e k), w') /\ same_state w w'.
Proof.
  rewrite decryptMessage_eq. unfold shown_text.
  destruct (decrypted_text e k); eexists; (split; [reflexivity|]);
    split; reflexivity.
Qed.

(** C2.  [decryptMessage] resolves for every ciphertext string, private-key
    string and world: either every step of its [try] block succeeded and it
    resolves to the decoded plaintext, leaving the world as it was, or a
    step threw, and it resolves to ['[Unable to decrypt message]'] after one
    [console.error].  No input makes it reject. *)
Theorem decryptMessage_never_throws (encryptedBase64 privateKeyBase64 : jsstring)
  (w : World) :
  (exists privateKeyBuffer privateKey encryptedData decryptedData,
     base64ToArrayBuffer privateKeyBase64 = Return privateKeyBuffer /\
     importKey_pkcs8 privateKeyBuffer = Return privateKey /\
     base64ToArrayBuffer encryptedBase64 = Return encryptedData /\
     rsa_oaep_decrypt privateKey encryptedData = Return decryptedData /\
     decryptMessage encryptedBase64 privateKeyBase64 w
     = (Return (TextDecoder_decode decryptedData), w))
  \/
  (exists err,
     decryptMessage_try encryptedBase64 privateKeyBase64 w = (Throw err, w) /\
     decryptMessage encryptedBase64 privateKeyBase64 w
     = (Return UNABLE_TO_DECRYPT,
        logged w (mkLog LError "Decryption failed:" (Some err)))).
Proof.
  rewrite decryptMessage_eq, decryptMessage_try_pure.
  unfold decrypted_text, and_then.
  destruct (base64ToArrayBuffer privateKeyBase64) as [kb|e1] eqn:E1;
    [|right; eauto].
  destruct (importKey_pkcs8 kb) as [sk|e2] eqn:E2; [|right; eauto].
  destruct (base64ToArrayBuffer encryptedBase64) as [ct|e3] eqn:E3;
    [|right; eauto].
  destruct (rsa_oaep_decrypt sk ct) as [pt|e4] eqn:E4; [|right; eauto].
  left. exists kb, sk, ct, pt. auto.
Qed.

(** What [generateKeyPair] returns, read back. *)
Lemma generateKeyPair_inv w K w1 :
  generateKeyPair w = (Return K, w1) ->
  exists pk sk e' spki pkcs8,
    rsa_generateKey modulusLength (entropy w) = (Return (pk, sk), e') /\
    exportKey_spki pk = Return spki /\
    exportKey_pkcs8 sk = Return pkcs8 /\
    publicKey K = base64_encode (map Byte.to_N spki) /\
    privateKey K = base64_encode (map Byte.to_N pkcs8).
Proof.
  unfold generateKeyPair, bind, with_entropy_outcome, lift, ret.
  destruct (rsa_generateKey modulusLength (entropy w)) as [[[pk sk]|e] e'] eqn:G;
    [|discriminate].
  cbn [fst snd].
  destruct (exportKey_spki pk) as [spki|] eqn:E1; [|discriminate].
  destruct (exportKey_pkcs8 sk) as [pkcs8|] eqn:E2; [|discriminate].
  rewrite !arrayBufferToBase64_returns.
  intros H. injection H as <- _.
  exists pk, sk, e', spki, pkcs8. auto.
Qed.

Hypothesis rsa : rsa_oaep_correct P.

(** Encrypting for a generated pair and decrypting gives the plaintext
    after one pass through [TextEncoder] and [TextDecoder]. *)
Lemma message_roundtrip_bytes w K w1 plaintext :
  generateKeyPair w = (Return K, w1) ->
  (List.length (TextEncoder_encode plaintext) <= payload_limit)%nat ->
  forall w2, exists c w3,
    encryptMessage plaintext (publicKey K) w2 = (Return c, w3) /\
    decrypted_text c (privateKey K)
    = Return (TextDecoder_decode (TextEncoder_encode plaintext)).
Proof.
  intros G Hlen w2.
  apply generateKeyPair_inv in G
    as (pk & sk & e' & spki & pkcs8 & G & E1 & E2 & -> & ->).
  destruct (rsa _ _ _ _ G)
    as (spki' & pkcs8' & pk' & sk' & E1' & E2' & I1 & I2 & C).
  rewrite E1 in E1'. injection E1' as <-.
  rewrite E2 in E2'. injection E2' as <-.
  destruct (C (TextEncoder_encode plaintext) (entropy w2) Hlen)
    as (c & e2 & Enc & Dec).
  exists (base64_encode (map Byte.to_N c)),
         (mkWorld e2 (console w2) (database w2)).
  split.
  - unfold encryptMessage, try_catch, bind, lift, with_entropy_outcome.
    rewrite base64ToArrayBuffer_encode, I1, Enc, arrayBufferToBase64_returns.
    reflexivity.
  - unfold decrypted_text, and_then.
    rewrite !base64ToArrayBuffer_encode, I2, Dec. reflexivity.
Qed.

(** X29.  For a key pair [generateKeyPair] returned and a plaintext whose
    UTF-8 encoding is within the payload limit of the key (190 bytes), that
    has no unpaired surrogate and does not start with U+FEFF,
    [encryptMessage] under the public key resolves to a ciphertext that
    [decryptMessage] under the private key turns back into the plaintext. *)
Theorem message_roundtrip w K w1 plaintext :
  generateKeyPair w = (Return K, w1) ->
  well_formed plaintext = true ->
  starts_with_bom plaintext = false ->
  (List.length (TextEncoder_encode plaintext) <= payload_limit)%nat ->
  forall w2, exists c w3,
    encryptMessage plaintext (publicKey K) w2 = (Return c, w3) /\
    forall w4, fst (decryptMessage c (privateKey K) w4) = Return plaintext.
Proof.
  intros G Hw Hb Hlen w2.
  destruct (message_roundtrip_bytes w K w1 plaintext G Hlen w2)
    as (c & w3 & Enc & Dec).
  exists c, w3. split; [assumption|]. intros w4.
  rewrite decryptMessage_value. unfold shown_text. rewrite Dec.
  now rewrite TextDecoder_TextEncoder.
Qed.

End EncryptionFacts.

(** ** The strings atob decodes *)

Section KeyStrings.

Lemma well_formed_ascii s :
  Forall (fun c => c < 128) s -> well_formed s = true.
Proof.
  induction 1 as [|c s Hc _ IH]; [reflexivity|].
  cbn [well_formed]. unfold is_lead, is_trail.
  destruct (N.leb_spec 55296 c); [lia|]. cbn [andb].
  destruct (N.leb_spec 56320 c); [lia|]. cbn [andb negb].
  destruct (N.ltb_spec c 65536); [|lia]. exact IH.
Qed.

Lemma starts_with_bom_ascii s :
  Forall (fun c => c < 128) s -> starts_with_bom s = false.
Proof.
  intros [|c s' Hc _]; [reflexivity|]. cbn [starts_with_bom].
  apply N.eqb_neq. unfold BOM. lia.
Qed.

Lemma sextets_of_ascii data l :
  sextets_of data = Some l -> Forall (fun c => c < 128) data.
Proof.
  revert l. induction data as [|c data IH]; intros l H; [constructor|].
  cbn [sextets_of] in H.
  destruct (b64_index c) as [i|] eqn:I; [|discriminate].
  destruct (sextets_of data) as [l'|]; [|discriminate].
  constructor; [|now apply (IH l')].
  unfold b64_index in I.
  destruct (N.leb_spec 65 c), (N.leb_spec c 90); cbn [andb] in I; try lia;
  destruct (N.leb_spec 97 c), (N.leb_spec c 122); cbn [andb] in I; try lia;
  destruct (N.leb_spec 48 c), (N.leb_spec c 57); cbn [andb] in I; try lia;
  destruct (N.eqb_spec c 43); try lia;
  destruct (N.eqb_spec c 47); try lia; discriminate.
Qed.

Lemma ends_with_equals_ascii data :
  ends_with_equals data = true ->
  Forall (fun c => c < 128) (removelast data) ->
  Forall (fun c => c < 128) data.
Proof.
  intros E F. destruct data as [|c data]; [constructor|].
  unfold ends_with_equals in E. apply N.eqb_eq in E.
  rewrite (app_removelast_last 0 (l := c :: data)) by discriminate.
  apply Forall_app. split; [assumption|].
  constructor; [|constructor]. rewrite E. unfold equals_sign. lia.
Qed.

Lemma strip_padding_ascii data :
  Forall (fun c => c < 128) (strip_padding data) ->
  Forall (fun c => c < 128) data.
Proof.
  unfold strip_padding.
  destruct (List.length data mod 4 =? 0)%nat; [|trivial].
  destruct (ends_with_equals data) eqn:E1; [|trivial].
  destruct (ends_with_equals (removelast data)) eqn:E2; intros F.
  - apply ends_with_equals_ascii; [assumption|].
    now apply ends_with_equals_ascii.
  - now apply ends_with_equals_ascii.
Qed.

Lemma filter_whitespace_ascii data :
  Forall (fun c => c < 128)
    (filter (fun c => negb (is_ascii_whitespace c)) data) ->
  Forall (fun c => c < 128) data.
Proof.
  induction data as [|c data IH]; [constructor|]. cbn [filter].
  destruct (is_ascii_whitespace c) eqn:W; cbn [negb].
  - intros F. constructor; [|now apply IH].
    unfold is_ascii_whitespace in W.
    repeat (apply orb_true_iff in W as [W|W]); apply N.eqb_eq in W; lia.
  - intros F. inversion F; subst. constructor; [assumption|now apply IH].
Qed.

(** What [atob] decodes is ASCII text. *)
Lemma atob_ascii data binary :
  atob data = Return binary -> Forall (fun c => c < 128) data.
Proof.
  unfold atob, base64_decode.
  set (d := strip_padding _).
  destruct (List.length d mod 4 =? 1)%nat; [discriminate|].
  destruct (sextets_of d) as [l|] eqn:S; [|discriminate]. intros _.
  apply filter_whitespace_ascii, strip_padding_ascii.
  now apply (sextets_of_ascii d l).
Qed.

Lemma isValidKey_ascii key :
  isValidKey (Str key) = true -> Forall (fun c => c < 128) key.
Proof.
  destruct key as [|c key]; [constructor|]. cbn [isValidKey].
  destruct (atob (c :: key)) as [binary|] eqn:A; [|discriminate].
  intros _. now apply (atob_ascii _ binary).
Qed.

(** [TextEncoder] and [TextDecoder] leave a string [isValidKey] accepts as
    it is. *)
Lemma isValidKey_text key :
  isValidKey (Str key) = true ->
  TextDecoder_decode (TextEncoder_encode key) = key.
Proof.
  intros V. apply isValidKey_ascii in V.
  apply TextDecoder_TextEncoder;
    [now apply well_formed_ascii | now apply starts_with_bom_ascii].
Qed.

End KeyStrings.

(** ** Password protection of the private key *)

Section KdfFacts.

Variable H : bytes -> bytes.

Lemma xor_bytes_length a b n :
  List.length a = n -> List.length b = n -> List.length (xor_bytes a b) = n.
Proof.
  revert b n. induction a as [|x a IH]; intros [|y b] n Ha Hb; cbn in *;
    try congruence.
  destruct n; [discriminate|]. f_equal. apply IH; congruence.
Qed.

Lemma hmac_length B n key text :
  (forall x, List.length (H x) = n) -> List.length (hmac H B key text) = n.
Proof. intros Hn. unfold hmac. apply Hn. Qed.

Lemma pbkdf2_block_length B n password salt c i :
  (forall x, List.length (H x) = n) ->
  List.length (pbkdf2_block H B password salt c i) = n.
Proof.
  intros Hn. unfold pbkdf2_block.
  set (f := fun ut : bytes * bytes => _).
  assert (Inv : forall ut, List.length (snd ut) = n ->
                           List.length (snd (f ut)) = n).
  { intros [u t] Ht. subst f. cbn [fst snd] in *.
    apply xor_bytes_length; [assumption|]. now apply hmac_length. }
  apply (N.iter_invariant (c - 1) _ f (fun ut => List.length (snd ut) = n)).
  - exact Inv.
  - cbn [snd]. now apply hmac_length.
Qed.

(** A key and the same key followed by a zero byte give one HMAC key
    block, as long as both fit in a block. *)
Lemma hmac_key_block_zero B key :
  (List.length key < B)%nat ->
  hmac_key_block H B (key ++ [x00]) = hmac_key_block H B key.
Proof.
  intros Hlt. unfold hmac_key_block. rewrite length_app. cbn [List.length].
  destruct (Nat.ltb_spec B (List.length key + 1)); [lia|].
  destruct (Nat.ltb_spec B (List.length key)); [lia|].
  rewrite length_app. cbn [List.length].
  rewrite <- app_assoc. f_equal.
  replace (B - List.length key)%nat with (S (B - (List.length key + 1)))%nat by lia.
  reflexivity.
Qed.

Lemma hmac_zero B key :
  (List.length key < B)%nat -> hmac H B (key ++ [x00]) = hmac H B key.
Proof. intros Hlt. unfold hmac. now rewrite hmac_key_block_zero. Qed.

Lemma pbkdf2_zero B hLen password salt c dkLen :
  (List.length password < B)%nat ->
  pbkdf2 H B hLen (password ++ [x00]) salt c dkLen
  = pbkdf2 H B hLen password salt c dkLen.
Proof.
  intros Hlt. unfold pbkdf2, pbkdf2_block. now rewrite hmac_zero.
Qed.

End KdfFacts.

Section PrivateKeyFacts.

Context {P : Platform}.

Lemma deriveKey_length salt keyMaterial :
  sha256_size P -> List.length (deriveKey salt keyMaterial) = 32%nat.
Proof.
  intros Hs. unfold deriveKey, pbkdf2.
  change (seq 1 ((32 + 32 - 1) / 32)) with [1%nat].
  cbn [flat_map]. rewrite app_nil_r.
  assert (L : List.length (pbkdf2_block sha256 64 keyMaterial salt iterations
                             (N.of_nat 1)) = 32%nat)
    by now apply pbkdf2_block_length.
  rewrite firstn_all2 by lia. exact L.
Qed.

(** A password followed by U+0000 derives the key of the password. *)
Lemma deriveKey_zero salt keyMaterial :
  (List.length keyMaterial < 64)%nat ->
  deriveKey salt (keyMaterial ++ [x00]) = deriveKey salt keyMaterial.
Proof. intros. unfold deriveKey. now apply pbkdf2_zero. Qed.

(** [encryptPrivateKey], step by step: the salt is a draw of 16 bytes, the
    IV the next draw of 12 bytes, and the call leaves the random source
    after both draws. *)
Lemma encryptPrivateKey_eq privateKey password w :
  encryptPrivateKey privateKey password w =
    let (salt, e1) := getRandomValues 16 (entropy w) in
    let (iv, e2) := getRandomValues 12 e1 in
    let w2 := mkWorld e2 (console w) (database w) in
    match aes_gcm_encrypt (deriveKey salt (TextEncoder_encode password)) iv
            (TextEncoder_encode privateKey) with
    | Return ct => (Return (blob_of salt iv ct), w2)
    | Throw err =>
        (Throw (Error "Failed to encrypt private key"),
         logged w2 (mkLog LError "Private key encryption failed:" (Some err)))
    end.
Proof.
  unfold encryptPrivateKey, try_catch, bind, with_entropy, lift, ret, throw,
    console_error, write_log, logged.
  destruct (getRandomValues 16 (entropy w)) as [salt e1]. cbn [entropy console database].
  destruct (getRandomValues 12 e1) as [iv e2]. cbn [entropy console database].
  destruct (aes_gcm_encrypt _ iv _); reflexivity.
Qed.

(** [decryptPrivateKey] raises one error only. *)
Lemma decryptPrivateKey_sole_error blob password w :
  (exists s w', decryptPrivateKey blob password w = (Return s, w')) \/
  (exists w', decryptPrivateKey blob password w = (Throw INVALID_PASSWORD, w')).
Proof.
  unfold decryptPrivateKey, try_catch.
  destruct (decryptPrivateKey_try blob password w) as [[s|e] w'].
  - left. eauto.
  - right. unfold bind, console_error, write_log, throw. eauto.
Qed.

Hypothesis json : json_blob_roundtrip P.

(** Opening a blob made of [salt], [iv] and [ct]. *)
Lemma decryptPrivateKey_blob salt iv ct password w :
  fst (decryptPrivateKey (blob_of salt iv ct) password w) =
    match aes_gcm_decrypt (deriveKey salt (TextEncoder_encode password)) iv ct with
    | Return pt => Return (TextDecoder_decode pt)
    | Throw _ => Throw INVALID_PASSWORD
    end.
Proof.
  destruct (json salt iv ct) as (v & vs & vi & vd & E & Gs & Gi & Gd & Us & Ui & Ud).
  unfold decryptPrivateKey, try_catch, decryptPrivateKey_try, bind, lift, ret,
    blob_of.
  rewrite E, Gs, Gi, Gd, Us, Ui, Ud.
  destruct (aes_gcm_decrypt _ iv ct); reflexivity.
Qed.

(** The same with the world: a blob that opens leaves the world as it
    was, one that does not open adds one [console.error]. *)
Lemma decryptPrivateKey_opens salt iv ct password w :
  decryptPrivateKey (blob_of salt iv ct) password w =
    match aes_gcm_decrypt (deriveKey salt (TextEncoder_encode password)) iv ct with
    | Return pt => (Return (TextDecoder_decode pt), w)
    | Throw err =>
        (Throw INVALID_PASSWORD,
         logged w (mkLog LError "Private key decryption failed:" (Some err)))
    end.
Proof.
  destruct (json salt iv ct) as (v & vs & vi & vd & E & Gs & Gi & Gd & Us & Ui & Ud).
  unfold decryptPrivateKey, try_catch, decryptPrivateKey_try, bind, lift, ret,
    blob_of.
  rewrite E, Gs, Gi, Gd, Us, Ui, Ud.
  destruct (aes_gcm_decrypt _ iv ct); reflexivity.
Qed.

Hypothesis random : random_fills P.
Hypothesis sha : sha256_size P.
Hypothesis aes : aes_gcm_correct P.

Lemma encryptPrivateKey_returns privateKey password w :
  exists salt iv ct w1,
    encryptPrivateKey privateKey password w = (Return (blob_of salt iv ct), w1) /\
    aes_gcm_encrypt (deriveKey salt (TextEncoder_encode password)) iv
      (TextEncoder_encode privateKey) = Return ct /\
    aes_gcm_decrypt (deriveKey salt (TextEncoder_encode password)) iv ct
    = Return (TextEncoder_encode privateKey).
Proof.
  rewrite encryptPrivateKey_eq.
  destruct (getRandomValues 16 (entropy w)) as [salt e1].
  pose proof (random 12%nat e1) as Hiv.
  destruct (getRandomValues 12 e1) as [iv e2]. cbn [fst] in Hiv.
  destruct (aes (deriveKey salt (TextEncoder_encode password)) iv
              (TextEncoder_encode privateKey)) as (ct & Enc & Dec);
    [now apply deriveKey_length | assumption |].
  rewrite Enc. exists salt, iv, ct. eauto.
Qed.

(** Two calls one after the other: each draws its own salt of 16 bytes
    and IV of 12 bytes, the second call from the random source as the first
    left it.  Whether the two salts differ is up to the random source. *)
Lemma encryptPrivateKey_fresh_draws privateKey password w :
  exists salt1 iv1 ct1 w1 salt2 iv2 ct2 w2 e1 e2 e3,
    encryptPrivateKey privateKey password w
    = (Return (blob_of salt1 iv1 ct1), w1) /\
    encryptPrivateKey privateKey password w1
    = (Return (blob_of salt2 iv2 ct2), w2) /\
    getRandomValues 16 (entropy w) = (salt1, e1) /\
    getRandomValues 12 e1 = (iv1, entropy w1) /\
    getRandomValues 16 (entropy w1) = (salt2, e2) /\
    getRandomValues 12 e2 = (iv2, e3) /\
    List.length salt1 = 16%nat /\ List.length iv1 = 12%nat /\
    List.length salt2 = 16%nat /\ List.length iv2 = 12%nat.
Proof.
  assert (Step : forall w0, exists salt iv ct e1 e2,
            getRandomValues 16 (entropy w0) = (salt, e1) /\
            getRandomValues 12 e1 = (iv, e2) /\
            List.length salt = 16%nat /\ List.length iv = 12%nat /\
            encryptPrivateKey privateKey password w0
            = (Return (blob_of salt iv ct),
               mkWorld e2 (console w0) (database w0))).
  { intros w0. rewrite encryptPrivateKey_eq.
    pose proof (random 16%nat (entropy w0)) as Hs.
    destruct (getRandomValues 16 (entropy w0)) as [salt e1] eqn:R1.
    cbn [fst] in Hs.
    pose proof (random 12%nat e1) as Hiv.
    destruct (getRandomValues 12 e1) as [iv e2] eqn:R2. cbn [fst] in Hiv.
    destruct (aes (deriveKey salt (TextEncoder_encode password)) iv
                (TextEncoder_encode privateKey)) as (ct & Enc & _);
      [now apply deriveKey_length | assumption |].
    rewrite Enc. exists salt, iv, ct, e1, e2.
    repeat split; try assumption; reflexivity. }
  destruct (Step w) as (salt1 & iv1 & ct1 & e1 & e2 & R1 & R2 & L1 & L2 & E1).
  destruct (Step (mkWorld e2 (console w) (database w)))
    as (salt2 & iv2 & ct2 & e3 & e4 & R3 & R4 & L3 & L4 & E2).
  cbn [entropy] in R3.
  exists salt1, iv1, ct1, (mkWorld e2 (console w) (database w)),
         salt2, iv2, ct2, (mkWorld e4 (console w) (database w)), e1, e3, e4.
  cbn [entropy]. repeat split; assumption.
Qed.

(** Protecting and opening with one password gives the private key after
    one pass through [TextEncoder] and [TextDecoder]. *)
Lemma private_key_roundtrip_bytes privateKey password w :
  exists blob w1,
    encryptPrivateKey privateKey password w = (Return blob, w1) /\
    forall w2,
      fst (decryptPrivateKey blob password w2)
      = Return (TextDecoder_decode (TextEncoder_encode privateKey)).
Proof.
  destruct (encryptPrivateKey_returns privateKey password w)
    as (salt & iv & ct & w1 & E & _ & Dec).
  exists (blob_of salt iv ct), w1. split; [assumption|]. intros w2.
  now rewrite decryptPrivateKey_blob, Dec.
Qed.

(** The round trip for any text [TextEncoder] and [TextDecoder] leave as
    it is: a string with no unpaired surrogate that does not start with
    U+FEFF. *)
Lemma private_key_roundtrip_text privateKey password w :
  well_formed privateKey = true ->
  starts_with_bom privateKey = false ->
  exists blob w1,
    encryptPrivateKey privateKey password w = (Return blob, w1) /\
    forall w2, fst (decryptPrivateKey blob password w2) = Return privateKey.
Proof.
  intros Hw Hb.
  destruct (private_key_roundtrip_bytes privateKey password w)
    as (blob & w1 & E & D).
  exists blob, w1. split; [assumption|]. intros w2.
  rewrite D. now rewrite TextDecoder_TextEncoder.
Qed.

(** C3.  For every private-key string, that is every string [isValidKey]
    accepts (base64 text, as the docstring of [encryptPrivateKey] has it
    and as [generateKeyPair] makes it), and every password,
    [encryptPrivateKey] resolves to a blob that [decryptPrivateKey] opens,
    with the same password, to exactly the private key. *)
Theorem private_key_roundtrip privateKey password w :
  isValidKey (Str privateKey) = true ->
  exists blob w1,
    encryptPrivateKey privateKey password w = (Return blob, w1) /\
    forall w2, fst (decryptPrivateKey blob password w2) = Return privateKey.
Proof.
  intros V. apply isValidKey_ascii in V.
  apply private_key_roundtrip_text;
    [now apply well_formed_ascii | now apply starts_with_bom_ascii].
Qed.

Hypothesis auth : aes_gcm_authentic P.


(** The password ["pw"] followed by U+0000 opens what ["pw"] protected. *)
Lemma trailing_zero_opens privateKey w :
  exists blob w1,
    encryptPrivateKey privateKey (lit "pw") w = (Return blob, w1) /\
    forall w2,
      fst (decryptPrivateKey blob (lit "pw" ++ [0]) w2)
      = Return (TextDecoder_decode (TextEncoder_encode privateKey)).
Proof.
  destruct (encryptPrivateKey_returns privateKey (lit "pw") w)
    as (salt & iv & ct & w1 & E & _ & Dec).
  exists (blob_of salt iv ct), w1. split; [assumption|]. intros w2.
  rewrite decryptPrivateKey_blob.
  change (TextEncoder_encode (lit "pw" ++ [0]))
    with (TextEncoder_encode (lit "pw") ++ [x00]).
  rewrite deriveKey_zero by (cbn; lia). now rewrite Dec.
Qed.

End PrivateKeyFacts.

(** ** Key validity and the session cache *)

Section KeyValidity.

(** C8, amended.  [isValidKey] is a structural check: it returns true
    exactly for the non-empty strings that [atob] decodes, whatever the
    decoded bytes are, and false for [null], [undefined], the empty string
    and the strings [atob] rejects. *)
Theorem isValidKey_structural (key : nullable) :
  (isValidKey key = true <->
   exists s, key = Str s /\ s <> [] /\ exists octets, atob s = Return octets)
  /\ isValidKey Null = false /\ isValidKey Undefined = false.
Proof.
  split; [|split; reflexivity]. split.
  - destruct key as [| |s]; try discriminate.
    destruct s as [|c s]; [discriminate|]. cbn [isValidKey].
    destruct (atob (c :: s)) as [octets|] eqn:E; [|discriminate].
    intros _. exists (c :: s). repeat split; [discriminate|eauto].
  - intros (s & -> & Hs & octets & E). destruct s as [|c s]; [contradiction|].
    cbn [isValidKey]. now rewrite E.
Qed.

(** C8 as stated fails on the empty string: [atob("")] decodes (to no
    bytes) and [isValidKey("")] is false. *)
Lemma isValidKey_empty_counterexample :
  atob [] = Return [] /\ isValidKey (Str []) = false /\
  ~ (forall key : nullable,
       isValidKey key = true <->
       exists s, key = Str s /\ exists octets, atob s = Return octets).
Proof.
  split; [reflexivity|]. split; [reflexivity|].
  intros H. destruct (H (Str [])) as [_ H'].
  assert (E : isValidKey (Str []) = true).
  { apply H'. exists []. split; [reflexivity|]. exists []. reflexivity. }
  discriminate E.
Qed.

(** A string that is no key at all passes. *)
Example isValidKey_accepts_any_base64 :
  isValidKey (Str (lit "aGVsbG8=")) = true /\ isValidKey (Str (lit " ")) = true.
Proof. split; reflexivity. Qed.

End KeyValidity.

Section Session.

Import CryptoContext.

Lemma session_keys_atomic_aux (st : State) (priv pub : jsstring) :
  fst (setKeys priv pub st)
  = (if isValidKey (Str priv) && isValidKey (Str pub)
     then mkState (Some priv) (Some pub) (userId st)
     else st)
  /\ hasKeys (fst (setKeys priv pub st))
     = (isValidKey (Str priv) && isValidKey (Str pub)) || hasKeys st.
Proof.
  unfold setKeys, hasKeys.
  destruct (isValidKey (Str priv)) eqn:Hp, (isValidKey (Str pub)) eqn:Hq;
    cbn [negb orb andb fst]; repeat split; try reflexivity.
  unfold setPublicKey, setPrivateKey.
  cbn [CryptoContext.privateKey CryptoContext.publicKey as_nullable].
  now rewrite Hp, Hq.
Qed.

(** C5.  [setKeys] stores both keys when both pass [isValidKey] and leaves
    the state as it was otherwise; after it [hasKeys] is true when both
    passed, and what it was before otherwise; [clearKeys] leaves the empty
    state, in which [hasKeys] is false and both keys are [null]. *)
Theorem session_keys_atomic (st : State) (priv pub : jsstring) :
  fst (setKeys priv pub st)
  = (if isValidKey (Str priv) && isValidKey (Str pub)
     then mkState (Some priv) (Some pub) (userId st)
     else st)
  /\ hasKeys (fst (setKeys priv pub st))
     = (isValidKey (Str priv) && isValidKey (Str pub)) || hasKeys st
  /\ fst (clearKeys st) = mkState None None None
  /\ hasKeys (fst (clearKeys st)) = false.
Proof.
  destruct (session_keys_atomic_aux st priv pub) as (E & Hk).
  repeat split; try assumption; reflexivity.
Qed.

(** After a load the accessors return what was passed in, and
    [useRequireCrypto] returns them; on the empty state it throws. *)
Lemma session_accessors (st : State) (priv pub : jsstring) :
  isValidKey (Str priv) = true -> isValidKey (Str pub) = true ->
  let st' := fst (setKeys priv pub st) in
  CryptoContext.privateKey st' = Some priv /\
  CryptoContext.publicKey st' = Some pub /\
  useRequireCrypto st' = Return (Some priv, Some pub) /\
  useRequireCrypto (fst (clearKeys st))
  = Throw (Error "Encryption keys not loaded. User must be logged in.").
Proof.
  intros Hp Hq st'.
  destruct (session_keys_atomic_aux st priv pub) as (E & Hk).
  subst st'. rewrite E, Hp, Hq. cbn [andb].
  unfold useRequireCrypto, hasKeys.
  cbn [CryptoContext.privateKey CryptoContext.publicKey as_nullable].
  rewrite Hp, Hq. repeat split; reflexivity.
Qed.

End Session.

(** ** The message service *)

Section ServiceFacts.

Import MessageService Conversations.

Context {P : Platform}.

Lemma same_state_refl w : same_state w w.
Proof. split; reflexivity. Qed.

Lemma same_state_trans w1 w2 w3 :
  same_state w1 w2 -> same_state w2 w3 -> same_state w1 w3.
Proof. intros [A B] [C D]. split; congruence. Qed.

Lemma dbLogger_write_eq l text w :
  exists w', dbLogger_write l text w = (Return tt, w') /\ same_state w w'.
Proof. eexists. split; [reflexivity|]. split; reflexivity. Qed.

Lemma write_log_eq l text d w :
  exists w', write_log l text d w = (Return tt, w') /\ same_state w w'.
Proof. eexists. split; [reflexivity|]. split; reflexivity. Qed.

Lemma getPublicKey_eq userId w :
  exists w',
    getPublicKey userId w = (Return (public_key_lookup userId (database w)), w')
    /\ same_state w w'.
Proof.
  unfold getPublicKey, try_catch, bind, read_database, public_key_lookup,
    console_error, write_log, ret.
  destruct (select_public_key userId (database w)) as [r|e].
  - destruct (error r), (data r); eexists; (split; [reflexivity|]);
      split; reflexivity.
  - eexists. split; [reflexivity|]. split; reflexivity.
Qed.

(** C6.  With encryption enabled (the default), when [getPublicKey] gives
    [null] for the receiver, [sendMessage] inserts the row whose content is
    the plaintext it was given: the tables after the call are the tables
    after that one insert.  The call resolves, to the inserted message when
    the insert succeeded and to [null] when it did not; nothing is thrown
    and no encryption is attempted. *)
Theorem sendMessage_plaintext_fallback (params : SendMessageParams) (w : World) :
  encryptionEnabled params <> Some false ->
  fst (getPublicKey (receiverId params) w) = Return None ->
  let row := inserted_row params (send_content params) in
  exists w',
    insert_content row = send_content params /\
    database w' = snd (insert_message row (database w)) /\
    sendMessage params w =
      (Return
         (match fst (insert_message row (database w)) with
          | Return r =>
              match error r, data r with
              | None, Some m => Some (set_content m (send_content params))
              | _, _ => None
              end
          | Throw _ => None
          end), w').
Proof.
  intros Hen Hkey row.
  destruct (getPublicKey_eq (receiverId params) w) as (w0 & E0 & _).
  rewrite E0 in Hkey. cbn [fst] in Hkey. injection Hkey as Hnone.
  assert (En : match encryptionEnabled params with Some b => b | None => true end
               = true).
  { destruct (encryptionEnabled params) as [[|]|]; congruence. }
  unfold sendMessage. rewrite En.
  unfold try_catch, bind at 1.
  destruct (dbLogger_write_eq LInfo "Sending message" w) as (w1 & E1 & S1).
  rewrite E1.
  unfold bind at 1. unfold bind at 1.
  destruct (getPublicKey_eq (receiverId params) w1) as (w2 & E2 & S2).
  rewrite E2. destruct S1 as [_ D1]. rewrite D1, Hnone.
  unfold bind at 1.
  destruct (dbLogger_write_eq LWarn
              "Receiver has no public key, sending unencrypted" w2)
    as (w3 & E3 & S3).
  rewrite E3. unfold ret at 1. unfold bind at 1, with_database.
  assert (D3 : database w3 = database w).
  { destruct S2 as [_ ?], S3 as [_ ?]. congruence. }
  rewrite D3. fold row.
  destruct (insert_message row (database w)) as [[r|e] db'] eqn:I; cbn [fst snd].
  - destruct (error r) as [err|].
    + eexists. split; [reflexivity|]. split; [|reflexivity]. reflexivity.
    + destruct (data r) as [m|].
      * eexists. split; [reflexivity|]. split; [|reflexivity]. reflexivity.
      * eexists. split; [reflexivity|]. split; [|reflexivity]. reflexivity.
  - eexists. split; [reflexivity|]. split; [|reflexivity]. reflexivity.
Qed.

Lemma decrypt_one_eq userId key msg w :
  exists w',
    decrypt_one userId key msg w = (Return (decrypted_view userId key msg), w')
    /\ same_state w w'.
Proof.
  unfold decrypt_one, decrypted_view, try_catch.
  destruct (String.eqb (receiver_id msg) userId).
  - unfold bind. destruct (decryptMessage_returns (content msg) key w)
      as (w' & E & S). rewrite E. exists w'. split; [reflexivity|assumption].
  - destruct (String.eqb (sender_id msg) userId);
      exists w; (split; [reflexivity|apply same_state_refl]).
Qed.

Lemma mapM_decrypt_one userId key msgs w :
  exists w',
    mapM (decrypt_one userId key) msgs w
    = (Return (map (decrypted_view userId key) msgs), w')
    /\ same_state w w'.
Proof.
  revert w. induction msgs as [|m msgs IH]; intros w.
  - exists w. split; [reflexivity|apply same_state_refl].
  - cbn [mapM map]. unfold bind at 1.
    destruct (decrypt_one_eq userId key m w) as (w1 & E1 & S1). rewrite E1.
    unfold bind at 1. destruct (IH w1) as (w2 & E2 & S2). rewrite E2.
    exists w2. split; [reflexivity|]. eapply same_state_trans; eassumption.
Qed.

(** What [getMessages] returns for the rows the query gave. *)
Lemma getMessages_eq params w r msgs :
  buildMessageQuery
    (mkMessageQueryParams (userId params) (otherUserId params) (listingId params))
    (database w) = Return r ->
  error r = None -> data r = Some msgs ->
  exists w',
    getMessages params w =
      (Return
         (match privateKey params with
          | Some (c :: key) => map (decrypted_view (userId params) (c :: key)) msgs
          | _ => msgs
          end), w').
Proof.
  intros Q He Hd. unfold getMessages, try_catch. unfold bind at 1.
  destruct (dbLogger_write_eq LInfo "Fetching messages" w) as (w1 & E1 & [_ D1]).
  rewrite E1. unfold bind at 1, read_database. rewrite D1, Q, He, Hd.
  destruct (privateKey params) as [[|c key]|].
  - eexists. reflexivity.
  - destruct msgs as [|m msgs]; [eexists; reflexivity|].
    unfold bind at 1. unfold dbLogger_write at 1. unfold bind at 1.
    match goal with |- context [mapM ?f ?l ?w0] =>
      destruct (mapM_decrypt_one (userId params) (c :: key) l w0) as (w2 & E2 & _)
    end.
    rewrite E2. eexists. reflexivity.
  - eexists. reflexivity.
Qed.

(** C9, amended.  [getMessages] returns one message per row fetched, in
    order; a row whose receiver is not the current user (so every row the
    user sent to someone else) is returned unchanged, and with a private
    key a row whose receiver is the current user is returned with its
    content replaced by what [decryptMessage] resolves to.  A row the user
    sent to themselves is such a row. *)
Theorem getMessages_passthrough params w r msgs :
  buildMessageQuery
    (mkMessageQueryParams (userId params) (otherUserId params) (listingId params))
    (database w) = Return r ->
  error r = None -> data r = Some msgs ->
  exists out w',
    getMessages params w = (Return out, w') /\
    out = match MessageService.privateKey params with
          | Some (c :: key) => map (decrypted_view (userId params) (c :: key)) msgs
          | _ => msgs
          end /\
    List.length out = List.length msgs /\
    forall i m,
      nth_error msgs i = Some m ->
      receiver_id m <> userId params ->
      nth_error out i = Some m.
Proof.
  intros Q He Hd.
  destruct (getMessages_eq params w r msgs Q He Hd) as (w' & E).
  eexists. exists w'. split; [exact E|]. split; [reflexivity|].
  destruct (MessageService.privateKey params) as [[|c key]|].
  - split; [reflexivity|]. auto.
  - split; [apply length_map|]. intros i m Hm Hr.
    rewrite nth_error_map, Hm. cbn [option_map]. unfold decrypted_view.
    apply String.eqb_neq in Hr. now rewrite Hr.
  - split; [reflexivity|]. auto.
Qed.

Lemma last_message_of_eq userId privateKey m w :
  exists w',
    last_message_of userId privateKey m w
    = (Return (preview_text userId privateKey m), w') /\ same_state w w'.
Proof.
  unfold last_message_of, preview_text.
  destruct privateKey as [[|c key]|];
    try (destruct (looksEncrypted (content m));
         exists w; (split; [reflexivity|apply same_state_refl])).
  destruct (String.eqb (receiver_id m) userId).
  - unfold try_catch.
    destruct (decryptMessage_returns (content m) (c :: key) w) as (w' & E & S).
    rewrite E. exists w'. auto.
  - destruct (looksEncrypted (content m));
      exists w; (split; [reflexivity|apply same_state_refl]).
Qed.

Lemma add_message_eq userId privateKey cm m w :
  exists w',
    add_message userId privateKey cm m w
    = (Return (add_to_map userId privateKey cm m), w') /\ same_state w w'.
Proof.
  unfold add_message, add_to_map. unfold bind.
  destruct (last_message_of_eq userId privateKey m w) as (w' & E & S).
  rewrite E. exists w'. split; [|assumption].
  fold (partner_of userId m). fold (key_of userId m).
  destruct (negb (map_has (key_of userId m) cm)); reflexivity.
Qed.

Lemma foldM_add_message userId privateKey msgs cm w :
  exists w',
    foldM (add_message userId privateKey) cm msgs w
    = (Return (fold_left (add_to_map userId privateKey) msgs cm), w')
    /\ same_state w w'.
Proof.
  revert cm w. induction msgs as [|m msgs IH]; intros cm w.
  - exists w. split; [reflexivity|apply same_state_refl].
  - cbn [foldM fold_left]. unfold bind.
    destruct (add_message_eq userId privateKey cm m w) as (w1 & E1 & S1).
    rewrite E1. destruct (IH (add_to_map userId privateKey cm m) w1)
      as (w2 & E2 & S2).
    exists w2. split; [assumption|]. eapply same_state_trans; eassumption.
Qed.

Lemma find_app_first {A} (f : A -> bool) l l' :
  find f (l ++ l') = match find f l with Some x => Some x | None => find f l' end.
Proof.
  induction l as [|x l IH]; [reflexivity|]. cbn. now destruct (f x).
Qed.

Lemma map_has_app k cm cm' : map_has k (cm ++ cm') = map_has k cm || map_has k cm'.
Proof. apply existsb_app. Qed.

Lemma map_has_update k k' f cm : map_has k (map_update k' f cm) = map_has k cm.
Proof.
  unfold map_has, map_update. induction cm as [|[k0 c0] cm IH]; [reflexivity|].
  cbn [map existsb fst snd]. rewrite IH. f_equal.
  now destruct (String.eqb k0 k').
Qed.

Lemma in_map_update k c k' f cm :
  In (k, c) (map_update k' f cm) ->
  exists c0, In (k, c0) cm /\ (c = c0 \/ c = f c0).
Proof.
  unfold map_update. intros H. apply in_map_iff in H as [[k0 c0] [E H]].
  cbn [fst snd] in E. destruct (String.eqb k0 k'); injection E as <- <-; eauto.
Qed.

Lemma previews_first_step userId privateKey seen cm m :
  previews_first userId privateKey seen cm ->
  previews_first userId privateKey (seen ++ [m])
    (add_to_map userId privateKey cm m).
Proof.
  intros [I1 I2]. unfold add_to_map.
  destruct (map_has (key_of userId m) cm) eqn:Hhas; cbn [negb].
  - (* the group is known *)
    assert (Hm : forall k, map_has k cm = false ->
                 String.eqb (key_of userId m) k = false).
    { intros k Hk. destruct (String.eqb_spec (key_of userId m) k); [|reflexivity].
      subst k. congruence. }
    assert (Keep : previews_first userId privateKey (seen ++ [m]) cm).
    { split.
      - intros k c Hin. destruct (I1 k c Hin) as (Hk & m0 & F & L).
        split; [assumption|]. exists m0. unfold first_of_group in *.
        now rewrite find_app_first, F.
      - intros k Hk. unfold first_of_group in *. rewrite find_app_first, (I2 k Hk).
        cbn [find]. now rewrite (Hm k Hk). }
    destruct (String.eqb (receiver_id m) userId && negb (is_read m));
      [|exact Keep].
    destruct Keep as [K1 K2]. split.
    + intros k c Hin. apply in_map_update in Hin as (c0 & Hin & [-> | ->]).
      * now apply K1.
      * destruct (K1 k c0 Hin) as (Hk & m0 & F & L). split; [assumption|].
        exists m0. auto.
    + intros k Hk. rewrite map_has_update in Hk. now apply K2.
  - (* a new group *)
    unfold map_set. rewrite Hhas. split.
    + intros k c Hin. apply in_app_iff in Hin as [Hin | [Hin | []]].
      * destruct (I1 k c Hin) as (Hk & m0 & F & L).
        split; [assumption|]. exists m0. unfold first_of_group in *.
        now rewrite find_app_first, F.
      * injection Hin as <- <-. split; [reflexivity|]. exists m.
        unfold first_of_group in *. rewrite find_app_first, (I2 _ Hhas).
        cbn [find last_message]. now rewrite String.eqb_refl.
    + intros k Hk. rewrite map_has_app in Hk.
      apply orb_false_iff in Hk as [Hk1 Hk2].
      unfold first_of_group in *. rewrite find_app_first, (I2 k Hk1). cbn [find].
      unfold map_has in Hk2. cbn [existsb fst] in Hk2.
      rewrite orb_false_r in Hk2. now rewrite Hk2.
Qed.

Lemma previews_first_fold userId privateKey msgs seen cm :
  previews_first userId privateKey seen cm ->
  previews_first userId privateKey (seen ++ msgs)
    (fold_left (add_to_map userId privateKey) msgs cm).
Proof.
  revert seen cm. induction msgs as [|m msgs IH]; intros seen cm I.
  - now rewrite app_nil_r.
  - cbn [fold_left].
    replace (seen ++ m :: msgs) with ((seen ++ [m]) ++ msgs)
      by now rewrite <- app_assoc.
    apply IH. now apply previews_first_step.
Qed.

Lemma previews_first_nil userId privateKey : previews_first userId privateKey [] [].
Proof. split; [intros k c []|reflexivity]. Qed.

Lemma with_user_info_keeps users conv :
  conversation_key (with_user_info users conv) = conversation_key conv /\
  last_message (with_user_info users conv) = last_message conv.
Proof.
  unfold with_user_info.
  destruct (match users with Some l => _ | None => None end); split; reflexivity.
Qed.

Lemma with_listing_info_keeps listings conv :
  conversation_key (with_listing_info listings conv) = conversation_key conv /\
  last_message (with_listing_info listings conv) = last_message conv.
Proof.
  unfold with_listing_info.
  destruct (match listings with Some l => _ | None => None end); split; reflexivity.
Qed.

(** The conversations [getConversations] returns come from the map the
    loop built, with the same key and preview. *)
Lemma getConversations_inv userId privateKey w r msgs convs w' :
  buildConversationQuery userId (database w) = Return r ->
  error r = None -> data r = Some msgs ->
  getConversations userId privateKey w = (Return convs, w') ->
  forall conv, In conv convs ->
  exists k c,
    In (k, c)
      (fold_left (add_to_map userId privateKey)
         (filter (involves userId) msgs) []) /\
    conversation_key conv = conversation_key c /\
    last_message conv = last_message c.
Proof.
  intros Q He Hd. unfold getConversations, try_catch. unfold bind at 1.
  destruct (dbLogger_write_eq LInfo "Fetching conversations" w)
    as (w1 & E1 & [_ D1]).
  rewrite E1. unfold bind at 1, read_database. rewrite D1, Q, He, Hd.
  fold (involves userId).
  change (fun msg => String.eqb (sender_id msg) userId
                     || String.eqb (receiver_id msg) userId)
    with (involves userId).
  unfold bind at 1.
  destruct (foldM_add_message userId privateKey
              (filter (involves userId) msgs) [] w1) as (w2 & E2 & S2).
  rewrite E2.
  set (cm := fold_left (add_to_map userId privateKey)
               (filter (involves userId) msgs) []).
  set (users := 
    match map user_id (map_values cm) with
    | [] => ret cm
    | _ :: _ => _
    end).
  unfold bind at 1.
  destruct (users w2) as [[cm1|e1] w3] eqn:EU.
  2:{ intros H. injection H as <- _. intros conv []. }
  assert (H1 : forall k c, In (k, c) cm1 -> exists c0, In (k, c0) cm /\
                conversation_key c = conversation_key c0 /\
                last_message c = last_message c0).
  { subst users. destruct (map user_id (map_values cm)).
    - injection EU as <- _. intros k c Hin. exists c. auto.
    - unfold bind, read_database in EU.
      destruct (buildUserSettingsQuery _ (database w2)) as [u|]; [|discriminate].
      injection EU as <- _. intros k c Hin.
      apply in_map_iff in Hin as [[k0 c0] [E Hin]]. cbn [fst snd] in E.
      injection E as <- <-. exists c0. split; [assumption|].
      apply with_user_info_keeps. }
  set (listings :=
    match filter (fun i => negb (String.eqb i "general"))
            (map conversation_listing_id (map_values cm)) with
    | [] => ret cm1
    | _ :: _ => _
    end).
  unfold bind at 1.
  destruct (listings w3) as [[cm2|e2] w4] eqn:EL.
  2:{ intros H. injection H as <- _. intros conv []. }
  assert (H2 : forall k c, In (k, c) cm2 -> exists c0, In (k, c0) cm1 /\
                conversation_key c = conversation_key c0 /\
                last_message c = last_message c0).
  { subst listings.
    destruct (filter _ (map conversation_listing_id (map_values cm))).
    - injection EL as <- _. intros k c Hin. exists c. auto.
    - unfold bind, read_database in EL.
      destruct (buildListingQuery _ (database w3)) as [u|]; [|discriminate].
      injection EL as <- _. intros k c Hin.
      apply in_map_iff in Hin as [[k0 c0] [E Hin]]. cbn [fst snd] in E.
      injection E as <- <-. exists c0. split; [assumption|].
      apply with_listing_info_keeps. }
  unfold bind at 1. unfold dbLogger_write at 1. unfold ret.
  intros H. injection H as <- _. intros conv Hin.
  unfold map_values in Hin. apply in_map_iff in Hin as [[k c2] [<- Hin]].
  destruct (H2 k c2 Hin) as (c1 & Hin1 & K2 & L2).
  destruct (H1 k c1 Hin1) as (c0 & Hin0 & K1 & L1).
  exists k, c0. cbn [snd]. split; [assumption|]. split; congruence.
Qed.

(** The preview of every conversation returned is the preview of the
    first message of its group. *)
Lemma getConversations_previews userId privateKey w r msgs convs w' :
  buildConversationQuery userId (database w) = Return r ->
  error r = None -> data r = Some msgs ->
  getConversations userId privateKey w = (Return convs, w') ->
  forall conv, In conv convs ->
  exists m,
    first_of_group userId (conversation_key conv)
      (filter (involves userId) msgs) = Some m /\
    last_message conv = preview_text userId privateKey m.
Proof.
  intros Q He Hd G conv Hin.
  destruct (getConversations_inv _ _ _ _ _ _ _ Q He Hd G conv Hin)
    as (k & c & Hc & K & L).
  destruct (previews_first_fold userId privateKey
              (filter (involves userId) msgs) [] []
              (previews_first_nil userId privateKey)) as [I1 _].
  cbn [app] in I1. destruct (I1 k c Hc) as (Hk & m & F & Lm).
  exists m. rewrite K, <- Hk, L. auto.
Qed.

(** [getConversations] resolves, whatever the queries do. *)
Lemma getConversations_returns userId privateKey w :
  exists convs w', getConversations userId privateKey w = (Return convs, w').
Proof.
  unfold getConversations, try_catch.
  match goal with |- context [match ?body w with _ => _ end] =>
    destruct (body w) as [[convs|e] w1]
  end.
  - eauto.
  - unfold bind, dbLogger_write, ret. eauto.
Qed.

Lemma unable_is_not_placeholder : UNABLE_TO_DECRYPT <> ENCRYPTED_MESSAGE.
Proof. discriminate. Qed.

(** C10.  With a private key, the [catch] around [decryptMessage] in
    [getConversations] is never entered: the [try] completes as
    [decryptMessage] does, whatever the handler.  So in every conversation
    returned whose first (latest) message the current user received, the
    preview is what [decryptMessage] resolved to: when that message cannot
    be decrypted it is ['[Unable to decrypt message]'], and it is the lock
    placeholder only if the message decrypts to that very text. *)
Theorem conversation_preview_never_placeholder userId c key w r msgs :
  buildConversationQuery userId (database w) = Return r ->
  error r = None -> data r = Some msgs ->
  (forall (message : Message) (handler : exn -> M jsstring) (w0 : World),
     try_catch (decryptMessage (content message) (c :: key)) handler w0
     = decryptMessage (content message) (c :: key) w0) /\
  exists convs w',
    getConversations userId (Some (c :: key)) w = (Return convs, w') /\
    forall conv, In conv convs ->
    exists m,
      first_of_group userId (conversation_key conv)
        (filter (involves userId) msgs) = Some m /\
      (receiver_id m = userId ->
       last_message conv = shown_text (content m) (c :: key) /\
       (forall err,
          decrypted_text (content m) (c :: key) = Throw err ->
          last_message conv = UNABLE_TO_DECRYPT) /\
       (last_message conv = ENCRYPTED_MESSAGE ->
        decrypted_text (content m) (c :: key) = Return ENCRYPTED_MESSAGE)).
Proof.
  intros Q He Hd. split.
  - intros message handler w0. unfold try_catch.
    destruct (decryptMessage_returns (content message) (c :: key) w0)
      as (w1 & E & _).
    now rewrite E.
  - destruct (getConversations_returns userId (Some (c :: key)) w)
      as (convs & w' & G).
    exists convs, w'. split; [assumption|]. intros conv Hin.
    destruct (getConversations_previews _ _ _ _ _ _ _ Q He Hd G conv Hin)
      as (m & F & L).
    exists m. split; [assumption|]. intros Hr.
    unfold preview_text in L. apply String.eqb_eq in Hr. rewrite Hr in L.
    split; [assumption|]. rewrite L. unfold shown_text. split.
    + intros err E. now rewrite E.
    + destruct (decrypted_text (content m) (c :: key)) as [s|e].
      * now intros ->.
      * intros E. now apply unable_is_not_placeholder in E.
Qed.

End ServiceFacts.

(** ** The small platform keeps the laws *)

Section ToyFacts.

Lemma bytes_eqb_refl a : Toy.bytes_eqb a a = true.
Proof.
  induction a as [|x a IH]; [reflexivity|]. cbn.
  rewrite IH, andb_true_r. apply Byte.byte_dec_lb. reflexivity.
Qed.

Lemma firstn_length_app {A} (l1 l2 : list A) n :
  n = List.length l1 -> firstn n (l1 ++ l2) = l1.
Proof.
  intros ->. now rewrite firstn_app, Nat.sub_diag, firstn_all, firstn_O, app_nil_r.
Qed.

Lemma skipn_length_app {A} (l1 l2 : list A) n :
  n = List.length l1 -> skipn n (l1 ++ l2) = l2.
Proof.
  intros ->. now rewrite skipn_app, Nat.sub_diag, skipn_all, skipn_O.
Qed.

Lemma open_sealed_app key m : Toy.open_sealed key (key ++ m) = Return m.
Proof.
  unfold Toy.open_sealed.
  rewrite firstn_length_app, skipn_length_app by reflexivity.
  now rewrite bytes_eqb_refl.
Qed.

Lemma toy_random_length n e : List.length (fst (Toy.random n e)) = n.
Proof. unfold Toy.random. cbn [fst]. now rewrite length_map, length_seq. Qed.

Lemma toy_random_fills : random_fills Toy.platform.
Proof. unfold random_fills. intros n e. apply toy_random_length. Qed.

Lemma toy_rsa_oaep_correct : rsa_oaep_correct Toy.platform.
Proof.
  unfold rsa_oaep_correct. intros e e' pk sk G.
  change (Toy.generateKey modulusLength e = (Return (pk, sk), e')) in G.
  unfold Toy.generateKey in G.
  destruct (Toy.random 8 e) as [k e1] eqn:R. injection G as <- <- <-.
  assert (Hk : List.length k = 8%nat).
  { pose proof (toy_random_length 8 e) as H. now rewrite R in H. }
  exists k, k, k, k. cbn [exportKey_spki exportKey_pkcs8 importKey_spki
    importKey_pkcs8 rsa_oaep_encrypt rsa_oaep_decrypt Toy.platform].
  unfold Toy.importKey. rewrite Hk. cbn [Nat.eqb].
  do 4 (split; [reflexivity|]).
  intros m e2 Hm. exists (k ++ m), e2. unfold Toy.rsa_encrypt.
  apply Nat.leb_le in Hm. rewrite Hm. split; [reflexivity|].
  apply open_sealed_app.
Qed.

Lemma toy_sha256_size : sha256_size Toy.platform.
Proof. unfold sha256_size. intros x. reflexivity. Qed.

Lemma toy_aes_gcm_correct : aes_gcm_correct Toy.platform.
Proof.
  unfold aes_gcm_correct. intros key iv m _ Hiv.
  cbn [aes_gcm_encrypt aes_gcm_decrypt Toy.platform].
  destruct iv as [|b iv]; [discriminate|].
  exists (key ++ (b :: iv) ++ m). split; [reflexivity|].
  unfold Toy.gcm_decrypt. rewrite app_assoc. apply open_sealed_app.
Qed.

Lemma bytes_eqb_eq a b : Toy.bytes_eqb a b = true -> a = b.
Proof.
  revert b. induction a as [|x a IH]; intros [|y b] H; try discriminate;
    [reflexivity|].
  cbn in H. apply andb_true_iff in H as [X H].
  apply Byte.byte_dec_bl in X. subst y. f_equal. now apply IH.
Qed.

Lemma toy_aes_gcm_authentic : aes_gcm_authentic Toy.platform.
Proof.
  unfold aes_gcm_authentic. intros key key' iv m c L L' N.
  cbn [aes_gcm_encrypt aes_gcm_decrypt Toy.platform].
  destruct iv as [|b iv]; [discriminate|].
  unfold Toy.gcm_encrypt, Toy.gcm_decrypt. intros H. injection H as <-.
  unfold Toy.open_sealed.
  destruct (Toy.bytes_eqb _ _) eqn:B; [|eauto].
  exfalso. apply bytes_eqb_eq in B.
  change (key ++ b :: iv ++ m) with (key ++ (b :: iv) ++ m) in B.
  rewrite (app_assoc key (b :: iv) m) in B.
  rewrite firstn_length_app in B by (rewrite !length_app; lia).
  apply app_inv_tail in B. congruence.
Qed.

Lemma toy_rsa_oaep_expands : rsa_oaep_expands Toy.platform.
Proof.
  unfold rsa_oaep_expands. intros raw pk m e c e'.
  cbn [importKey_spki rsa_oaep_encrypt Toy.platform].
  unfold Toy.importKey, Toy.rsa_encrypt.
  destruct (Nat.eqb_spec (List.length raw) 8); [|discriminate].
  intros H. injection H as <-.
  destruct (List.length m <=? payload_limit)%nat; [|discriminate].
  intros H. injection H as <- _. rewrite length_app. lia.
Qed.

Lemma toy_parse_stringify salt iv d :
  Toy.parse (Toy.stringify (Toy.VBlob salt iv d)) = Return (Toy.VBlob salt iv d).
Proof.
  unfold Toy.stringify, Toy.parse. rewrite !Nat2N.id.
  rewrite !map_app, !length_app, !length_map.
  destruct (Nat.leb_spec (List.length salt + List.length iv)
              (List.length salt + (List.length iv + List.length d))); [|lia].
  rewrite (firstn_length_app (map Byte.to_N salt)) by now rewrite length_map.
  rewrite (skipn_length_app (map Byte.to_N salt)) by now rewrite length_map.
  rewrite (firstn_length_app (map Byte.to_N iv)) by now rewrite length_map.
  rewrite app_assoc.
  rewrite (skipn_length_app (map Byte.to_N salt ++ map Byte.to_N iv))
    by now rewrite length_app, !length_map.
  now rewrite !map_byte_of_N_to_N.
Qed.

Lemma toy_json_blob_roundtrip : json_blob_roundtrip Toy.platform.
Proof.
  unfold json_blob_roundtrip. intros salt iv d.
  exists (Toy.VBlob salt iv d), (Toy.VArray salt), (Toy.VArray iv), (Toy.VArray d).
  split; [|repeat split].
  apply toy_parse_stringify.
Qed.

(** After an odd number of turns a function is where its first turn took
    it, when a third turn undoes the second. *)
Lemma iter_settles {A} (f : A -> A) (x : A) (n : N) :
  f (f (f x)) = f x -> N.iter (N.succ (2 * n)) f x = f x.
Proof.
  intros C. rewrite N.iter_succ_r.
  induction n as [|n IH] using N.peano_ind; [reflexivity|].
  replace (2 * N.succ n) with (N.succ (N.succ (2 * n))) by lia.
  rewrite !N.iter_succ, IH. exact C.
Qed.

(** The keys of two passwords under the salt drawn first.  With the
    checksum for a hash, the blocks of PBKDF2 repeat from the second on, so
    the exclusive or of all 100000 is that of the first two. *)
Lemma toy_key_horse :
  deriveKey (P := Toy.platform) (fst (Toy.random 16 0))
    (TextEncoder_encode Scenario.horse) = repeat x80 32.
Proof.
  unfold deriveKey, pbkdf2, pbkdf2_block.
  change (seq 1 ((32 + 32 - 1) / 32)) with [1%nat].
  cbn [flat_map]. rewrite app_nil_r.
  change (iterations - 1) with (N.succ (2 * 49999)).
  rewrite iter_settles by (vm_compute; reflexivity).
  vm_compute. reflexivity.
Qed.

Lemma toy_key_staple :
  deriveKey (P := Toy.platform) (fst (Toy.random 16 0))
    (TextEncoder_encode Scenario.staple) = repeat x00 32.
Proof.
  unfold deriveKey, pbkdf2, pbkdf2_block.
  change (seq 1 ((32 + 32 - 1) / 32)) with [1%nat].
  cbn [flat_map]. rewrite app_nil_r.
  change (iterations - 1) with (N.succ (2 * 49999)).
  rewrite iter_settles by (vm_compute; reflexivity).
  vm_compute. reflexivity.
Qed.

End ToyFacts.

(** ** The statements on concrete inputs *)

Section Runs.

Import Conversations Scenario.

#[local] Existing Instance P0.

(** A key pair, a message, and the message back. *)
Lemma message_roundtrip_witness :
  exists c w3,
    encryptMessage (P := P0) hello (publicKey keys0) world1 = (Return c, w3) /\
    forall w4, fst (decryptMessage c (privateKey keys0) w4) = Return hello.
Proof.
  apply (message_roundtrip (P := P0) toy_rsa_oaep_correct world0 keys0 world1
           hello).
  - reflexivity.
  - reflexivity.
  - reflexivity.
  - vm_compute. lia.
Defined.

(** C1, on the plaintext that is one U+FEFF: three bytes of UTF-8, well
    within the limit, encrypted under the public key of a generated pair;
    [decryptMessage] under the private key resolves to the empty string,
    not to the plaintext, [new TextDecoder()] having taken the three bytes
    for a byte order mark. *)
Lemma message_roundtrip_drops_bom :
  TextEncoder_encode bom_text = [xef; xbb; xbf] /\
  TextDecoder_decode (TextEncoder_encode bom_text) = [] /\
  generateKeyPair (P := P0) world0 = (Return keys0, world1) /\
  exists c w3,
    encryptMessage (P := P0) bom_text (publicKey keys0) world1 = (Return c, w3) /\
    fst (decryptMessage c (privateKey keys0) w3) = Return [] /\
    bom_text <> [].
Proof.
  split; [reflexivity|]. split; [reflexivity|]. split; [reflexivity|].
  eexists. eexists. split; [vm_compute; reflexivity|].
  split; [vm_compute; reflexivity|discriminate].
Qed.

(** A lone surrogate does not come back either. *)
Example message_roundtrip_lone_surrogate :
  exists c w3,
    encryptMessage (P := P0) [55357] (publicKey keys0) world1 = (Return c, w3) /\
    fst (decryptMessage c (privateKey keys0) w3) = Return [REPLACEMENT].
Proof.
  eexists. eexists. split; [vm_compute; reflexivity|].
  vm_compute. reflexivity.
Qed.

(** A private key, a password, and the private key back. *)
Lemma private_key_roundtrip_witness :
  exists blob w1,
    encryptPrivateKey (P := P0) (lit "PRIV") password world0 = (Return blob, w1) /\
    forall w2, fst (decryptPrivateKey blob password w2) = Return (lit "PRIV").
Proof.
  apply (private_key_roundtrip (P := P0) toy_json_blob_roundtrip
           toy_random_fills toy_sha256_size toy_aes_gcm_correct
           (lit "PRIV") password world0).
  reflexivity.
Defined.

(** A string that is no private key: it starts with U+FEFF, [isValidKey]
    rejects it, and what comes back is the string without the U+FEFF. *)
Example protect_text_with_bom :
  isValidKey (Str bom_key) = false /\
  TextDecoder_decode (TextEncoder_encode bom_key) = lit "PRIV" /\
  bom_key <> lit "PRIV" /\
  exists blob w1,
    encryptPrivateKey (P := P0) bom_key password world0 = (Return blob, w1) /\
    forall w2, fst (decryptPrivateKey blob password w2) = Return (lit "PRIV").
Proof.
  split; [reflexivity|]. split; [reflexivity|]. split; [discriminate|].
  apply (private_key_roundtrip_bytes (P := P0) toy_json_blob_roundtrip
           toy_random_fills toy_sha256_size toy_aes_gcm_correct
           bom_key password world0).
Qed.



(** A send to a user who has no row in [user_keys]. *)
Lemma sendMessage_plaintext_fallback_witness :
  exists w',
    insert_content (MessageService.inserted_row send_hello (MessageService.send_content send_hello))
    = MessageService.send_content send_hello /\
    database w'
    = snd (insert_message (MessageService.inserted_row send_hello (MessageService.send_content send_hello))
             (database world0)) /\
    MessageService.sendMessage (P := P0) send_hello world0 =
      (Return
         (match
            fst (insert_message
                   (MessageService.inserted_row send_hello (MessageService.send_content send_hello))
                   (database world0))
          with
          | Return r =>
              match error r, data r with
              | None, Some m => Some (MessageService.set_content m (MessageService.send_content send_hello))
              | _, _ => None
              end
          | Throw _ => None
          end), w').
Proof.
  apply (sendMessage_plaintext_fallback (P := P0) send_hello world0).
  - discriminate.
  - reflexivity.
Defined.

(** The row stored by that send holds the plaintext. *)
Example sendMessage_stores_plaintext :
  Toy.messages (database (snd (MessageService.sendMessage (P := P0) send_hello world0)))
  = [mkMessage "m" "u1" "u2" hello false None "now"].
Proof. reflexivity. Qed.

(** The inbox of u1 read with a key: the row u1 sent is unchanged. *)
Lemma getMessages_passthrough_witness :
  exists out w',
    MessageService.getMessages (P := P0) read_inbox inbox = (Return out, w') /\
    out = map (decrypted_view "u1" (lit "k")) [sent; received] /\
    List.length out = 2%nat /\
    forall i m,
      nth_error [sent; received] i = Some m ->
      receiver_id m <> "u1"%string ->
      nth_error out i = Some m.
Proof.
  apply (getMessages_passthrough (P := P0) read_inbox inbox
           (mkResponse (Some [sent; received]) None) [sent; received]).
  - reflexivity.
  - reflexivity.
  - reflexivity.
Defined.

(** C9 as stated fails on a row the user sent to themselves: the user is
    its sender, and with a private key its content is replaced by what
    [decryptMessage] resolves to. *)
Lemma getMessages_self_message_counterexample :
  sender_id to_self = MessageService.userId read_notes /\
  content to_self <> UNABLE_TO_DECRYPT /\
  exists w',
    MessageService.getMessages (P := P0) read_notes notes
    = (Return [MessageService.set_content to_self UNABLE_TO_DECRYPT], w').
Proof.
  split; [reflexivity|]. split; [discriminate|].
  eexists. vm_compute. reflexivity.
Qed.

(** The conversations of u1, whose latest message from u2 cannot be
    decrypted. *)
Lemma conversation_preview_witness :
  (forall (message : Message) (handler : exn -> M jsstring) (w0 : World),
     try_catch (decryptMessage (P := P0) (content message) (lit "k")) handler w0
     = decryptMessage (content message) (lit "k") w0) /\
  exists convs w',
    MessageService.getConversations (P := P0) "u1" (Some (lit "k")) inbox = (Return convs, w') /\
    forall conv, In conv convs ->
    exists m,
      first_of_group "u1" (conversation_key conv)
        (filter (involves "u1") [received; sent]) = Some m /\
      (receiver_id m = "u1"%string ->
       MessageService.last_message conv = shown_text (content m) (lit "k") /\
       (forall err,
          decrypted_text (content m) (lit "k") = Throw err ->
          MessageService.last_message conv = UNABLE_TO_DECRYPT) /\
       (MessageService.last_message conv = MessageService.ENCRYPTED_MESSAGE ->
        decrypted_text (content m) (lit "k") = Return MessageService.ENCRYPTED_MESSAGE)).
Proof.
  apply (conversation_preview_never_placeholder (P := P0) "u1" 107 [] inbox
           (mkResponse (Some [received; sent]) None) [received; sent]).
  - reflexivity.
  - reflexivity.
  - reflexivity.
Defined.

(** That conversation, as returned. *)
Example conversation_preview_run :
  fst (MessageService.getConversations (P := P0) "u1" (Some (lit "k")) inbox)
  = Return [MessageService.mkConversation "u2" "" None "general" "" UNABLE_TO_DECRYPT
              "2024-01-02" 1].
Proof. reflexivity. Qed.

End Runs.

(** ** The two base64 helpers *)

Section Base64Helpers.

Import MessageService.

Lemma length_base64_encode octets :
  List.length (base64_encode octets) = (4 * ((List.length octets + 2) / 3))%nat.
Proof.
  induction octets as [| a | a b | a b c l IH] using list_ind3;
    try reflexivity.
  cbn [base64_encode List.length]. rewrite IH.
  replace (S (S (S (List.length l))) + 2)%nat
    with (List.length l + 2 + 1 * 3)%nat by lia.
  rewrite Nat.div_add by lia. lia.
Qed.

Lemma is_base64_char_b64_char n :
  is_base64_char (b64_char n) = true /\ b64_char n < 128.
Proof.
  pose proof (b64_char_range n) as H. cbv zeta in H.
  unfold is_base64_char.
  destruct H as [H | [H | [H | [H | H]]]].
  - rewrite b64_index_upper by assumption. split; [reflexivity|lia].
  - rewrite b64_index_lower by assumption. split; [reflexivity|lia].
  - rewrite b64_index_digit by assumption. split; [reflexivity|lia].
  - rewrite H. split; [reflexivity|lia].
  - rewrite H. split; [reflexivity|lia].
Qed.

Lemma base64_encode_chars octets :
  Forall (fun c => is_base64_char c = true /\ c < 128) (base64_encode octets).
Proof.
  rewrite encode_split. apply Forall_app. split.
  - apply Forall_forall. intros c Hc. apply in_map_iff in Hc as [n [<- _]].
    apply is_base64_char_b64_char.
  - destruct (padding_cases octets) as [-> | [-> | ->]];
      repeat constructor; cbn; lia.
Qed.

Lemma base64_encode_ascii octets :
  Forall (fun c => c < 128) (base64_encode octets).
Proof.
  eapply Forall_impl; [|apply base64_encode_chars]. cbn. intros c [_ H]. exact H.
Qed.

Lemma bytes_bounded (buffer : bytes) :
  Forall (fun b => b < 256) (map Byte.to_N buffer).
Proof.
  apply Forall_forall. intros c Hc. apply in_map_iff in Hc as [b [<- _]].
  pose proof (Byte.to_N_bounded b). lia.
Qed.

(** X1.  [arrayBufferToBase64] never throws, its result has four
    characters for every three bytes (the last group padded), and
    [base64ToArrayBuffer] gives the bytes back. *)
Theorem arrayBuffer_base64_roundtrip (buffer : bytes) :
  exists base64,
    arrayBufferToBase64 buffer = Return base64 /\
    List.length base64 = (4 * ((List.length buffer + 2) / 3))%nat /\
    base64ToArrayBuffer base64 = Return buffer.
Proof.
  exists (base64_encode (map Byte.to_N buffer)).
  split; [apply arrayBufferToBase64_returns|]. split.
  - now rewrite length_base64_encode, length_map.
  - apply base64ToArrayBuffer_encode.
Qed.

End Base64Helpers.

(** ** encryptMessage *)

Section EncryptMessageFacts.

Import MessageService.

Context {P : Platform}.

Lemma encryptMessage_eq plaintext key w :
  encryptMessage plaintext key w =
    match encrypted_text plaintext key (entropy w) with
    | (Return c, e) => (Return c, drawn w e)
    | (Throw err, e) =>
        (Throw (Error "Failed to encrypt message"),
         logged (drawn w e) (mkLog LError "Encryption failed:" (Some err)))
    end.
Proof.
  unfold encryptMessage, encrypted_text, try_catch, bind, lift,
    with_entropy_outcome, console_error, write_log, throw, logged, drawn.
  destruct w as [e0 c0 d0]. cbn [entropy console database].
  destruct (base64ToArrayBuffer key) as [kb|e1]; [|reflexivity].
  destruct (importKey_spki kb) as [pk|e2]; [|reflexivity].
  destruct (rsa_oaep_encrypt pk (TextEncoder_encode plaintext) e0)
    as [[ct|e3] e']; [|reflexivity].
  rewrite arrayBufferToBase64_returns. reflexivity.
Qed.

(** What [encrypted_text] returns is the base64 of a ciphertext. *)
Lemma encrypted_text_inv plaintext key e c e' :
  encrypted_text plaintext key e = (Return c, e') ->
  exists ct : bytes, c = base64_encode (map Byte.to_N ct).
Proof.
  unfold encrypted_text.
  destruct (base64ToArrayBuffer key) as [kb|e1]; [|discriminate].
  destruct (importKey_spki kb) as [pk|e2]; [|discriminate].
  destruct (rsa_oaep_encrypt pk (TextEncoder_encode plaintext) e)
    as [[ct|e3] e0]; [|discriminate].
  rewrite arrayBufferToBase64_returns. intros H. injection H as <- _.
  now exists ct.
Qed.

Lemma length_utf8_encode_scalar cp :
  (1 <= List.length (utf8_encode_scalar cp))%nat /\
  (65536 <= cp -> List.length (utf8_encode_scalar cp) = 4%nat).
Proof.
  unfold utf8_encode_scalar.
  destruct (N.leb_spec cp 127); [cbn; split; [lia|lia]|].
  destruct (N.leb_spec cp 2047); [cbn; split; [lia|lia]|].
  destruct (N.leb_spec cp 65535); cbn; split; lia.
Qed.

(** A string has at most as many code units as its UTF-8 encoding has
    bytes. *)
Lemma length_TextEncoder_encode s :
  (List.length s <= List.length (TextEncoder_encode s))%nat.
Proof.
  unfold TextEncoder_encode.
  induction s as [|c|c d rest IH0 IH1] using list_ind2.
  - cbn. lia.
  - cbn [scalar_values]. destruct (is_lead c); [cbn; lia|].
    destruct (is_trail c); cbn [flat_map]; rewrite length_app;
      match goal with |- context [utf8_encode_scalar ?x] =>
        pose proof (proj1 (length_utf8_encode_scalar x)) end;
      cbn [List.length scalar_values flat_map] in *; lia.
  - destruct (is_lead c) eqn:L.
    + destruct (is_trail d) eqn:T.
      * rewrite scalar_values_pair by assumption. cbn [flat_map].
        rewrite length_app.
        match goal with |- context [utf8_encode_scalar ?x] =>
          pose proof (proj2 (length_utf8_encode_scalar x)) as H end.
        rewrite H by lia. cbn [List.length]. lia.
      * assert (E : scalar_values (c :: d :: rest)
                    = REPLACEMENT :: scalar_values (d :: rest)).
        { change (scalar_values (c :: d :: rest))
            with (if is_lead c
                  then if is_trail d
                       then (65536 + (c - 55296) * 1024 + (d - 56320))
                            :: scalar_values rest
                       else REPLACEMENT :: scalar_values (d :: rest)
                  else if is_trail c then REPLACEMENT :: scalar_values (d :: rest)
                       else c :: scalar_values (d :: rest)).
          now rewrite L, T. }
        rewrite E. cbn [flat_map].
        rewrite length_app. cbn [List.length] in *.
        pose proof (proj1 (length_utf8_encode_scalar REPLACEMENT)). lia.
    + rewrite scalar_values_nonlead by assumption. cbn [flat_map].
      rewrite length_app. cbn [List.length] in *.
      match goal with |- context [utf8_encode_scalar ?x] =>
        pose proof (proj1 (length_utf8_encode_scalar x)) end. lia.
Qed.

Lemma length_base64_encode_le octets :
  (List.length octets <= List.length (base64_encode octets))%nat.
Proof.
  rewrite length_base64_encode.
  pose proof (Nat.div_mod_eq (List.length octets + 2) 3) as E.
  pose proof (Nat.mod_upper_bound (List.length octets + 2) 3). lia.
Qed.

Lemma encrypted_text_rsa plaintext key e c e' :
  encrypted_text plaintext key e = (Return c, e') ->
  exists raw pk ct,
    importKey_spki raw = Return pk /\
    rsa_oaep_encrypt pk (TextEncoder_encode plaintext) e = (Return ct, e') /\
    c = base64_encode (map Byte.to_N ct).
Proof.
  unfold encrypted_text.
  destruct (base64ToArrayBuffer key) as [kb|e1]; [|discriminate].
  destruct (importKey_spki kb) as [pk|e2] eqn:I; [|discriminate].
  destruct (rsa_oaep_encrypt pk (TextEncoder_encode plaintext) e)
    as [[ct|e3] e0] eqn:R; [|discriminate].
  rewrite arrayBufferToBase64_returns. intros H. injection H as <- <-.
  now exists kb, pk, ct.
Qed.

(** Under [rsa_oaep_expands] a ciphertext has more characters than the
    plaintext has code units. *)
Lemma ciphertext_longer plaintext key e c e' :
  rsa_oaep_expands P ->
  encrypted_text plaintext key e = (Return c, e') ->
  (List.length plaintext < List.length c)%nat.
Proof.
  intros X H. apply encrypted_text_rsa in H as (raw & pk & ct & I & R & ->).
  pose proof (X raw pk _ e ct e' I R) as L.
  pose proof (length_TextEncoder_encode plaintext).
  pose proof (length_base64_encode_le (map Byte.to_N ct)) as B.
  rewrite length_map in B. lia.
Qed.

Lemma looksEncrypted_base64 c :
  forallb is_base64_char c = true ->
  looksEncrypted c = (100 <? List.length c)%nat.
Proof.
  intros H. unfold looksEncrypted. rewrite H. cbn [andb].
  destruct (Nat.ltb_spec 100 (List.length c)) as [L|L].
  - destruct (Nat.eqb_spec (List.length c) 0); [lia|].
    destruct (Nat.ltb_spec (List.length c) 50); [lia|]. reflexivity.
  - destruct (Nat.eqb_spec (List.length c) 0); [reflexivity|].
    destruct (Nat.ltb_spec (List.length c) 50); reflexivity.
Qed.

(** X2.  [encryptMessage] either resolves, having changed nothing but the
    random source, or rejects with the one error ['Failed to encrypt
    message'] after one [console.error] that carries the cause; a public
    key that [atob] rejects is such a cause, and then nothing is drawn from
    the random source.  The tables are never touched. *)
Theorem encryptMessage_sole_error (plaintext key : jsstring) (w : World) :
  ((exists c e, encryptMessage plaintext key w = (Return c, drawn w e)) \/
   (exists err e,
      encryptMessage plaintext key w =
        (Throw (Error "Failed to encrypt message"),
         logged (drawn w e) (mkLog LError "Encryption failed:" (Some err)))))
  /\
  (forall err,
     atob key = Throw err ->
     encryptMessage plaintext key w =
       (Throw (Error "Failed to encrypt message"),
        logged w (mkLog LError "Encryption failed:" (Some err)))).
Proof.
  split.
  - rewrite encryptMessage_eq.
    destruct (encrypted_text plaintext key (entropy w)) as [[c|err] e]; eauto.
  - intros err A. rewrite encryptMessage_eq. unfold encrypted_text,
      base64ToArrayBuffer. rewrite A. destruct w; reflexivity.
Qed.

(** X3.  A ciphertext [encryptMessage] returns is made of base64
    characters only, in groups of four, and [atob] decodes it; so
    [looksEncrypted] takes it for a ciphertext exactly when it is longer
    than 100 characters. *)
Theorem encryptMessage_output_base64 (plaintext key c : jsstring) (w w' : World) :
  encryptMessage plaintext key w = (Return c, w') ->
  forallb is_base64_char c = true /\
  (List.length c mod 4 = 0)%nat /\
  (exists binary, atob c = Return binary) /\
  looksEncrypted c = (100 <? List.length c)%nat.
Proof.
  rewrite encryptMessage_eq.
  destruct (encrypted_text plaintext key (entropy w)) as [[c0|err] e] eqn:E;
    [|discriminate].
  intros H. injection H as <- _.
  apply encrypted_text_inv in E as [ct ->].
  assert (B : forallb is_base64_char (base64_encode (map Byte.to_N ct)) = true).
  { apply forallb_forall. intros x Hx.
    pose proof (base64_encode_chars (map Byte.to_N ct)) as F.
    rewrite Forall_forall in F. now apply F. }
  split; [exact B|]. split; [apply length_encode|]. split.
  - exists (map Byte.to_N ct). unfold atob.
    now rewrite base64_decode_encode by apply bytes_bounded.
  - now apply looksEncrypted_base64.
Qed.

End EncryptMessageFacts.

Section LooksEncrypted.

Import MessageService.

Lemma is_base64_char_iff c :
  is_base64_char c = true <->
  (65 <= c <= 90) \/ (97 <= c <= 122) \/ (48 <= c <= 57) \/
  c = 43 \/ c = 47 \/ c = 61.
Proof.
  unfold is_base64_char, b64_index, equals_sign.
  destruct (N.leb_spec 65 c), (N.leb_spec c 90); cbn [andb];
    try (split; [intros _|reflexivity]; lia);
  destruct (N.leb_spec 97 c), (N.leb_spec c 122); cbn [andb];
    try (split; [intros _|reflexivity]; lia);
  destruct (N.leb_spec 48 c), (N.leb_spec c 57); cbn [andb];
    try (split; [intros _|reflexivity]; lia);
  destruct (N.eqb_spec c 43); try (split; [intros _|reflexivity]; lia);
  destruct (N.eqb_spec c 47); try (split; [intros _|reflexivity]; lia);
  destruct (N.eqb_spec c 61); split; try discriminate; try reflexivity; lia.
Qed.

(** X28.  [looksEncrypted] is true exactly for the strings of more than
    100 characters that are all letters, digits, [+], [/] or [=]; its
    first test, on a length under 50, decides nothing.  So a plaintext of
    at most 100 characters is never taken for a ciphertext, and one of 101
    letters is. *)
Theorem looksEncrypted_exact (content : jsstring) :
  looksEncrypted content = true <->
  (100 < List.length content)%nat /\
  forall c, In c content ->
    (65 <= c <= 90) \/ (97 <= c <= 122) \/ (48 <= c <= 57) \/
    c = 43 \/ c = 47 \/ c = 61.
Proof.
  unfold looksEncrypted.
  destruct (Nat.eqb_spec (List.length content) 0) as [L0|L0]; cbn [orb].
  - split; [discriminate|]. intros [L _]. lia.
  - destruct (Nat.ltb_spec (List.length content) 50) as [L50|L50].
    + split; [discriminate|]. intros [L _]. lia.
    + rewrite andb_true_iff, forallb_forall. split.
      * intros [F L]. apply Nat.ltb_lt in L. split; [assumption|].
        intros c Hc. apply is_base64_char_iff. now apply F.
      * intros [L F]. split; [|now apply Nat.ltb_lt].
        intros c Hc. apply is_base64_char_iff. now apply F.
Qed.

Example looksEncrypted_letters :
  looksEncrypted (repeat 97 101) = true /\ looksEncrypted (repeat 97 100) = false.
Proof. split; reflexivity. Qed.

End LooksEncrypted.

(** ** Generated keys *)

Section GeneratedKeys.

Context {P : Platform}.

Lemma isValidKey_base64 (buffer : bytes) :
  buffer <> [] ->
  isValidKey (Str (base64_encode (map Byte.to_N buffer))) = true.
Proof.
  intros Hb. destruct buffer as [|b buffer]; [contradiction|].
  assert (E : atob (base64_encode (map Byte.to_N (b :: buffer)))
              = Return (map Byte.to_N (b :: buffer))).
  { unfold atob. now rewrite base64_decode_encode by apply bytes_bounded. }
  destruct (base64_encode (map Byte.to_N (b :: buffer))) as [|c s] eqn:B.
  - apply (f_equal (@List.length N)) in B.
    rewrite length_base64_encode in B. cbn [map List.length] in B.
    assert (1 <= (S (List.length (map Byte.to_N buffer)) + 2) / 3)%nat.
    { apply Nat.div_le_lower_bound; lia. }
    lia.
  - cbn [isValidKey]. now rewrite E.
Qed.

(** Both keys of a generated pair are base64 text of exported bytes. *)
Lemma generateKeyPair_base64 w K w1 :
  generateKeyPair w = (Return K, w1) ->
  exists spki pkcs8 : bytes,
    publicKey K = base64_encode (map Byte.to_N spki) /\
    privateKey K = base64_encode (map Byte.to_N pkcs8).
Proof.
  intros G. apply generateKeyPair_inv in G
    as (pk & sk & e' & spki & pkcs8 & _ & _ & _ & E1 & E2).
  now exists spki, pkcs8.
Qed.

(** X4.  The keys [generateKeyPair] returns pass [isValidKey] when they
    are not empty, so [setKeys] stores the pair whatever the session held:
    afterwards [hasKeys] is true and [useRequireCrypto] returns the pair. *)
Theorem generated_keys_load (w w1 : World) (K : KeyPair) (st : CryptoContext.State) :
  generateKeyPair w = (Return K, w1) ->
  publicKey K <> [] -> privateKey K <> [] ->
  let st' := fst (CryptoContext.setKeys (privateKey K) (publicKey K) st) in
  st' = CryptoContext.mkState (Some (privateKey K)) (Some (publicKey K))
          (CryptoContext.userId st) /\
  CryptoContext.hasKeys st' = true /\
  CryptoContext.useRequireCrypto st'
  = Return (Some (privateKey K), Some (publicKey K)).
Proof.
  intros G Hpub Hpriv st'.
  destruct (generateKeyPair_base64 w K w1 G) as (spki & pkcs8 & E1 & E2).
  assert (V1 : isValidKey (Str (publicKey K)) = true).
  { rewrite E1. apply isValidKey_base64. intros ->. now rewrite E1 in Hpub. }
  assert (V2 : isValidKey (Str (privateKey K)) = true).
  { rewrite E2. apply isValidKey_base64. intros ->. now rewrite E2 in Hpriv. }
  destruct (session_keys_atomic_aux st (privateKey K)
              (publicKey K)) as (E & Hk).
  fold st' in E, Hk. rewrite V1, V2 in E, Hk. cbn [andb orb] in E, Hk.
  split; [exact E|]. split; [exact Hk|].
  unfold CryptoContext.useRequireCrypto. rewrite Hk. cbn [negb]. now rewrite E.
Qed.

Hypothesis json : json_blob_roundtrip P.
Hypothesis random : random_fills P.
Hypothesis sha : sha256_size P.
Hypothesis aes : aes_gcm_correct P.

(** A base64 string survives protection under any password. *)
Lemma protect_base64 (raw : bytes) password w :
  exists blob w1,
    encryptPrivateKey (base64_encode (map Byte.to_N raw)) password w
    = (Return blob, w1) /\
    forall w2,
      fst (decryptPrivateKey blob password w2)
      = Return (base64_encode (map Byte.to_N raw)).
Proof.
  destruct (private_key_roundtrip_bytes json random sha aes
              (base64_encode (map Byte.to_N raw)) password w)
    as (blob & w1 & E & D).
  exists blob, w1. split; [assumption|]. intros w2. rewrite D.
  now rewrite TextDecoder_TextEncoder
    by (first [apply well_formed_ascii | apply starts_with_bom_ascii];
        apply base64_encode_ascii).
Qed.

(** X5.  The private key of a generated pair, protected with
    [encryptPrivateKey] under any password and opened with
    [decryptPrivateKey] under the same password, comes back exactly: a
    generated key is base64 text, which [TextEncoder] and [TextDecoder]
    leave as it is. *)
Theorem generated_key_protect_roundtrip (w w1 w2 : World) (K : KeyPair)
  (password : jsstring) :
  generateKeyPair w = (Return K, w1) ->
  exists blob w3,
    encryptPrivateKey (privateKey K) password w2 = (Return blob, w3) /\
    forall w4,
      fst (decryptPrivateKey blob password w4) = Return (privateKey K).
Proof.
  intros G. destruct (generateKeyPair_base64 w K w1 G) as (spki & pkcs8 & _ & ->).
  apply protect_base64.
Qed.

End GeneratedKeys.

(** ** The key service *)

Section KeyServiceFacts.

Context {P : Platform} {Q : Queries P}.

Lemma getUserKeys_eq userId w :
  exists w',
    KeyService.getUserKeys userId w
    = (Return (user_keys_lookup userId (database w)), w') /\
    same_state w w'.
Proof.
  unfold KeyService.getUserKeys, try_catch, bind, read_database,
    user_keys_lookup, console_error, write_log, ret.
  destruct (select_user_keys userId (database w)) as [r|e].
  - destruct (error r), (data r); eexists; (split; [reflexivity|]);
      split; reflexivity.
  - eexists. split; [reflexivity|]. split; reflexivity.
Qed.

Lemma generateKeyPair_database w r w1 :
  generateKeyPair w = (r, w1) -> database w1 = database w.
Proof.
  unfold generateKeyPair, bind, with_entropy_outcome, lift, ret.
  destruct (rsa_generateKey modulusLength (entropy w)) as [[kp|] e'];
    [|intros H; now injection H as _ <-].
  cbn [fst snd].
  destruct (exportKey_spki (fst kp)); [|intros H; now injection H as _ <-].
  destruct (exportKey_pkcs8 (snd kp)); [|intros H; now injection H as _ <-].
  destruct (arrayBufferToBase64 a); [|intros H; now injection H as _ <-].
  destruct (arrayBufferToBase64 a0); intros H; now injection H as _ <-.
Qed.

Lemma encryptPrivateKey_database privateKey password w r w1 :
  encryptPrivateKey privateKey password w = (r, w1) -> database w1 = database w.
Proof.
  rewrite encryptPrivateKey_eq.
  destruct (getRandomValues 16 (entropy w)) as [salt e1].
  destruct (getRandomValues 12 e1) as [iv e2].
  destruct (aes_gcm_encrypt _ iv _); intros H; now injection H as _ <-.
Qed.

(** The steps of a successful [generateAndStoreUserKeys]. *)
Lemma generateAndStoreUserKeys_inv userId password w keys w' :
  KeyService.generateAndStoreUserKeys userId password w
  = (Return (Some keys), w') ->
  exists K w0 w1 w2 r,
    same_state w w0 /\
    generateKeyPair w0 = (Return K, w1) /\
    encryptPrivateKey (privateKey K) password w1
    = (Return (KeyService.encryptedPrivateKey keys), w2) /\
    database w2 = database w /\
    insert_user_keys
      (mkUserKeysRow userId (publicKey K) (KeyService.encryptedPrivateKey keys))
      (database w)
    = (Return r, database w') /\
    error r = None /\
    keys = KeyService.mkUserKeys userId (publicKey K)
             (KeyService.encryptedPrivateKey keys).
Proof.
  unfold KeyService.generateAndStoreUserKeys, try_catch. unfold bind at 1.
  match goal with |- context [write_log ?l ?t ?d w] =>
    destruct (write_log_eq l t d w) as (w0 & E0 & S0); rewrite E0
  end.
  unfold bind at 1.
  destruct (generateKeyPair w0) as [[K|e] w1] eqn:G.
  2:{ unfold bind, console_error, write_log, ret. discriminate. }
  destruct K as [pub priv]. unfold bind at 1.
  destruct (encryptPrivateKey priv password w1) as [[blob|e] w2] eqn:E.
  2:{ unfold bind, console_error, write_log, ret. discriminate. }
  assert (D2 : database w2 = database w).
  { apply generateKeyPair_database in G. apply encryptPrivateKey_database in E.
    destruct S0 as [_ D0]. congruence. }
  unfold bind at 1, with_database. rewrite D2.
  destruct (insert_user_keys (mkUserKeysRow userId pub blob) (database w))
    as [[r|e] db'] eqn:I.
  2:{ unfold bind, console_error, write_log, ret. discriminate. }
  destruct (error r) as [err|] eqn:Er.
  - unfold bind, write_log, ret. discriminate.
  - unfold bind, write_log, ret. intros H. injection H as <- <-.
    cbn [database KeyService.encryptedPrivateKey privateKey publicKey].
    exists (mkKeyPair pub priv), w0, w1, w2, r.
    cbn [privateKey publicKey]. repeat split; try assumption;
      try reflexivity; apply S0.
Qed.

(** [generateAndStoreUserKeys] resolves. *)
Lemma generateAndStoreUserKeys_returns userId password w :
  exists r w', KeyService.generateAndStoreUserKeys userId password w = (Return r, w').
Proof.
  unfold KeyService.generateAndStoreUserKeys, try_catch.
  match goal with |- context [match ?body w with _ => _ end] =>
    destruct (body w) as [[r|e] w1]
  end.
  - eauto.
  - unfold bind, console_error, write_log, ret. eauto.
Qed.

(** X6.  Of the functions of the key service only [getUserKeysDecrypted]
    can reject, and with one error: ['Failed to decrypt keys - invalid
    password?'].  The lookups resolve without touching the tables or the
    random source; [generateAndStoreUserKeys] and [ensureUserHasKeys]
    resolve too, to [null] when something failed. *)
Theorem key_service_errors (userId : string) (userIds : list string)
  (password : jsstring) (w : World) :
  (exists r w', getPublicKey userId w = (Return r, w') /\ same_state w w') /\
  (exists r w', KeyService.getUserKeys userId w = (Return r, w') /\ same_state w w') /\
  (exists r w', KeyService.getPublicKeys userIds w = (Return r, w') /\ same_state w w') /\
  (exists b w',
     KeyService.hasEncryptionKeys userId w = (Return b, w') /\ same_state w w') /\
  (exists r w',
     KeyService.generateAndStoreUserKeys userId password w = (Return r, w')) /\
  (exists r w', KeyService.ensureUserHasKeys userId password w = (Return r, w')) /\
  ((exists r w', KeyService.getUserKeysDecrypted userId password w = (Return r, w'))
   \/ (exists w',
         KeyService.getUserKeysDecrypted userId password w
         = (Throw KeyService.FAILED_TO_DECRYPT_KEYS, w'))).
Proof.
  split; [|split; [|split; [|split; [|split; [|split]]]]].
  - destruct (getPublicKey_eq userId w) as (w' & E & S). eauto.
  - destruct (getUserKeys_eq userId w) as (w' & E & S). eauto.
  - unfold KeyService.getPublicKeys, try_catch, bind, read_database,
      console_error, write_log, ret.
    destruct (select_public_keys userIds (database w)) as [r|e].
    + destruct (error r), (data r); eexists; eexists; (split; [reflexivity|]);
        split; reflexivity.
    + eexists. eexists. split; [reflexivity|]. split; reflexivity.
  - unfold KeyService.hasEncryptionKeys, try_catch, bind, read_database, ret.
    destruct (select_user_id userId (database w)) as [r|e];
      eexists; eexists; (split; [reflexivity|]); split; reflexivity.
  - apply generateAndStoreUserKeys_returns.
  - unfold KeyService.ensureUserHasKeys, bind.
    destruct (getUserKeys_eq userId w) as (w1 & E & _). rewrite E.
    destruct (user_keys_lookup userId (database w)) as [keys|].
    + unfold ret. eauto.
    + unfold write_log. apply generateAndStoreUserKeys_returns.
  - unfold KeyService.getUserKeysDecrypted, try_catch.
    match goal with |- context [match ?body w with _ => _ end] =>
      destruct (body w) as [[r|e] w1]
    end.
    + left. eauto.
    + right. unfold bind, console_error, write_log, throw. eauto.
Qed.

Hypothesis db : stored_keys_found Q.

(** After a successful [generateAndStoreUserKeys] the lookup finds the
    keys it returned. *)
Lemma generated_keys_found userId password w keys w' :
  KeyService.generateAndStoreUserKeys userId password w
  = (Return (Some keys), w') ->
  user_keys_lookup userId (database w') = Some keys.
Proof.
  intros G. apply generateAndStoreUserKeys_inv in G
    as (K & w0 & w1 & w2 & r & _ & _ & _ & _ & I & Er & Ek).
  pose proof (db _ _ _ _ I Er) as S. cbn [row_user_id] in S.
  unfold user_keys_lookup. rewrite S. cbn [error data].
  cbn [row_user_id row_public_key row_encrypted_private_key]. now rewrite <- Ek.
Qed.

(** X8.  Once [ensureUserHasKeys] has returned keys for a user, every
    later call on the same tables returns the same keys, whatever password
    it is given, and neither generates a key nor writes a row. *)
Theorem ensureUserHasKeys_idempotent (userId : string)
  (password password' : jsstring) (keys : KeyService.UserKeys) (w w1 w2 : World) :
  KeyService.ensureUserHasKeys userId password w = (Return (Some keys), w1) ->
  database w2 = database w1 ->
  exists w3,
    KeyService.ensureUserHasKeys userId password' w2 = (Return (Some keys), w3) /\
    same_state w2 w3.
Proof.
  intros E D.
  assert (L : user_keys_lookup userId (database w1) = Some keys).
  { revert E. unfold KeyService.ensureUserHasKeys, bind.
    destruct (getUserKeys_eq userId w) as (w0 & E0 & [_ D0]). rewrite E0.
    destruct (user_keys_lookup userId (database w)) as [k|] eqn:L0.
    - unfold ret. intros H. injection H as <- <-. now rewrite D0.
    - unfold write_log. apply generated_keys_found. }
  unfold KeyService.ensureUserHasKeys, bind.
  destruct (getUserKeys_eq userId w2) as (w3 & E3 & S3). rewrite E3, D, L.
  exists w3. split; [reflexivity|assumption].
Qed.

Hypothesis json : json_blob_roundtrip P.
Hypothesis random : random_fills P.
Hypothesis sha : sha256_size P.
Hypothesis aes : aes_gcm_correct P.

(** X7.  Sign-up, then login: when [generateAndStoreUserKeys] has stored
    the keys of a user under a password, [getUserKeysDecrypted] with that
    password, on the tables the first call left, resolves to the user's
    public key and to the private key that was generated, which the
    tables hold only in protected form. *)
Theorem signup_login_roundtrip (userId : string) (password : jsstring)
  (keys : KeyService.UserKeys) (w w1 : World) :
  KeyService.generateAndStoreUserKeys userId password w
  = (Return (Some keys), w1) ->
  exists K w0 w0',
    same_state w w0 /\
    generateKeyPair w0 = (Return K, w0') /\
    KeyService.publicKey keys = publicKey K /\
    forall w2, database w2 = database w1 ->
    exists w3,
      KeyService.getUserKeysDecrypted userId password w2
      = (Return (Some (KeyService.mkDecryptedUserKeys userId (publicKey K)
                         (privateKey K))), w3).
Proof.
  intros G. pose proof (generated_keys_found _ _ _ _ _ G) as L.
  apply generateAndStoreUserKeys_inv in G
    as (K & w0 & w0' & w' & r & S0 & G & E & _ & _ & _ & Ek).
  exists K, w0, w0'. split; [assumption|]. split; [assumption|].
  split; [now rewrite Ek|]. intros w2 D.
  unfold KeyService.getUserKeysDecrypted, try_catch. unfold bind at 1.
  destruct (getUserKeys_eq userId w2) as (w3 & E3 & S3). rewrite E3, D, L.
  unfold bind at 1.
  destruct (generateKeyPair_base64 _ _ _ G) as (spki & pkcs8 & _ & Epriv).
  destruct (protect_base64 json random sha aes pkcs8 password w0')
    as (blob & w4 & E4 & D4).
  rewrite <- Epriv in E4, D4. rewrite E in E4. injection E4 as <- <-.
  specialize (D4 w3).
  destruct (decryptPrivateKey (KeyService.encryptedPrivateKey keys) password w3)
    as [[pk|e] w5]; cbn [fst] in D4; [|discriminate].
  injection D4 as ->. unfold bind, write_log, ret. rewrite Ek.
  cbn [KeyService.userId KeyService.publicKey]. eauto.
Qed.

End KeyServiceFacts.

(** ** The map of public keys *)

Section PublicKeysFacts.

Import KeyService.

Context {P : Platform} {Q : Queries P}.

Lemma key_map_get_other k v u m :
  k <> u ->
  key_map_get u (map (fun e => if String.eqb (fst e) k then (k, v) else e) m)
  = key_map_get u m.
Proof.
  intros Hku. unfold key_map_get. induction m as [|[k0 v0] m IH]; [reflexivity|].
  cbn [map find fst]. destruct (String.eqb_spec k0 k) as [->|Hk]; cbn [fst].
  - destruct (String.eqb_spec k u); [contradiction|]. exact IH.
  - destruct (String.eqb k0 u); [reflexivity|]. exact IH.
Qed.

Lemma key_map_get_set k v u m :
  key_map_get u (key_map_set k v m)
  = if String.eqb k u then Some v else key_map_get u m.
Proof.
  unfold key_map_set, key_map_has.
  destruct (existsb (fun e => String.eqb (fst e) k) m) eqn:H.
  - destruct (String.eqb_spec k u) as [<-|Hku];
      [|now apply key_map_get_other].
    unfold key_map_get. induction m as [|[k0 v0] m IH]; [discriminate|].
    cbn [existsb map find fst] in *.
    destruct (String.eqb_spec k0 k) as [->|Hk]; cbn [fst].
    + now rewrite String.eqb_refl.
    + destruct (String.eqb_spec k0 k); [contradiction|]. now apply IH.
  - unfold key_map_get. rewrite find_app_first.
    destruct (find (fun e => String.eqb (fst e) u) m) as [[k0 v0]|] eqn:F.
    + cbn [option_map snd].
      destruct (String.eqb_spec k u) as [->|]; [|reflexivity].
      apply find_some in F as [Hin Hk0]. cbn [fst] in Hk0.
      apply String.eqb_eq in Hk0. subst k0.
      assert (existsb (fun e => String.eqb (fst e) u) m = true).
      { apply existsb_exists. exists (u, v0). split; [assumption|].
        apply String.eqb_refl. }
      congruence.
    + cbn [find fst]. now destruct (String.eqb k u).
Qed.

Lemma key_map_set_keys k v m :
  NoDup (map fst m) -> NoDup (map fst (key_map_set k v m)).
Proof.
  intros N. unfold key_map_set.
  destruct (key_map_has k m) eqn:H.
  - replace (map fst (map (fun e => if String.eqb (fst e) k then (k, v) else e) m))
      with (map fst m); [assumption|].
    rewrite map_map. apply map_ext. intros [k0 v0]. cbn [fst].
    destruct (String.eqb_spec k0 k) as [->|]; reflexivity.
  - rewrite map_app. cbn [map fst]. apply NoDup_app; [assumption|
      repeat constructor; intros []|].
    intros k0 Hin [E0|[]]. subst k0.
    apply in_map_iff in Hin as [[k1 v1] [E Hin]].
    cbn [fst] in E. subst k1.
    assert (key_map_has k m = true); [|congruence].
    apply existsb_exists. exists (k, v1). split; [assumption|].
    apply String.eqb_refl.
Qed.

Lemma fold_key_map_set rows m0 u :
  key_map_get u
    (fold_left (fun keyMap row => key_map_set (fst row) (snd row) keyMap) rows m0)
  = match last_public_key u rows with
    | Some v => Some v
    | None => key_map_get u m0
    end.
Proof.
  revert m0. induction rows as [|[k v] rows IH]; intros m0; [reflexivity|].
  cbn [fold_left fst snd]. rewrite IH, key_map_get_set.
  unfold last_public_key. cbn [rev]. rewrite find_app_first.
  destruct (find (fun r => String.eqb (fst r) u) (rev rows)) as [[k1 v1]|];
    [reflexivity|].
  cbn [find fst]. destruct (String.eqb k u); reflexivity.
Qed.

Lemma fold_key_map_keys rows m0 :
  NoDup (map fst m0) ->
  NoDup (map fst
    (fold_left (fun keyMap row => key_map_set (fst row) (snd row) keyMap) rows m0)).
Proof.
  revert m0. induction rows as [|[k v] rows IH]; intros m0 N; [assumption|].
  cbn [fold_left]. apply IH. now apply key_map_set_keys.
Qed.

(** X9.  When the query gave its rows, the map [getPublicKeys] returns
    has one entry per user among them, and the key of a user is the public
    key of the last row for that user; a user with no row has no entry.
    The tables and the random source are as before. *)
Theorem getPublicKeys_lookup (userIds : list string) (w : World)
  (r : response (list (string * jsstring))) (rows : list (string * jsstring)) :
  select_public_keys userIds (database w) = Return r ->
  error r = None -> data r = Some rows ->
  exists keyMap w',
    getPublicKeys userIds w = (Return keyMap, w') /\
    same_state w w' /\
    NoDup (map fst keyMap) /\
    forall userId, key_map_get userId keyMap = last_public_key userId rows.
Proof.
  intros S He Hd.
  unfold getPublicKeys, try_catch, bind, read_database, ret.
  rewrite S, He, Hd. eexists. exists w. split; [reflexivity|].
  split; [split; reflexivity|]. split.
  - apply fold_key_map_keys. constructor.
  - intros u. rewrite fold_key_map_set.
    now destruct (last_public_key u rows).
Qed.

End PublicKeysFacts.

(** ** Mutations of the message table *)

Section UpdatesFacts.

Import MessageService MessageUpdates.

Context {P : Platform} {Q : Queries P}.

(** A mutation between two lines of the log. *)
Lemma mutation_eq {A} (query : Database -> outcome (response A) * Database)
  (start failed done thrown : string) (w : World) :
  exists w',
    try_catch
      (dbLogger_write LInfo start ;;
       r <- with_database query ;;
       match error r with
       | Some _ => dbLogger_write LError failed ;; ret false
       | None => dbLogger_write LSuccess done ;; ret true
       end)
      (fun error => dbLogger_write LError thrown ;; ret false) w
    = (Return (succeeded (fst (query (database w)))), w') /\
    entropy w' = entropy w /\
    database w' = snd (query (database w)).
Proof.
  unfold try_catch, bind, dbLogger_write, with_database, ret, succeeded.
  cbn [database entropy console].
  destruct (query (database w)) as [[r|e] db']; cbn [fst snd].
  - destruct (error r); eexists; (split; [reflexivity|]); split; reflexivity.
  - eexists. split; [reflexivity|]. split; reflexivity.
Qed.

(** X10.  The three mutations never reject.  Each issues its one query
    and resolves to true exactly when the query returned without an error;
    [markMessagesAsRead] of no message resolves to true without a query
    and without a line in the log. *)
Theorem message_updates_resolve (messageIds : list string) (messageId : string)
  (params : DeleteConversationParams) (w : World) :
  markMessagesAsRead [] w = (Return true, w) /\
  (messageIds <> [] ->
   exists w',
     markMessagesAsRead messageIds w
     = (Return (succeeded (fst (buildMarkAsReadQuery messageIds (database w)))), w')
     /\ database w' = snd (buildMarkAsReadQuery messageIds (database w))) /\
  (exists w',
     deleteMessage messageId w
     = (Return (succeeded (fst (delete_message messageId (database w)))), w')
     /\ database w' = snd (delete_message messageId (database w))) /\
  (exists w',
     let q := mkMessageQueryParams (delete_userId params)
                (delete_otherUserId params) (delete_listingId params) in
     deleteConversation params w
     = (Return (succeeded (fst (buildDeleteMessagesQuery q (database w)))), w')
     /\ database w' = snd (buildDeleteMessagesQuery q (database w))).
Proof.
  split; [reflexivity|]. split; [|split].
  - intros Hne. destruct messageIds as [|i ids]; [contradiction|].
    unfold markMessagesAsRead.
    match goal with |- context [try_catch _ _ w] =>
      destruct (mutation_eq (buildMarkAsReadQuery (i :: ids))
                  "Marking messages as read" "Failed to mark messages as read"
                  "Messages marked as read successfully"
                  "Error in markMessagesAsRead" w) as (w' & E & _ & D)
    end.
    exists w'. split; assumption.
  - unfold deleteMessage.
    destruct (mutation_eq (delete_message messageId)
                "Deleting message" "Failed to delete message"
                "Message deleted successfully" "Error in deleteMessage" w)
      as (w' & E & _ & D).
    exists w'. split; assumption.
  - unfold deleteConversation.
    match goal with |- context [with_database ?q] =>
      destruct (mutation_eq q
                  "Deleting conversation" "Failed to delete conversation"
                  "Conversation deleted successfully"
                  "Error in deleteConversation" w) as (w' & E & _ & D)
    end.
    exists w'. cbv zeta. split; assumption.
Qed.

End UpdatesFacts.

(** ** Sequencing *)

Section MonadFacts.

Context {P : Platform}.

Lemma bind_return {A B} (m : M A) (k : A -> M B) w a w' :
  m w = (Return a, w') -> bind m k w = k a w'.
Proof. intros E. unfold bind. now rewrite E. Qed.

Lemma bind_throw {A B} (m : M A) (k : A -> M B) w e w' :
  m w = (Throw e, w') -> bind m k w = (Throw e, w').
Proof. intros E. unfold bind. now rewrite E. Qed.

Lemma bind_bind {A B C} (m : M A) (k : A -> M B) (k' : B -> M C) w :
  bind (bind m k) k' w = bind m (fun a => bind (k a) k') w.
Proof. unfold bind. destruct (m w) as [[a|e] w']; reflexivity. Qed.

Lemma try_catch_return {A} (body : M A) handler w a w' :
  body w = (Return a, w') -> try_catch body handler w = (Return a, w').
Proof. intros E. unfold try_catch. now rewrite E. Qed.

Lemma try_catch_throw {A} (body : M A) handler w e w' :
  body w = (Throw e, w') -> try_catch body handler w = handler e w'.
Proof. intros E. unfold try_catch. now rewrite E. Qed.

End MonadFacts.

(** ** Sending to a user who has a key *)

Section PairFacts.

Context {P : Platform}.

Hypothesis rsa : rsa_oaep_correct P.

(** [message_roundtrip_bytes] for a pair given by its two keys. *)
Lemma generated_pair_roundtrip w0 w0' pub priv plaintext :
  generateKeyPair w0 = (Return (mkKeyPair pub priv), w0') ->
  (List.length (TextEncoder_encode plaintext) <= payload_limit)%nat ->
  forall w2, exists c w3,
    encryptMessage plaintext pub w2 = (Return c, w3) /\
    decrypted_text c priv
    = Return (TextDecoder_decode (TextEncoder_encode plaintext)).
Proof.
  intros G Hlen w2.
  apply (message_roundtrip_bytes rsa w0 (mkKeyPair pub priv) w0' plaintext G
           Hlen w2).
Qed.

End PairFacts.

Section SendFacts.

Import MessageService Conversations.

Context {P : Platform}.

Lemma enabled_by_default params :
  encryptionEnabled params <> Some false ->
  match encryptionEnabled params with Some b => b | None => true end = true.
Proof. destruct (encryptionEnabled params) as [[|]|]; congruence. Qed.

(** The send when the ciphertext was made. *)
Lemma sendMessage_sealed params w c key ciphertext e :
  encryptionEnabled params <> Some false ->
  public_key_lookup (receiverId params) (database w) = Some (c :: key) ->
  encrypted_text (send_content params) (c :: key) (entropy w)
  = (Return ciphertext, e) ->
  exists w',
    sendMessage params w
    = (Return (sent_message (inserted_row params ciphertext)
                 (send_content params) (database w)), w') /\
    database w'
    = snd (insert_message (inserted_row params ciphertext) (database w)) /\
    entropy w' = e.
Proof.
  intros Hen Hkey Henc. apply enabled_by_default in Hen.
  unfold sendMessage. rewrite Hen.
  destruct (dbLogger_write_eq LInfo "Sending message" w) as (w1 & E1 & [N1 D1]).
  destruct (getPublicKey_eq (receiverId params) w1) as (w2 & E2 & [N2 D2]).
  rewrite D1, Hkey in E2.
  pose proof (encryptMessage_eq (send_content params) (c :: key) w2) as E3.
  rewrite N2, N1, Henc in E3.
  destruct (dbLogger_write_eq LInfo "Message encrypted successfully"
              (drawn w2 e)) as (w4 & E4 & [N4 D4]).
  cbn [drawn entropy database] in N4, D4.
  unfold try_catch.
  erewrite (bind_return _ _ w) by exact E1. cbv beta.
  rewrite bind_bind. erewrite (bind_return _ _ w1) by exact E2. cbv beta iota.
  rewrite bind_bind. erewrite (bind_return _ _ w2) by exact E3. cbv beta.
  rewrite bind_bind. erewrite (bind_return _ _ (drawn w2 e)) by exact E4.
  cbv beta.
  erewrite (bind_return _ _ w4) by reflexivity.
  unfold sent_message. unfold bind at 1, with_database. rewrite D4, D2, D1.
  destruct (insert_message (inserted_row params ciphertext) (database w))
    as [[r|e0] db'] eqn:I; cbn [fst snd].
  - destruct (error r) as [err|].
    + eexists. split; [reflexivity|]. split; [reflexivity|]. exact N4.
    + destruct (data r) as [m|];
        eexists; (split; [reflexivity|]); (split; [reflexivity|]); exact N4.
  - eexists. split; [reflexivity|]. split; [reflexivity|]. exact N4.
Qed.

(** The send when encryption threw. *)
Lemma sendMessage_unsealed params w c key err e :
  encryptionEnabled params <> Some false ->
  public_key_lookup (receiverId params) (database w) = Some (c :: key) ->
  encrypted_text (send_content params) (c :: key) (entropy w) = (Throw err, e) ->
  exists w', sendMessage params w = (Return None, w') /\ database w' = database w.
Proof.
  intros Hen Hkey Henc. apply enabled_by_default in Hen.
  unfold sendMessage. rewrite Hen.
  destruct (dbLogger_write_eq LInfo "Sending message" w) as (w1 & E1 & [N1 D1]).
  destruct (getPublicKey_eq (receiverId params) w1) as (w2 & E2 & [N2 D2]).
  rewrite D1, Hkey in E2.
  pose proof (encryptMessage_eq (send_content params) (c :: key) w2) as E3.
  rewrite N2, N1, Henc in E3.
  unfold try_catch.
  erewrite (bind_return _ _ w) by exact E1. cbv beta.
  rewrite bind_bind. erewrite (bind_return _ _ w1) by exact E2. cbv beta iota.
  rewrite bind_bind. erewrite (bind_throw _ _ w2) by exact E3.
  unfold bind, dbLogger_write, ret. eexists. split; [reflexivity|].
  cbn [database logged drawn]. congruence.
Qed.

(** X11.  With encryption enabled and a public key on file for the
    receiver, [sendMessage] stores the ciphertext [encryptMessage] made and
    resolves to the inserted row with the plaintext put back as its
    content.  An RSA-OAEP ciphertext being longer than its message, the
    stored text has more characters than the plaintext: it is never the
    plaintext.  When encryption fails nothing is inserted and the call
    resolves to [null]: there is no fall-back to plaintext. *)
Theorem sendMessage_encrypted (params : SendMessageParams) (w : World)
  (c : char16) (key : jsstring) :
  rsa_oaep_expands P ->
  encryptionEnabled params <> Some false ->
  public_key_lookup (receiverId params) (database w) = Some (c :: key) ->
  exists w',
    match encrypted_text (send_content params) (c :: key) (entropy w) with
    | (Return ciphertext, e) =>
        let row := inserted_row params ciphertext in
        insert_content row = ciphertext /\
        (List.length (send_content params) < List.length ciphertext)%nat /\
        ciphertext <> send_content params /\
        sendMessage params w
        = (Return (sent_message row (send_content params) (database w)), w') /\
        database w' = snd (insert_message row (database w)) /\
        entropy w' = e
    | (Throw _, e) =>
        sendMessage params w = (Return None, w') /\
        database w' = database w
    end.
Proof.
  intros X Hen Hkey.
  destruct (encrypted_text (send_content params) (c :: key) (entropy w))
    as [[ciphertext|err] e] eqn:Henc.
  - destruct (sendMessage_sealed params w c key ciphertext e Hen Hkey Henc)
      as (w' & S & D & N).
    pose proof (ciphertext_longer _ _ _ _ _ X Henc) as L.
    exists w'. cbv zeta. split; [reflexivity|]. split; [exact L|].
    split; [|auto]. intros E. rewrite E in L. lia.
  - destruct (sendMessage_unsealed params w c key err e Hen Hkey Henc)
      as (w' & S & D).
    exists w'. auto.
Qed.

Hypothesis rsa : rsa_oaep_correct P.

(** X27.  What [sendMessage] stores, [getMessages] shows: for a receiver
    whose public key on file is that of a generated pair, and a plaintext
    within the payload limit that has no unpaired surrogate and does not
    start with U+FEFF, [sendMessage] inserts a row holding a ciphertext,
    and [getMessages], called for the receiver with the private key of the
    pair, returns every fetched row to the receiver that holds this
    ciphertext with the plaintext as its content. *)
Theorem sent_message_readable (params : SendMessageParams) (w w0 w0' : World)
  (pub priv : jsstring) :
  generateKeyPair w0 = (Return (mkKeyPair pub priv), w0') ->
  pub <> [] -> priv <> [] ->
  encryptionEnabled params <> Some false ->
  public_key_lookup (receiverId params) (database w) = Some pub ->
  well_formed (send_content params) = true ->
  starts_with_bom (send_content params) = false ->
  (List.length (TextEncoder_encode (send_content params)) <= payload_limit)%nat ->
  exists ciphertext w',
    sendMessage params w
    = (Return (sent_message (inserted_row params ciphertext)
                 (send_content params) (database w)), w') /\
    database w'
    = snd (insert_message (inserted_row params ciphertext) (database w)) /\
    forall (reader : GetMessagesParams) (wr : World) r msgs,
      userId reader = receiverId params ->
      privateKey reader = Some priv ->
      buildMessageQuery
        (mkMessageQueryParams (userId reader) (otherUserId reader)
           (listingId reader)) (database wr) = Return r ->
      error r = None -> data r = Some msgs ->
      exists out wr',
        getMessages reader wr = (Return out, wr') /\
        List.length out = List.length msgs /\
        forall i row,
          nth_error msgs i = Some row ->
          receiver_id row = receiverId params ->
          content row = ciphertext ->
          nth_error out i = Some (set_content row (send_content params)).
Proof.
  intros G Hpub Hpriv Hen Hkey Hw Hb Hlen.
  destruct (generated_pair_roundtrip rsa w0 w0' pub priv (send_content params)
              G Hlen w) as (ciphertext & w3 & Enc & Dec).
  rewrite TextDecoder_TextEncoder in Dec by assumption.
  rewrite encryptMessage_eq in Enc.
  destruct (encrypted_text (send_content params) pub (entropy w))
    as [[c0|err] e] eqn:Henc; [|discriminate].
  injection Enc as -> _.
  destruct pub as [|c key]; [contradiction|].
  destruct (sendMessage_sealed params w c key ciphertext e Hen Hkey Henc)
    as (w' & S & D & _).
  exists ciphertext, w'. split; [exact S|]. split; [exact D|].
  intros reader wr r msgs Hu Hk Q He Hd.
  destruct (getMessages_eq reader wr r msgs Q He Hd) as (wr' & E).
  rewrite Hk in E. destruct priv as [|k0 sk]; [contradiction|].
  eexists. exists wr'. split; [exact E|]. split; [apply length_map|].
  intros i row Hi Hr Hc. rewrite nth_error_map, Hi. cbn [option_map].
  unfold decrypted_view. rewrite Hu, <- Hr, String.eqb_refl.
  unfold shown_text. now rewrite Hc, Dec.
Qed.

End SendFacts.

(** ** The groups of getConversations *)

Section ConversationGroups.

Import MessageService Conversations.

Context {P : Platform}.

Variable userId : string.
Variable privateKey : option jsstring.

Lemma map_has_in k cm : map_has k cm = true <-> In k (map fst cm).
Proof.
  unfold map_has. rewrite existsb_exists. split.
  - intros ([k0 c0] & Hin & E). cbn [fst] in E. apply String.eqb_eq in E.
    subst k0. apply in_map_iff. now exists (k, c0).
  - intros Hin. apply in_map_iff in Hin as ([k0 c0] & E & Hin). cbn [fst] in E.
    subst k0. exists (k, c0). split; [assumption|apply String.eqb_refl].
Qed.

Lemma map_update_keys k f cm : map fst (map_update k f cm) = map fst cm.
Proof.
  unfold map_update. rewrite map_map. apply map_ext. intros [k0 c0]. cbn [fst].
  now destruct (String.eqb k0 k).
Qed.

Lemma in_map_update_inv k c k' f cm :
  In (k, c) (map_update k' f cm) ->
  exists c0, In (k, c0) cm /\ c = if String.eqb k k' then f c0 else c0.
Proof.
  unfold map_update. intros H. apply in_map_iff in H as [[k0 c0] [E H]].
  cbn [fst snd] in E. destruct (String.eqb k0 k') eqn:Ek;
    injection E as <- <-; exists c0; rewrite Ek; auto.
Qed.

Lemma unread_in_group_snoc k seen m :
  unread_in_group userId k (seen ++ [m])
  = unread_in_group userId k seen
    + (if String.eqb (key_of userId m) k
          && (String.eqb (receiver_id m) userId && negb (is_read m))
       then 1 else 0).
Proof.
  unfold unread_in_group. rewrite filter_app, length_app. cbn [filter].
  destruct (String.eqb (key_of userId m) k
            && (String.eqb (receiver_id m) userId && negb (is_read m)));
    cbn [List.length]; lia.
Qed.

Lemma unread_in_group_none k seen :
  existsb (fun m => String.eqb (key_of userId m) k) seen = false ->
  unread_in_group userId k seen = 0.
Proof.
  intros H. unfold unread_in_group.
  replace (filter _ seen) with (@nil Message); [reflexivity|].
  symmetry. induction seen as [|m seen IH]; [reflexivity|].
  cbn [existsb] in H. apply orb_false_iff in H as [H1 H2].
  cbn [filter]. rewrite H1. cbn [andb]. now apply IH.
Qed.

Lemma groups_counted_step seen cm m :
  groups_counted userId seen cm ->
  groups_counted userId (seen ++ [m]) (add_to_map userId privateKey cm m).
Proof.
  intros (N & I & H). unfold add_to_map.
  set (km := key_of userId m).
  set (unread := String.eqb (receiver_id m) userId && negb (is_read m)).
  assert (Hsnoc : forall k,
            existsb (fun m0 => String.eqb (key_of userId m0) k) (seen ++ [m])
            = existsb (fun m0 => String.eqb (key_of userId m0) k) seen
              || String.eqb km k).
  { intros k. rewrite existsb_app. cbn [existsb]. now rewrite orb_false_r. }
  destruct (map_has km cm) eqn:Hhas; cbn [negb].
  - (* the group is known *)
    assert (Hcount : forall k c, In (k, c) cm ->
              k = conversation_key c /\
              unread_count c + (if String.eqb km k && unread then 1 else 0)
              = unread_in_group userId k (seen ++ [m])).
    { intros k c Hin. destruct (I k c Hin) as [Hk Hc]. split; [assumption|].
      rewrite unread_in_group_snoc. fold km. fold unread. now rewrite Hc. }
    assert (Hmem : forall k, map_has k cm
              = existsb (fun m0 => String.eqb (key_of userId m0) k) (seen ++ [m])).
    { intros k. rewrite Hsnoc, <- H.
      destruct (String.eqb_spec km k) as [<-|]; [now rewrite Hhas|].
      now rewrite orb_false_r. }
    destruct unread eqn:Hu.
    + split; [now rewrite map_update_keys|]. split.
      * intros k c Hin. apply in_map_update_inv in Hin as (c0 & Hin & ->).
        destruct (Hcount k c0 Hin) as [Hk Hc]. rewrite String.eqb_sym in Hc.
        destruct (String.eqb k km); cbn [andb] in Hc.
        -- split; [exact Hk|]. rewrite <- Hc. reflexivity.
        -- split; [exact Hk|]. rewrite <- Hc. lia.
      * intros k. rewrite map_has_update. apply Hmem.
    + split; [assumption|]. split; [|exact Hmem].
      intros k c Hin. destruct (Hcount k c Hin) as [Hk Hc].
      rewrite andb_false_r in Hc. split; [exact Hk|]. rewrite <- Hc. lia.
  - (* a new group *)
    unfold map_set. rewrite Hhas.
    assert (Hnew : ~ In km (map fst cm)).
    { intros Hin. apply map_has_in in Hin. congruence. }
    split; [|split].
    + rewrite map_app. cbn [map fst]. apply NoDup_app; [assumption|
        repeat constructor; intros []|].
      intros k Hin [E|[]]. subst k. contradiction.
    + intros k c Hin. apply in_app_iff in Hin as [Hin | [Hin | []]].
      * destruct (I k c Hin) as [Hk Hc]. split; [assumption|].
        rewrite unread_in_group_snoc. fold km.
        destruct (String.eqb_spec km k) as [<-|].
        -- exfalso. apply Hnew. apply in_map_iff. now exists (km, c).
        -- cbn [andb]. rewrite Hc. lia.
      * injection Hin as <- <-. split; [reflexivity|].
        rewrite unread_in_group_snoc. fold km. fold unread.
        rewrite String.eqb_refl. cbn [andb unread_count].
        rewrite unread_in_group_none by (rewrite <- H; exact Hhas).
        now destruct unread.
    + intros k. rewrite map_has_app, Hsnoc, H. f_equal.
      unfold map_has. cbn [existsb fst]. now rewrite orb_false_r.
Qed.

Lemma groups_counted_fold msgs seen cm :
  groups_counted userId seen cm ->
  groups_counted userId (seen ++ msgs) (fold_left (add_to_map userId privateKey) msgs cm).
Proof.
  revert seen cm. induction msgs as [|m msgs IH]; intros seen cm I.
  - now rewrite app_nil_r.
  - cbn [fold_left].
    replace (seen ++ m :: msgs) with ((seen ++ [m]) ++ msgs)
      by now rewrite <- app_assoc.
    apply IH. now apply groups_counted_step.
Qed.

Lemma groups_counted_all msgs :
  groups_counted userId msgs (fold_left (add_to_map userId privateKey) msgs []).
Proof.
  apply (groups_counted_fold msgs [] []).
  split; [constructor|]. split; [intros k c []|reflexivity].
Qed.

End ConversationGroups.

Section ConversationList.

Import MessageService Conversations.

Context {P : Platform}.

Lemma map_entries_id (cm : conversation_map) :
  map (fun e => (fst e, with_user_info None (snd e))) cm = cm.
Proof.
  rewrite <- (map_id cm) at 2. apply map_ext. now intros [k c].
Qed.

Lemma map_entries_id_listing (cm : conversation_map) :
  map (fun e => (fst e, with_listing_info None (snd e))) cm = cm.
Proof.
  rewrite <- (map_id cm) at 2. apply map_ext. now intros [k c].
Qed.

Lemma values_decorated users listings (cm : conversation_map) :
  map_values
    (map (fun e => (fst e, with_listing_info listings (snd e)))
       (map (fun e => (fst e, with_user_info users (snd e))) cm))
  = map (fun c => with_listing_info listings (with_user_info users c))
      (map_values cm).
Proof.
  unfold map_values. rewrite !map_map. apply map_ext. now intros [k c].
Qed.

(** [getConversations] on the rows the query gave: the conversations of
    the map the loop built, each with the user and listing rows found for
    it, unless one of the two follow-up queries threw. *)
Lemma getConversations_cases userId privateKey w r msgs :
  buildConversationQuery userId (database w) = Return r ->
  error r = None -> data r = Some msgs ->
  let cm := fold_left (add_to_map userId privateKey)
              (filter (involves userId) msgs) [] in
  exists w',
    same_state w w' /\
    ((getConversations userId privateKey w = (Return [], w') /\
      ((exists ids e, buildUserSettingsQuery ids (database w) = Throw e) \/
       (exists ids e, buildListingQuery ids (database w) = Throw e)))
     \/
     (exists users listings,
        getConversations userId privateKey w
        = (Return
             (map (fun c => with_listing_info listings (with_user_info users c))
                (map_values cm)), w'))).
Proof.
  intros Q He Hd cm.
  destruct (dbLogger_write_eq LInfo "Fetching conversations" w)
    as (w1 & E1 & S1).
  assert (E2 : read_database (buildConversationQuery userId) w1 = (Return r, w1)).
  { unfold read_database. destruct S1 as [_ D1]. now rewrite D1, Q. }
  destruct (foldM_add_message userId privateKey
              (filter (involves userId) msgs) [] w1) as (w2 & E3 & S2).
  fold cm in E3.
  assert (S02 : same_state w w2) by (eapply same_state_trans; eassumption).
  unfold getConversations, try_catch.
  erewrite (bind_return _ _ w) by exact E1. cbv beta.
  erewrite (bind_return _ _ w1) by exact E2. cbv beta. rewrite He, Hd.
  erewrite (bind_return _ _ w1) by exact E3. cbv beta zeta.
  (* the user rows *)
  assert (U : (exists ids e,
                 buildUserSettingsQuery ids (database w) = Throw e /\
                 (match map user_id (map_values cm) with
                  | [] => ret cm
                  | _ :: _ =>
                      u <- read_database
                             (buildUserSettingsQuery
                                (map user_id (map_values cm))) ;;
                      ret (map (fun e => (fst e, with_user_info (data u) (snd e)))
                             cm)
                  end) w2 = (Throw e, w2))
              \/
              (exists users,
                 (match map user_id (map_values cm) with
                  | [] => ret cm
                  | _ :: _ =>
                      u <- read_database
                             (buildUserSettingsQuery
                                (map user_id (map_values cm))) ;;
                      ret (map (fun e => (fst e, with_user_info (data u) (snd e)))
                             cm)
                  end) w2
                 = (Return (map (fun e => (fst e, with_user_info users (snd e))) cm),
                    w2))).
  { destruct (map user_id (map_values cm)) as [|i ids] eqn:Ids.
    - right. exists None. now rewrite map_entries_id.
    - unfold bind, read_database. destruct S02 as [_ D]. rewrite D.
      destruct (buildUserSettingsQuery (i :: ids) (database w)) as [u|e] eqn:B.
      + right. exists (data u). reflexivity.
      + left. exists (i :: ids), e. split; [exact B|reflexivity]. }
  destruct U as [(ids & e & B & EU) | (users & EU)].
  { erewrite (bind_throw _ _ w2) by exact EU.
    unfold bind, dbLogger_write, ret. eexists. split; [|left; split;
      [reflexivity|left; eauto]]. split; [apply S02|apply S02]. }
  erewrite (bind_return _ _ w2) by exact EU. cbv beta.
  (* the listing rows *)
  set (cm1 := map (fun e => (fst e, with_user_info users (snd e))) cm).
  set (listingIds := filter (fun i => negb (String.eqb i "general"))
                       (map conversation_listing_id (map_values cm))).
  destruct listingIds as [|i ids] eqn:Ids.
  - erewrite (bind_return _ _ w2) by reflexivity. cbv beta.
    unfold bind, dbLogger_write, ret. eexists.
    split; [|right; exists users, None;
             rewrite <- values_decorated, map_entries_id_listing; reflexivity].
    split; [apply S02|apply S02].
  - destruct S02 as [N D].
    assert (EL : read_database (buildListingQuery (i :: ids)) w2
                 = (buildListingQuery (i :: ids) (database w), w2)).
    { unfold read_database. now rewrite D. }
    rewrite bind_bind.
    destruct (buildListingQuery (i :: ids) (database w)) as [l|e] eqn:B.
    + erewrite (bind_return _ _ w2) by exact EL. cbv beta.
      unfold bind, dbLogger_write, ret. eexists.
      split; [|right; exists users, (data l);
               rewrite <- values_decorated; reflexivity].
      split; [exact N|exact D].
    + erewrite (bind_throw _ _ w2) by exact EL.
      unfold bind, dbLogger_write, ret. eexists.
      split; [|left; split; [reflexivity|right; eauto]].
      split; [exact N|exact D].
Qed.

Lemma decorated_keeps users listings c :
  let c' := with_listing_info listings (with_user_info users c) in
  conversation_key c' = conversation_key c /\
  unread_count c' = unread_count c /\
  last_message_time c' = last_message_time c /\
  user_id c' = user_id c /\
  conversation_listing_id c' = conversation_listing_id c.
Proof.
  cbv zeta. unfold with_listing_info, with_user_info.
  destruct (match users with Some l => _ | None => None end);
    destruct (match listings with Some l => _ | None => None end);
    repeat split; reflexivity.
Qed.

(** X12.  When no query throws, [getConversations] returns one
    conversation per group: no two of the conversations returned have the
    same key, every fetched message that involves the user belongs to one
    of them, and each of them is the group of some fetched message. *)
Theorem conversations_partition (userId : string) (privateKey : option jsstring)
  (w : World) (r : response (list Message)) (msgs : list Message) :
  buildConversationQuery userId (database w) = Return r ->
  error r = None -> data r = Some msgs ->
  (forall ids, exists u, buildUserSettingsQuery ids (database w) = Return u) ->
  (forall ids, exists l, buildListingQuery ids (database w) = Return l) ->
  exists convs w',
    getConversations userId privateKey w = (Return convs, w') /\
    NoDup (map conversation_key convs) /\
    (forall m, In m msgs -> involves userId m = true ->
       In (key_of userId m) (map conversation_key convs)) /\
    (forall conv, In conv convs ->
       exists m, In m msgs /\ involves userId m = true /\
                 key_of userId m = conversation_key conv).
Proof.
  intros Q He Hd HU HL.
  destruct (getConversations_cases userId privateKey w r msgs Q He Hd)
    as (w' & _ & [[_ [(ids & e & B) | (ids & e & B)]] | (users & listings & G)]).
  { destruct (HU ids) as [u Eu]. congruence. }
  { destruct (HL ids) as [l El]. congruence. }
  cbv zeta in G.
  destruct (groups_counted_all userId privateKey (filter (involves userId) msgs))
    as (N & I & H).
  set (cm := fold_left (add_to_map userId privateKey)
               (filter (involves userId) msgs) []) in *.
  assert (K : map conversation_key
                (map (fun c => with_listing_info listings (with_user_info users c))
                   (map_values cm)) = map fst cm).
  { unfold map_values. rewrite !map_map. apply map_ext_in. intros [k c] Hin.
    cbn [fst snd]. destruct (I k c Hin) as [-> _].
    apply (decorated_keeps users listings c). }
  eexists. exists w'. split; [exact G|]. rewrite K. split; [exact N|]. split.
  - intros m Hm Hi. apply map_has_in. rewrite H. apply existsb_exists.
    exists m. split; [|apply String.eqb_refl]. apply filter_In. now split.
  - intros conv Hin. unfold map_values in Hin. rewrite map_map in Hin.
    apply in_map_iff in Hin as ([k c] & <- & Hin). cbn [snd].
    assert (Hk : map_has k cm = true).
    { apply map_has_in. apply in_map_iff. now exists (k, c). }
    rewrite H in Hk. apply existsb_exists in Hk as (m & Hm & E).
    apply filter_In in Hm as [Hm Hi]. apply String.eqb_eq in E.
    exists m. split; [assumption|]. split; [assumption|].
    destruct (I k c Hin) as [-> _]. rewrite E. symmetry.
    apply (decorated_keeps users listings c).
Qed.

(** X13.  The unread count of every conversation [getConversations]
    returns is the number of fetched messages of its group that were sent
    to the user and are not read. *)
Theorem conversations_unread_count (userId : string)
  (privateKey : option jsstring) (w w' : World) (r : response (list Message))
  (msgs : list Message) (convs : list Conversation) :
  buildConversationQuery userId (database w) = Return r ->
  error r = None -> data r = Some msgs ->
  getConversations userId privateKey w = (Return convs, w') ->
  forall conv, In conv convs ->
    unread_count conv
    = unread_in_group userId (conversation_key conv)
        (filter (involves userId) msgs).
Proof.
  intros Q He Hd G conv Hin.
  destruct (getConversations_cases userId privateKey w r msgs Q He Hd)
    as (w0 & _ & [[G0 _] | (users & listings & G0)]).
  { rewrite G0 in G. injection G as <- _. destruct Hin. }
  cbv zeta in G0. rewrite G0 in G. injection G as <- _.
  destruct (groups_counted_all userId privateKey (filter (involves userId) msgs))
    as (_ & I & _).
  unfold map_values in Hin. rewrite map_map in Hin.
  apply in_map_iff in Hin as ([k c] & <- & Hin). cbn [snd].
  destruct (I k c Hin) as [Hk Hc].
  destruct (decorated_keeps users listings c) as (-> & -> & _).
  now rewrite Hc, Hk.
Qed.

Lemma groups_headed_step userId privateKey seen cm m :
  groups_headed userId seen cm ->
  groups_headed userId (seen ++ [m]) (add_to_map userId privateKey cm m).
Proof.
  intros [I1 I2]. unfold add_to_map.
  destruct (map_has (key_of userId m) cm) eqn:Hhas; cbn [negb].
  - assert (Hm : forall k, map_has k cm = false ->
                 String.eqb (key_of userId m) k = false).
    { intros k Hk. destruct (String.eqb_spec (key_of userId m) k); [|reflexivity].
      subst k. congruence. }
    assert (Keep : groups_headed userId (seen ++ [m]) cm).
    { split.
      - intros k c Hin. destruct (I1 k c Hin) as (m0 & F & L).
        exists m0. unfold first_of_group in *.
        now rewrite find_app_first, F.
      - intros k Hk. unfold first_of_group in *. rewrite find_app_first, (I2 k Hk).
        cbn [find]. now rewrite (Hm k Hk). }
    destruct (String.eqb (receiver_id m) userId && negb (is_read m));
      [|exact Keep].
    destruct Keep as [K1 K2]. split.
    + intros k c Hin. apply in_map_update in Hin as (c0 & Hin & [-> | ->]).
      * now apply K1.
      * destruct (K1 k c0 Hin) as (m0 & F & L). exists m0. auto.
    + intros k Hk. rewrite map_has_update in Hk. now apply K2.
  - unfold map_set. rewrite Hhas. split.
    + intros k c Hin. apply in_app_iff in Hin as [Hin | [Hin | []]].
      * destruct (I1 k c Hin) as (m0 & F & L).
        exists m0. unfold first_of_group in *.
        now rewrite find_app_first, F.
      * injection Hin as <- <-. exists m.
        unfold first_of_group in *. rewrite find_app_first, (I2 _ Hhas).
        cbn [find]. rewrite String.eqb_refl. repeat split; reflexivity.
    + intros k Hk. rewrite map_has_app in Hk.
      apply orb_false_iff in Hk as [Hk1 Hk2].
      unfold first_of_group in *. rewrite find_app_first, (I2 k Hk1). cbn [find].
      unfold map_has in Hk2. cbn [existsb fst] in Hk2.
      rewrite orb_false_r in Hk2. now rewrite Hk2.
Qed.

Lemma groups_headed_all userId privateKey msgs :
  groups_headed userId msgs (fold_left (add_to_map userId privateKey) msgs []).
Proof.
  assert (G : forall l seen cm, groups_headed userId seen cm ->
            groups_headed userId (seen ++ l)
              (fold_left (add_to_map userId privateKey) l cm)).
  { induction l as [|m l IH]; intros seen cm I.
    - now rewrite app_nil_r.
    - cbn [fold_left].
      replace (seen ++ m :: l) with ((seen ++ [m]) ++ l)
        by now rewrite <- app_assoc.
      apply IH. now apply groups_headed_step. }
  apply (G msgs [] []). split; [intros k c []|reflexivity].
Qed.

(** X22.  Every conversation [getConversations] returns is headed by the
    first fetched message of its group: the partner is the other party of
    that message, the listing is its listing (["general"] when it has
    none), and the time shown is its [created_at]; later messages of the
    group change the unread count only. *)
Theorem conversations_head (userId : string) (privateKey : option jsstring)
  (w w' : World) (r : response (list Message)) (msgs : list Message)
  (convs : list Conversation) :
  buildConversationQuery userId (database w) = Return r ->
  error r = None -> data r = Some msgs ->
  getConversations userId privateKey w = (Return convs, w') ->
  forall conv, In conv convs ->
  exists m,
    first_of_group userId (conversation_key conv)
      (filter (involves userId) msgs) = Some m /\
    user_id conv = partner_of userId m /\
    conversation_listing_id conv = or_else (listing_id m) "general" /\
    last_message_time conv = created_at m.
Proof.
  intros Q He Hd G conv Hin.
  destruct (getConversations_cases userId privateKey w r msgs Q He Hd)
    as (w0 & _ & [[G0 _] | (users & listings & G0)]).
  { rewrite G0 in G. injection G as <- _. destruct Hin. }
  cbv zeta in G0. rewrite G0 in G. injection G as <- _.
  destruct (groups_headed_all userId privateKey (filter (involves userId) msgs))
    as (I & _).
  destruct (groups_counted_all userId privateKey (filter (involves userId) msgs))
    as (_ & J & _).
  unfold map_values in Hin. rewrite map_map in Hin.
  apply in_map_iff in Hin as ([k c] & <- & Hin). cbn [snd].
  destruct (I k c Hin) as (m & F & Hu & Hl & Ht).
  destruct (J k c Hin) as [Hk _].
  destruct (decorated_keeps users listings c) as (-> & _ & -> & -> & ->).
  exists m. rewrite <- Hk. auto.
Qed.

End ConversationList.

(** ** The subscription *)

Section SubscriptionFacts.

Import MessageService Conversations Subscription.

Context {P : Platform}.

(** The delivery of one row, as both branches of the callback do it. *)
Lemma deliver_eq userId (onMessage : Message -> M unit) privateKey msg
  (warning : string) w :
  (forall w0, exists w0', onMessage (delivered userId privateKey msg) w0
                          = (Return tt, w0')) ->
  exists w1,
    same_state w w1 /\
    (match privateKey, String.eqb (receiver_id msg) userId with
     | Some (c :: key), true =>
         try_catch
           (decryptedContent <- decryptMessage (content msg) (c :: key) ;;
            onMessage (set_content msg decryptedContent))
           (fun error => dbLogger_write LWarn warning ;; onMessage msg)
     | _, _ => onMessage msg
     end) w
    = onMessage (delivered userId privateKey msg) w1.
Proof.
  intros Hon. unfold delivered in *. unfold decrypted_view in *.
  destruct privateKey as [[|c key]|];
    try (exists w; split; [apply same_state_refl|];
         destruct (String.eqb (receiver_id msg) userId); reflexivity).
  destruct (String.eqb (receiver_id msg) userId).
  - destruct (decryptMessage_returns (content msg) (c :: key) w)
      as (w1 & E & S).
    exists w1. split; [assumption|]. destruct (Hon w1) as (w2 & E2).
    rewrite E2. apply try_catch_return.
    erewrite (bind_return _ _ w) by exact E. exact E2.
  - exists w. split; [apply same_state_refl|reflexivity].
Qed.

(** X14.  For an INSERT or UPDATE event on a row that involves the user,
    the callback of [subscribeToMessages] calls [onMessage] once (when
    [onMessage] itself returns), with the row as [getMessages] would return
    it: decrypted when the user is the receiver and a private key was
    given, unchanged otherwise.  The tables and the random source are as
    before. *)
Theorem subscription_delivers (userId : string) (onMessage : Message -> M unit)
  (onError : option (exn -> M unit)) (privateKey : option jsstring)
  (payload : Payload) (w : World) :
  eventType payload = "INSERT"%string \/ eventType payload = "UPDATE"%string ->
  involves userId (payload_new payload) = true ->
  (forall w0, exists w0',
     onMessage (delivered userId privateKey (payload_new payload)) w0
     = (Return tt, w0')) ->
  exists w1,
    same_state w w1 /\
    on_postgres_changes userId onMessage onError privateKey payload w
    = onMessage (delivered userId privateKey (payload_new payload)) w1.
Proof.
  intros Hev Hin Hon. unfold involves in Hin.
  unfold on_postgres_changes.
  destruct Hev as [Hev | Hev]; rewrite Hev; cbn [String.eqb Ascii.eqb Bool.eqb];
    cbv beta iota zeta; rewrite Hin.
  - destruct (dbLogger_write_eq LInfo "New message received via subscription" w)
      as (w0 & E0 & S0).
    destruct (deliver_eq userId onMessage privateKey (payload_new payload)
                "Failed to decrypt incoming message" w0 Hon) as (w1 & S1 & E1).
    exists w1. split; [eapply same_state_trans; eassumption|].
    destruct (Hon w1) as (w2 & E2). rewrite E2. apply try_catch_return.
    erewrite (bind_return _ _ w) by exact E0. cbv beta.
    rewrite <- E2. exact E1.
  - destruct (dbLogger_write_eq LInfo "Message updated via subscription" w)
      as (w0 & E0 & S0).
    destruct (deliver_eq userId onMessage privateKey (payload_new payload)
                "Failed to decrypt updated message" w0 Hon) as (w1 & S1 & E1).
    exists w1. split; [eapply same_state_trans; eassumption|].
    destruct (Hon w1) as (w2 & E2). rewrite E2. apply try_catch_return.
    erewrite (bind_return _ _ w) by exact E0. cbv beta.
    rewrite <- E2. exact E1.
Qed.

(** X15.  An event on a row that does not involve the user, and an event
    that is neither INSERT nor UPDATE, never reaches [onMessage]: the
    callback returns, whatever [onMessage] and [onError] are, and leaves
    the tables and the random source as they were. *)
Theorem subscription_ignores (userId : string) (privateKey : option jsstring)
  (payload : Payload) (w : World) :
  involves userId (payload_new payload) = false \/
  (eventType payload <> "INSERT"%string /\ eventType payload <> "UPDATE"%string) ->
  exists w',
    same_state w w' /\
    forall (onMessage' : Message -> M unit) (onError' : option (exn -> M unit)),
      on_postgres_changes userId onMessage' onError' privateKey payload w
      = (Return tt, w').
Proof.
  intros H. unfold on_postgres_changes, involves in *.
  destruct (String.eqb_spec (eventType payload) "INSERT") as [Ei|Ei].
  { destruct H as [H | [H _]]; [|contradiction]. cbv zeta. rewrite H.
    exists w. split; [apply same_state_refl|reflexivity]. }
  destruct (String.eqb_spec (eventType payload) "UPDATE") as [Eu|Eu].
  { destruct H as [H | [_ H]]; [|contradiction]. cbv zeta. rewrite H.
    exists w. split; [apply same_state_refl|reflexivity]. }
  destruct (String.eqb (eventType payload) "DELETE").
  - eexists. split; [|intros; reflexivity]. split; reflexivity.
  - exists w. split; [apply same_state_refl|reflexivity].
Qed.

End SubscriptionFacts.

(** ** The message list of the page *)

Section PageFacts.

Import Ascii.
Import MessageService MessagesPage.

Lemma split_no_colon s :
  no_colon s = true -> split ":" s = [s].
Proof.
  induction s as [|c s IH]; [reflexivity|].
  cbn [no_colon split]. intros H. apply andb_true_iff in H as [Hc Hs].
  apply negb_true_iff in Hc.
  change (Ascii.Ascii false true false true true true false false)
    with ":"%char in Hc.
  rewrite Hc, (IH Hs). reflexivity.
Qed.

Lemma split_join a b :
  no_colon a = true -> no_colon b = true ->
  split ":" (a ++ ":" ++ b) = [a; b].
Proof.
  intros Ha Hb. change (":" ++ b)%string with (String ":" b).
  induction a as [|c a IH].
  - cbn [append split]. cbn [Ascii.eqb Bool.eqb]. cbv iota.
    now rewrite split_no_colon.
  - cbn [no_colon] in Ha. apply andb_true_iff in Ha as [Hc Ha].
    apply negb_true_iff in Hc.
    change (Ascii.Ascii false true false true true true false false)
      with ":"%char in Hc.
    cbn [append split]. rewrite Hc. now rewrite (IH Ha).
Qed.

(** X16.  The key of a conversation and its parsing are inverse when
    neither the partner's id nor the listing id contains a colon: from the
    key of a conversation of the list, [fetchMessages] asks
    [getMessages] for that partner and that listing, with [null] for the
    listing of the general chat. *)
Theorem conversation_key_roundtrip (userId : string)
  (privateKey : option jsstring) (c : Conversation) :
  no_colon (user_id c) = true ->
  no_colon (conversation_listing_id c) = true ->
  partnerId (conversationKey c) = user_id c /\
  listingId (conversationKey c) = Some (conversation_listing_id c) /\
  fetch_params userId privateKey (conversationKey c)
  = mkGetMessagesParams userId (user_id c)
      (if String.eqb (conversation_listing_id c) "general" then None
       else Some (conversation_listing_id c))
      (key_param privateKey).
Proof.
  intros Hu Hl. unfold fetch_params, partnerId, listingId, conversationKey.
  rewrite (split_join _ _ Hu Hl). cbn [nth nth_error listing_param].
  repeat split; reflexivity.
Qed.

Lemma find_id_none (i : string) (prev : list Message) :
  find (fun msg => String.eqb (id msg) i) prev = None ->
  ~ In i (map id prev).
Proof.
  intros F Hin. apply in_map_iff in Hin as (m & E & Hin).
  apply (find_none _ _ F) in Hin. rewrite E, String.eqb_refl in Hin.
  discriminate.
Qed.

Lemma add_if_new_ids message prev :
  NoDup (map id prev) -> NoDup (map id (add_if_new message prev)).
Proof.
  intros N. unfold add_if_new.
  destruct (find (fun msg => String.eqb (id msg) (id message)) prev) eqn:F;
    [assumption|].
  rewrite map_app. cbn [map]. apply NoDup_app; [assumption|
    repeat constructor; intros []|].
  intros i Hin [E|[]]. subst i. now apply find_id_none in F.
Qed.

(** X17.  A message the subscription delivers is added to the list at
    most once: the callback leaves the list as it is or appends the
    message, and a list without two messages of the same id stays so. *)
Theorem on_message_no_duplicates (userId : string)
  (selectedConversation : option string) (message : Message)
  (prev : list Message) :
  NoDup (map id prev) ->
  let next := on_message userId selectedConversation message prev in
  NoDup (map id next) /\
  (next = prev \/
   (next = prev ++ [message] /\ ~ In (id message) (map id prev))).
Proof.
  intros N next. subst next. unfold on_message.
  assert (A : NoDup (map id (add_if_new message prev)) /\
              (add_if_new message prev = prev \/
               (add_if_new message prev = prev ++ [message] /\
                ~ In (id message) (map id prev)))).
  { split; [now apply add_if_new_ids|]. unfold add_if_new.
    destruct (find (fun msg => String.eqb (id msg) (id message)) prev) eqn:F;
      [now left|].
    right. split; [reflexivity|]. now apply find_id_none. }
  destruct selectedConversation as [[|c key]|]; try (split; [assumption|now left]).
  destruct ((String.eqb (sender_id message) userId
             && String.eqb (receiver_id message) (partnerId (String c key)))
            || (String.eqb (sender_id message) (partnerId (String c key))
                && String.eqb (receiver_id message) userId));
    [|split; [assumption|now left]].
  destruct (listingId (String c key)) as [l|]; [|split; [assumption|now left]].
  destruct ((String.eqb l "general"
             && String.eqb (or_else (listing_id message) "general") "general")
            || (negb (String.eqb l "general")
                && String.eqb (or_else (listing_id message) "general") l));
    [exact A|split; [assumption|now left]].
Qed.

Lemma remove_temp_fresh tempId l :
  (forall m, In m l -> id m <> tempId) -> remove_temp tempId l = l.
Proof.
  intros H. unfold remove_temp. induction l as [|m l IH]; [reflexivity|].
  cbn [filter]. destruct (String.eqb_spec (id m) tempId) as [E|_].
  - exfalso. apply (H m); [now left|assumption].
  - cbn [negb]. f_equal. apply IH. intros m0 Hin. apply H. now right.
Qed.

Lemma replace_temp_fresh tempId sent l :
  (forall m, In m l -> id m <> tempId) -> replace_temp tempId sent l = l.
Proof.
  intros H. unfold replace_temp. induction l as [|m l IH]; [reflexivity|].
  cbn [map]. destruct (String.eqb_spec (id m) tempId) as [E|_].
  - exfalso. apply (H m); [now left|assumption].
  - f_equal. apply IH. intros m0 Hin. apply H. now right.
Qed.

(** X18.  The optimistic message of [sendMessage] is settled exactly:
    when no other message has its temporary id, removing it after a failed
    send gives back the list as it would be without the attempt, and
    replacing it after a successful send puts the message the service
    returned in its place; messages added in between stay where they
    are. *)
Theorem optimistic_send_settles (tempId : string)
  (optimistic sentMessage : Message) (prev later : list Message) :
  id optimistic = tempId ->
  (forall m, In m prev -> id m <> tempId) ->
  (forall m, In m later -> id m <> tempId) ->
  remove_temp tempId (add_optimistic optimistic prev ++ later) = prev ++ later /\
  replace_temp tempId sentMessage (add_optimistic optimistic prev ++ later)
  = prev ++ [sentMessage] ++ later.
Proof.
  intros Hid Hprev Hlater. unfold add_optimistic. split.
  - unfold remove_temp. rewrite !filter_app. fold (remove_temp tempId prev).
    fold (remove_temp tempId later). rewrite !remove_temp_fresh by assumption.
    cbn [filter]. rewrite Hid, String.eqb_refl. cbn [negb].
    now rewrite app_nil_r.
  - unfold replace_temp. rewrite !map_app.
    fold (replace_temp tempId sentMessage prev).
    fold (replace_temp tempId sentMessage later).
    rewrite !replace_temp_fresh by assumption.
    cbn [map]. rewrite Hid, String.eqb_refl. now rewrite <- app_assoc.
Qed.

End PageFacts.

(** ** The session hook and the test page *)

Section HookFacts.

Context {P : Platform}.

(** X19.  [useRequireCrypto] either throws ['Encryption keys not loaded.
    User must be logged in.'], exactly when [hasKeys] is false, or returns
    the two keys of the session, and then neither is [null] and both pass
    [isValidKey]. *)
Theorem useRequireCrypto_keys (st : CryptoContext.State) :
  match CryptoContext.useRequireCrypto st with
  | Return (Some priv, Some pub) =>
      CryptoContext.hasKeys st = true /\
      CryptoContext.privateKey st = Some priv /\
      CryptoContext.publicKey st = Some pub /\
      isValidKey (Str priv) = true /\ isValidKey (Str pub) = true
  | Return _ => False
  | Throw e =>
      CryptoContext.hasKeys st = false /\
      e = Error "Encryption keys not loaded. User must be logged in."
  end.
Proof.
  unfold CryptoContext.useRequireCrypto.
  destruct (CryptoContext.hasKeys st) eqn:H; cbn [negb]; [|split; reflexivity].
  unfold CryptoContext.hasKeys in H. apply andb_true_iff in H as [H1 H2].
  destruct st as [[priv|] [pub|] u];
    cbn [CryptoContext.privateKey CryptoContext.publicKey
         CryptoContext.as_nullable] in *; try discriminate.
  repeat split; assumption.
Qed.

(** X20.  [testWrongKey] never logs ['✅ CORRECT: Cannot decrypt with wrong
    key!']: [decryptMessage] does not throw, so for every pair of keys and
    every ciphertext the handler logs the attempt and then ['❌ ERROR:
    Should not have decrypted!']. *)
Theorem testWrongKey_reports_error (user1Keys : option KeyPair)
  (encryptedMessage : jsstring) (w : World) :
  exists lines w',
    TestServicePage.testWrongKey user1Keys encryptedMessage w = (Return lines, w') /\
    ~ In (TestServicePage.addLog "✅ CORRECT: Cannot decrypt with wrong key!")
         lines /\
    (user1Keys <> None -> encryptedMessage <> [] ->
     lines
     = [TestServicePage.addLog
          "🔓 Attempting to decrypt with User 1's key (should fail)...";
        TestServicePage.addLog "❌ ERROR: Should not have decrypted!"]).
Proof.
  unfold TestServicePage.testWrongKey.
  destruct user1Keys as [keys|].
  2:{ eexists. eexists. split; [reflexivity|]. split.
      - intros [H|[]]. discriminate.
      - intros H. contradiction. }
  destruct encryptedMessage as [|c enc].
  { eexists. eexists. split; [reflexivity|]. split.
    - intros [H|[]]. discriminate.
    - intros _ H. contradiction. }
  destruct (decryptMessage_returns (c :: enc) (privateKey keys) w)
    as (w' & E & _).
  eexists. exists w'. split.
  - apply try_catch_return. erewrite (bind_return _ _ w) by exact E.
    reflexivity.
  - split; [|reflexivity]. intros [H|[H|[]]]; discriminate.
Qed.

End HookFacts.

(** ** Reading messages *)

Section ReadFacts.

Import MessageService.

Context {P : Platform}.

(** X21.  [getMessages] never rejects and changes neither the tables nor
    the random source; when the query throws or reports an error it
    resolves to the empty list. *)
Theorem getMessages_resolves (params : GetMessagesParams) (w : World) :
  exists out w',
    getMessages params w = (Return out, w') /\
    same_state w w' /\
    match buildMessageQuery
            (mkMessageQueryParams (userId params) (otherUserId params)
               (listingId params)) (database w) with
    | Return r => error r <> None -> out = []
    | Throw _ => out = []
    end.
Proof.
  destruct (dbLogger_write_eq LInfo "Fetching messages" w) as (w1 & E1 & S1).
  unfold getMessages, try_catch.
  erewrite (bind_return _ _ w) by exact E1. cbv beta.
  unfold bind at 1, read_database. destruct S1 as [N1 D1]. rewrite D1.
  destruct (buildMessageQuery _ (database w)) as [r|e].
  - destruct (error r) as [err|].
    + unfold bind, dbLogger_write, ret. eexists. eexists.
      split; [reflexivity|]. split; [split; assumption|reflexivity].
    + set (messages := match data r with Some l => l | None => [] end).
      destruct (privateKey params) as [[|c key]|].
      * unfold bind, dbLogger_write, ret. eexists. eexists.
        split; [reflexivity|]. split; [split; assumption|intros H; now contradiction H].
      * destruct messages as [|m msgs].
        -- unfold bind, dbLogger_write, ret. eexists. eexists.
           split; [reflexivity|]. split; [split; assumption|intros H; now contradiction H].
        -- destruct (dbLogger_write_eq LInfo "Decrypting messages" w1)
             as (w2 & E2 & [N2 D2]).
           destruct (mapM_decrypt_one (userId params) (c :: key) (m :: msgs) w2)
             as (w3 & E3 & [N3 D3]).
           erewrite (bind_return _ _ w1) by exact E2. cbv beta.
           erewrite (bind_return _ _ w2) by exact E3. cbv beta.
           unfold bind, dbLogger_write, ret. eexists. eexists.
           split; [reflexivity|]. cbn [entropy database].
           split; [split; cbn [entropy database]; congruence|
                  intros H; now contradiction H].
      * unfold bind, dbLogger_write, ret. eexists. eexists.
        split; [reflexivity|]. split; [split; assumption|intros H; now contradiction H].
  - unfold bind, dbLogger_write, ret. eexists. eexists.
    split; [reflexivity|]. split; [split; assumption|reflexivity].
Qed.

End ReadFacts.

(** ** Further error behaviour *)

Section ErrorFacts.

Import MessageService Conversations.

Context {P : Platform}.

Lemma bind_inv {A B} (m : M A) (k : A -> M B) w b w' :
  bind m k w = (Return b, w') ->
  exists a w1, m w = (Return a, w1) /\ k a w1 = (Return b, w').
Proof.
  unfold bind. destruct (m w) as [[a|e] w1]; [eauto|discriminate].
Qed.

(** X23.  [encryptPrivateKey] draws a salt of 16 bytes and then an IV of
    12 bytes from the random source, in that order and on every call, and
    touches nothing else: it resolves to the JSON text of that salt, that
    IV and the AES-GCM ciphertext, or, when AES-GCM throws, rejects with
    the one error ['Failed to encrypt private key'] after one
    [console.error]. *)
Theorem encryptPrivateKey_sole_error (privateKey password : jsstring) (w : World) :
  exists salt e1 iv e2,
    getRandomValues 16 (entropy w) = (salt, e1) /\
    getRandomValues 12 e1 = (iv, e2) /\
    ((exists ct,
        aes_gcm_encrypt (deriveKey salt (TextEncoder_encode password)) iv
          (TextEncoder_encode privateKey) = Return ct /\
        encryptPrivateKey privateKey password w
        = (Return (blob_of salt iv ct), drawn w e2))
     \/
     (exists err,
        aes_gcm_encrypt (deriveKey salt (TextEncoder_encode password)) iv
          (TextEncoder_encode privateKey) = Throw err /\
        encryptPrivateKey privateKey password w
        = (Throw (Error "Failed to encrypt private key"),
           logged (drawn w e2)
             (mkLog LError "Private key encryption failed:" (Some err))))).
Proof.
  rewrite encryptPrivateKey_eq.
  destruct (getRandomValues 16 (entropy w)) as [salt e1] eqn:R1.
  destruct (getRandomValues 12 e1) as [iv e2] eqn:R2.
  exists salt, e1, iv, e2. split; [reflexivity|]. split; [exact R2|].
  destruct (aes_gcm_encrypt _ iv _) as [ct|err]; [left|right]; eauto.
Qed.

(** X24.  With [encryptionEnabled: false], [sendMessage] inserts the row
    whose content is the plaintext, without looking up a key and without
    drawing from the random source, and resolves to the inserted row or to
    [null]. *)
Theorem sendMessage_disabled (params : SendMessageParams) (w : World) :
  encryptionEnabled params = Some false ->
  let row := inserted_row params (send_content params) in
  exists w',
    sendMessage params w
    = (Return (sent_message row (send_content params) (database w)), w') /\
    database w' = snd (insert_message row (database w)) /\
    entropy w' = entropy w.
Proof.
  intros Hen row. subst row. unfold sendMessage. rewrite Hen.
  unfold try_catch.
  erewrite (bind_return _ _ w) by reflexivity. cbv beta.
  erewrite (bind_return _ _ _) by reflexivity. cbv beta.
  unfold bind at 1, with_database. cbn [database entropy console].
  unfold sent_message.
  destruct (insert_message (inserted_row params (send_content params))
              (database w)) as [[r|e] db']; cbn [fst snd].
  - destruct (error r) as [err|].
    + eexists. split; [reflexivity|]. repeat split.
    + destruct (data r) as [m|]; eexists; (split; [reflexivity|]); repeat split.
  - eexists. split; [reflexivity|]. repeat split.
Qed.

(** X25.  [sendMessage] never rejects, and a message it resolves to is
    the row the insert returned, with the caller's plaintext as its
    content: the insert was of the row holding either the plaintext or the
    ciphertext [encryptMessage] made for the key on file, it reported no
    error, and the tables after the call are the tables after that
    insert. *)
Theorem sendMessage_returns_plaintext (params : SendMessageParams) (w : World) :
  exists r w',
    sendMessage params w = (Return r, w') /\
    forall m, r = Some m ->
      exists stored resp row,
        (stored = send_content params \/
         exists key e,
           public_key_lookup (receiverId params) (database w) = Some key /\
           encrypted_text (send_content params) key (entropy w)
           = (Return stored, e)) /\
        insert_message (inserted_row params stored) (database w)
        = (Return resp, database w') /\
        error resp = None /\ data resp = Some row /\
        m = set_content row (send_content params).
Proof.
  unfold sendMessage, try_catch.
  match goal with |- context [match ?body w with _ => _ end] =>
    destruct (body w) as [[r|e] w1] eqn:B
  end.
  2:{ unfold bind, dbLogger_write, ret. eexists. eexists.
      split; [reflexivity|]. discriminate. }
  exists r, w1. split; [reflexivity|]. intros m ->.
  apply bind_inv in B as (u & w2 & E1 & B).
  unfold dbLogger_write in E1. injection E1 as _ <-.
  apply bind_inv in B as (stored & w3 & E2 & B).
  assert (C : database w3 = database w /\
              (stored = send_content params \/
               exists key e,
                 public_key_lookup (receiverId params) (database w) = Some key /\
                 encrypted_text (send_content params) key (entropy w)
                 = (Return stored, e))).
  { destruct (match encryptionEnabled params with Some b => b | None => true end).
    - apply bind_inv in E2 as (pk & w2a & G & E2).
      match type of G with getPublicKey _ ?w0 = _ =>
        destruct (getPublicKey_eq (receiverId params) w0) as (w2b & G' & [N2 D2])
      end.
      rewrite G' in G. injection G as <- <-. cbn [database entropy] in *.
      destruct (public_key_lookup (receiverId params) (database w))
        as [[|c key]|] eqn:L.
      + unfold bind, dbLogger_write, ret in E2. injection E2 as <- <-.
        cbn [database]. split; [exact D2|now left].
      + apply bind_inv in E2 as (enc & w2c & Enc & E2).
        rewrite encryptMessage_eq in Enc. rewrite N2 in Enc.
        destruct (encrypted_text (send_content params) (c :: key) (entropy w))
          as [[ct|err] e] eqn:T; [|discriminate].
        injection Enc as <- <-.
        unfold bind, dbLogger_write, ret in E2. injection E2 as <- <-.
        cbn [database drawn]. split; [exact D2|]. right. now exists (c :: key), e.
      + unfold bind, dbLogger_write, ret in E2. injection E2 as <- <-.
        cbn [database]. split; [exact D2|now left].
    - unfold ret in E2. injection E2 as <- <-. cbn [database]. split; [reflexivity|now left]. }
  destruct C as [D3 C].
  apply bind_inv in B as (resp & w4 & I & B).
  unfold with_database in I. rewrite D3 in I.
  destruct (insert_message (inserted_row params stored) (database w))
    as [o d] eqn:II.
  injection I as -> <-.
  destruct (error resp) as [err|] eqn:He.
  { unfold bind, dbLogger_write, ret in B. discriminate. }
  destruct (data resp) as [row|] eqn:Hd; [|discriminate].
  unfold bind, dbLogger_write, ret in B. injection B as <- <-.
  exists stored, resp, row. cbn [database]. auto.
Qed.

(** X26.  [getConversations] never rejects and changes neither the tables
    nor the random source; when its query throws or reports an error it
    resolves to the empty list. *)
Theorem getConversations_resolves (userId : string)
  (privateKey : option jsstring) (w : World) :
  exists convs w',
    getConversations userId privateKey w = (Return convs, w') /\
    same_state w w' /\
    match buildConversationQuery userId (database w) with
    | Return r => error r <> None -> convs = []
    | Throw _ => convs = []
    end.
Proof.
  destruct (buildConversationQuery userId (database w)) as [r|e] eqn:Q.
  2:{ unfold getConversations, try_catch.
      erewrite (bind_return _ _ w) by reflexivity. cbv beta.
      unfold bind at 1, read_database. cbn [database]. rewrite Q.
      unfold bind, dbLogger_write, ret. eexists. eexists.
      split; [reflexivity|]. split; [split; reflexivity|reflexivity]. }
  destruct (error r) as [err|] eqn:He.
  { unfold getConversations, try_catch.
    erewrite (bind_return _ _ w) by reflexivity. cbv beta.
    unfold bind at 1, read_database. cbn [database]. rewrite Q, He.
    unfold bind, dbLogger_write, ret. eexists. eexists.
    split; [reflexivity|]. split; [split; reflexivity|reflexivity]. }
  destruct (data r) as [msgs|] eqn:Hd.
  - destruct (getConversations_cases userId privateKey w r msgs Q He Hd)
      as (w' & S & [[G _] | (users & listings & G)]);
      eexists; exists w'; (split; [exact G|]);
      (split; [exact S|intros H; now contradiction H]).
  - unfold getConversations, try_catch.
    erewrite (bind_return _ _ w) by reflexivity. cbv beta.
    unfold bind at 1, read_database. cbn [database]. rewrite Q, He, Hd.
    unfold bind, dbLogger_write, ret. cbn. eexists. eexists.
    split; [reflexivity|].
    split; [split; reflexivity|intros H; now contradiction H].
Qed.

End ErrorFacts.

(** ** The small backend keeps the laws *)

Section BackendFacts.

Lemma backend_stored_keys_found : stored_keys_found Backend.queries.
Proof.
  unfold stored_keys_found. intros row db r db'.
  cbn [insert_user_keys select_user_keys Backend.queries].
  unfold Backend.insert_keys, Backend.select_keys, Backend.keys_of.
  destruct (find (fun r0 => String.eqb (row_user_id r0) (row_user_id row))
              (Backend.user_keys db)) eqn:F.
  - intros H. injection H as <- _. discriminate.
  - intros H _. injection H as _ <-. cbn [Backend.user_keys].
    rewrite find_app_first, F. cbn [find]. now rewrite String.eqb_refl.
Qed.

End BackendFacts.

Section SignUp.

Context {P : Platform} {Q : Queries P}.

Hypothesis random : random_fills P.
Hypothesis sha : sha256_size P.
Hypothesis aes : aes_gcm_correct P.

(** Sign-up succeeds when the pair is generated and the insert of its row
    reports no error. *)
Lemma generateAndStoreUserKeys_succeeds userId password w K w1 :
  generateKeyPair
    (logged w
       (mkLog LLog ("Generating encryption keys for user " ++ userId ++ "...")
          None))
  = (Return K, w1) ->
  (forall blob, exists r db',
     insert_user_keys (mkUserKeysRow userId (publicKey K) blob) (database w)
     = (Return r, db') /\ error r = None) ->
  exists keys w',
    KeyService.generateAndStoreUserKeys userId password w
    = (Return (Some keys), w').
Proof.
  intros G I. destruct K as [pub priv]. cbn [privateKey publicKey] in *.
  destruct (encryptPrivateKey_returns random sha aes priv password w1) as (salt & iv & ct & w2 & E & _ & _).
  destruct (I (blob_of salt iv ct)) as (r & db' & Ei & Er).
  pose proof (generateKeyPair_database _ _ _ G) as D1.
  pose proof (encryptPrivateKey_database _ _ _ _ _ E) as D2.
  cbn [logged database] in D1.
  unfold KeyService.generateAndStoreUserKeys.
  eexists. eexists. apply try_catch_return.
  erewrite (bind_return _ _ w) by reflexivity. cbv beta.
  erewrite (bind_return _ _ _) by exact G. cbv beta iota.
  erewrite (bind_return _ _ w1) by exact E. cbv beta.
  unfold bind at 1, with_database. rewrite D2, D1, Ei, Er.
  unfold bind, write_log, ret. reflexivity.
Qed.

End SignUp.

(** ** The further statements on concrete inputs *)

Section FurtherRuns.

Import Conversations Scenario Scenes.

(** A ciphertext for the pair of [world0]. *)
Lemma encryptMessage_output_base64_witness :
  forallb MessageService.is_base64_char sealed_hello = true /\
  (List.length sealed_hello mod 4 = 0)%nat /\
  (exists binary, atob sealed_hello = Return binary) /\
  MessageService.looksEncrypted sealed_hello
  = (100 <? List.length sealed_hello)%nat.
Proof.
  apply (encryptMessage_output_base64 (P := P0) hello (publicKey keys0)
           sealed_hello world1 world1).
  reflexivity.
Defined.

(** The pair of [world0], loaded into an empty session. *)
Lemma generated_keys_load_witness :
  let st' :=
    fst (CryptoContext.setKeys (privateKey keys0) (publicKey keys0)
           CryptoContext.initial_state) in
  st' = CryptoContext.mkState (Some (privateKey keys0)) (Some (publicKey keys0))
          (CryptoContext.userId CryptoContext.initial_state) /\
  CryptoContext.hasKeys st' = true /\
  CryptoContext.useRequireCrypto st'
  = Return (Some (privateKey keys0), Some (publicKey keys0)).
Proof.
  apply (generated_keys_load (P := P0) world0 world1 keys0
           CryptoContext.initial_state).
  - reflexivity.
  - discriminate.
  - discriminate.
Defined.

(** The private key of that pair, protected and opened. *)
Lemma generated_key_protect_roundtrip_witness :
  exists blob w3,
    encryptPrivateKey (P := P0) (privateKey keys0) password world1
    = (Return blob, w3) /\
    forall w4,
      fst (decryptPrivateKey (P := P0) blob password w4)
      = Return (privateKey keys0).
Proof.
  apply (generated_key_protect_roundtrip (P := P0) toy_json_blob_roundtrip
           toy_random_fills toy_sha256_size toy_aes_gcm_correct
           world0 world1 world1 keys0 password).
  reflexivity.
Defined.

(** Sign-up of u1 on the empty backend. *)
Lemma backend_signup :
  exists keys w1,
    KeyService.generateAndStoreUserKeys (P := B0) (Q := Q0) "u1" password empty
    = (Return (Some keys), w1).
Proof.
  apply (generateAndStoreUserKeys_succeeds (P := B0) (Q := Q0)
           toy_random_fills toy_sha256_size
           toy_aes_gcm_correct "u1" password empty keys0
           (mkWorld (P := B0) (8 : N)
              [mkLog LLog "Generating encryption keys for user u1..." None]
              (Backend.mkTables [] []))).
  - reflexivity.
  - intros blob. eexists. eexists. split; reflexivity.
Qed.

(** Sign-up of u1, then login with the same password. *)
Lemma signup_login_roundtrip_witness :
  exists keys w1,
    KeyService.generateAndStoreUserKeys (P := B0) (Q := Q0) "u1" password empty
    = (Return (Some keys), w1) /\
    exists K w0 w0',
      same_state empty w0 /\
      generateKeyPair (P := B0) w0 = (Return K, w0') /\
      KeyService.publicKey keys = publicKey K /\
      forall w2, database w2 = database w1 ->
      exists w3,
        KeyService.getUserKeysDecrypted (Q := Q0) "u1" password w2
        = (Return (Some (KeyService.mkDecryptedUserKeys "u1" (publicKey K)
                           (privateKey K))), w3).
Proof.
  destruct backend_signup as (keys & w1 & E).
  exists keys, w1. split; [exact E|].
  apply (signup_login_roundtrip (P := B0) (Q := Q0) backend_stored_keys_found
           toy_json_blob_roundtrip toy_random_fills toy_sha256_size
           toy_aes_gcm_correct "u1" password keys empty w1 E).
Defined.

(** u1 has keys: a second call gives them again and writes nothing. *)
Lemma ensureUserHasKeys_idempotent_witness :
  exists w3,
    KeyService.ensureUserHasKeys (P := B0) (Q := Q0) "u1" other_password one_user
    = (Return (Some (KeyService.mkUserKeys "u1" (lit "AAECAwQFBgc=")
                       (lit "sealed-1"))), w3) /\
    same_state one_user w3.
Proof.
  apply (ensureUserHasKeys_idempotent (P := B0) (Q := Q0)
           backend_stored_keys_found "u1" password other_password
           (KeyService.mkUserKeys "u1" (lit "AAECAwQFBgc=") (lit "sealed-1"))
           one_user one_user one_user).
  - reflexivity.
  - reflexivity.
Defined.

(** A query that gave two rows for u1: the last one counts. *)
Lemma getPublicKeys_lookup_witness :
  exists keyMap w',
    KeyService.getPublicKeys (P := B0) (Q := Q0) ["u1"; "u2"]%string two_users
    = (Return keyMap, w') /\
    same_state two_users w' /\
    NoDup (map fst keyMap) /\
    forall userId,
      KeyService.key_map_get userId keyMap
      = last_public_key userId
          [("u1"%string, lit "AAECAwQFBgc="); ("u2"%string, lit "CAkKCwwNDg8=")].
Proof.
  apply (getPublicKeys_lookup (P := B0) (Q := Q0) ["u1"; "u2"]%string two_users
           (mkResponse
              (Some [("u1"%string, lit "AAECAwQFBgc=");
                     ("u2"%string, lit "CAkKCwwNDg8=")]) None)).
  - reflexivity.
  - reflexivity.
  - reflexivity.
Defined.

(** Two rows for one user in a map: one entry, with the later key. *)
Example key_map_last_wins :
  fold_left
    (fun keyMap row => KeyService.key_map_set (fst row) (snd row) keyMap)
    key_rows []
  = [("u1"%string, lit "AAECAwQFBgc="); ("u2"%string, lit "CAkKCwwNDg8=")].
Proof. reflexivity. Qed.

(** A send from u1 to u2, who has a key. *)
Lemma sendMessage_encrypted_witness :
  exists w',
    match encrypted_text (P := B0) (MessageService.send_content send_hello)
            (lit "CAkKCwwNDg8=") (entropy two_users) with
    | (Return ciphertext, e) =>
        let row := MessageService.inserted_row send_hello ciphertext in
        insert_content row = ciphertext /\
        (List.length (MessageService.send_content send_hello)
         < List.length ciphertext)%nat /\
        ciphertext <> MessageService.send_content send_hello /\
        MessageService.sendMessage send_hello two_users
        = (Return (sent_message row (MessageService.send_content send_hello)
                     (database two_users)), w') /\
        database w' = snd (insert_message row (database two_users)) /\
        entropy w' = e
    | (Throw _, e) =>
        MessageService.sendMessage send_hello two_users = (Return None, w') /\
        database w' = database two_users
    end.
Proof.
  apply (sendMessage_encrypted (P := B0) send_hello two_users 67
           (lit "AkKCwwNDg8=")).
  - exact toy_rsa_oaep_expands.
  - discriminate.
  - reflexivity.
Defined.

(** What that send stores and what it returns. *)
Example sendMessage_stores_ciphertext :
  Backend.messages
    (database (snd (MessageService.sendMessage (P := B0) send_hello two_users)))
  = [mkMessage "m" "u1" "u2" (lit "CAkKCwwNDg9IZWxsbyE=") false None "now"] /\
  fst (MessageService.sendMessage (P := B0) send_hello two_users)
  = Return (Some (mkMessage "m" "u1" "u2" hello false None "now")).
Proof. split; reflexivity. Qed.

(** u2 writes to u1; u1 reads. *)
Lemma sent_message_readable_witness :
  exists ciphertext w',
    MessageService.sendMessage (P := B0) reply one_user
    = (Return (sent_message (MessageService.inserted_row reply ciphertext)
                 (MessageService.send_content reply) (database one_user)), w') /\
    database w'
    = snd (insert_message (MessageService.inserted_row reply ciphertext)
             (database one_user)) /\
    forall (reader : MessageService.GetMessagesParams) (wr : World (P := B0))
           r msgs,
      MessageService.userId reader = MessageService.receiverId reply ->
      MessageService.privateKey reader = Some (lit "AAECAwQFBgc=") ->
      buildMessageQuery
        (mkMessageQueryParams (MessageService.userId reader)
           (MessageService.otherUserId reader) (MessageService.listingId reader))
        (database wr) = Return r ->
      error r = None -> data r = Some msgs ->
      exists out wr',
        MessageService.getMessages reader wr = (Return out, wr') /\
        List.length out = List.length msgs /\
        forall i row,
          nth_error msgs i = Some row ->
          receiver_id row = MessageService.receiverId reply ->
          content row = ciphertext ->
          nth_error out i
          = Some (MessageService.set_content row
                    (MessageService.send_content reply)).
Proof.
  apply (sent_message_readable (P := B0) toy_rsa_oaep_correct reply one_user
           empty (Backend.world 8 [] []) (lit "AAECAwQFBgc=")
           (lit "AAECAwQFBgc=")).
  - reflexivity.
  - discriminate.
  - discriminate.
  - discriminate.
  - reflexivity.
  - reflexivity.
  - reflexivity.
  - vm_compute. lia.
Defined.

(** The row that send stores, as u1 reads it. *)
Example sent_message_read_back :
  fst (MessageService.getMessages (P := B0) read_chat
         (snd (MessageService.sendMessage (P := B0) reply one_user)))
  = Return [mkMessage "m" "u2" "u1" (lit "Hello!") false None "now"] /\
  Backend.messages
    (database (snd (MessageService.sendMessage (P := B0) reply one_user)))
  = [mkMessage "m" "u2" "u1" sealed_hello false None "now"].
Proof. split; reflexivity. Qed.

(** The same send with encryption switched off: u2 has a key, and the
    plaintext is stored. *)
Lemma sendMessage_disabled_witness :
  let row :=
    MessageService.inserted_row send_plain (MessageService.send_content send_plain) in
  exists w',
    MessageService.sendMessage (P := B0) send_plain two_users
    = (Return (sent_message row (MessageService.send_content send_plain)
                 (database two_users)), w') /\
    database w' = snd (insert_message row (database two_users)) /\
    entropy w' = entropy two_users.
Proof.
  apply (sendMessage_disabled (P := B0) send_plain two_users).
  reflexivity.
Defined.

Example sendMessage_disabled_stores_plaintext :
  Backend.messages
    (database (snd (MessageService.sendMessage (P := B0) send_plain two_users)))
  = [mkMessage "m" "u1" "u2" (lit "Hello!") false None "now"].
Proof. reflexivity. Qed.

(** The conversations of u1 in [chat]. *)
Lemma conversations_partition_witness :
  exists convs w',
    MessageService.getConversations (P := B0) "u1" None chat = (Return convs, w') /\
    NoDup (map conversation_key convs) /\
    (forall m, In m [m1; m2; m3] -> involves "u1" m = true ->
       In (key_of "u1" m) (map conversation_key convs)) /\
    (forall conv, In conv convs ->
       exists m, In m [m1; m2; m3] /\ involves "u1" m = true /\
                 key_of "u1" m = conversation_key conv).
Proof.
  apply (conversations_partition (P := B0) "u1" None chat
           (mkResponse (Some [m1; m2; m3]) None) [m1; m2; m3]).
  - reflexivity.
  - reflexivity.
  - reflexivity.
  - intros ids. eexists. reflexivity.
  - intros ids. eexists. reflexivity.
Defined.

(** The one conversation of u1 in [chat] has two unread messages. *)
Lemma conversations_unread_count_witness :
  exists w',
    MessageService.getConversations (P := B0) "u1" None chat
    = (Return [MessageService.mkConversation "u2" EmptyString None "general"
                 EmptyString (lit "three") "2024-01-03" 2], w') /\
    forall conv,
      In conv [MessageService.mkConversation "u2" EmptyString None "general"
                 EmptyString (lit "three") "2024-01-03" 2] ->
      MessageService.unread_count conv
      = unread_in_group "u1" (conversation_key conv)
          (filter (involves "u1") [m1; m2; m3]).
Proof.
  eexists. split; [reflexivity|].
  eapply (conversations_unread_count (P := B0) "u1" None chat _
            (mkResponse (Some [m1; m2; m3]) None) [m1; m2; m3]).
  - reflexivity.
  - reflexivity.
  - reflexivity.
  - reflexivity.
Defined.

(** That conversation is headed by the newest row. *)
Lemma conversations_head_witness :
  exists w',
    MessageService.getConversations (P := B0) "u1" None chat
    = (Return [MessageService.mkConversation "u2" EmptyString None "general"
                 EmptyString (lit "three") "2024-01-03" 2], w') /\
    forall conv,
      In conv [MessageService.mkConversation "u2" EmptyString None "general"
                 EmptyString (lit "three") "2024-01-03" 2] ->
      exists m,
        first_of_group "u1" (conversation_key conv)
          (filter (involves "u1") [m1; m2; m3]) = Some m /\
        MessageService.user_id conv = partner_of "u1" m /\
        MessageService.conversation_listing_id conv
        = MessageService.or_else (listing_id m) "general" /\
        MessageService.last_message_time conv = created_at m.
Proof.
  eexists. split; [reflexivity|].
  eapply (conversations_head (P := B0) "u1" None chat _
            (mkResponse (Some [m1; m2; m3]) None) [m1; m2; m3]).
  - reflexivity.
  - reflexivity.
  - reflexivity.
  - reflexivity.
Defined.

(** An INSERT of a row for u1, who holds a key that cannot decrypt it. *)
Lemma subscription_delivers_witness :
  exists w1,
    same_state chat w1 /\
    Subscription.on_postgres_changes (P := B0) "u1" note None (Some (lit "k"))
      inserted chat
    = note (delivered (P := B0) "u1" (Some (lit "k")) m1) w1.
Proof.
  apply (subscription_delivers (P := B0) "u1" note None (Some (lit "k"))
           inserted chat).
  - left. reflexivity.
  - reflexivity.
  - intros w0. eexists. reflexivity.
Defined.

(** What [onMessage] is given there. *)
Example subscription_delivers_placeholder :
  delivered (P := B0) "u1" (Some (lit "k")) m1
  = MessageService.set_content m1 UNABLE_TO_DECRYPT.
Proof. reflexivity. Qed.

(** An INSERT of a row between two other users. *)
Lemma subscription_ignores_witness :
  exists w',
    same_state chat w' /\
    forall (onMessage' : Message -> M (P := B0) unit)
           (onError' : option (exn -> M (P := B0) unit)),
      Subscription.on_postgres_changes (P := B0) "u1" onMessage' onError'
        (Some (lit "k")) foreign chat
      = (Return tt, w').
Proof.
  apply (subscription_ignores (P := B0) "u1" (Some (lit "k")) foreign chat).
  left. reflexivity.
Defined.

(** The general chat with u2, selected from the list. *)
Lemma conversation_key_roundtrip_witness :
  MessagesPage.partnerId (MessagesPage.conversationKey general_chat)
  = MessageService.user_id general_chat /\
  MessagesPage.listingId (MessagesPage.conversationKey general_chat)
  = Some (MessageService.conversation_listing_id general_chat) /\
  MessagesPage.fetch_params "u1" (Some (lit "k"))
    (MessagesPage.conversationKey general_chat)
  = MessageService.mkGetMessagesParams "u1"
      (MessageService.user_id general_chat)
      (if String.eqb (MessageService.conversation_listing_id general_chat)
            "general"
       then None
       else Some (MessageService.conversation_listing_id general_chat))
      (MessagesPage.key_param (Some (lit "k"))).
Proof.
  apply (conversation_key_roundtrip "u1" (Some (lit "k")) general_chat).
  - reflexivity.
  - reflexivity.
Defined.

(** A listing id with a colon does not survive the parsing. *)
Example conversation_key_colon :
  MessagesPage.listingId "u2:a:b" = Some "a"%string.
Proof. reflexivity. Qed.

(** The newest row delivered to a list that holds it already, and to one
    that does not. *)
Lemma on_message_no_duplicates_witness :
  let next := MessagesPage.on_message "u1" (Some "u2:general"%string) m1 [m3; m2] in
  NoDup (map id next) /\
  (next = [m3; m2] \/
   (next = [m3; m2] ++ [m1] /\ ~ In (id m1) (map id [m3; m2]))).
Proof.
  apply (on_message_no_duplicates "u1" (Some "u2:general"%string) m1 [m3; m2]).
  repeat constructor; cbn; intuition discriminate.
Defined.

Example on_message_appends :
  MessagesPage.on_message "u1" (Some "u2:general"%string) m1 [m3; m2] = [m3; m2; m1]
  /\ MessagesPage.on_message "u1" (Some "u2:general"%string) m1 [m3; m2; m1]
     = [m3; m2; m1]
  /\ MessagesPage.on_message "u1" (Some "u2:general"%string) m4 [m3; m2] = [m3; m2].
Proof. repeat split; reflexivity. Qed.

(** A send that fails and one that succeeds, with a row delivered in
    between. *)
Lemma optimistic_send_settles_witness :
  MessagesPage.remove_temp "temp-1"
    (MessagesPage.add_optimistic pending [m3; m2] ++ [m1])
  = [m3; m2] ++ [m1] /\
  MessagesPage.replace_temp "temp-1" stored
    (MessagesPage.add_optimistic pending [m3; m2] ++ [m1])
  = [m3; m2] ++ [stored] ++ [m1].
Proof.
  apply (optimistic_send_settles "temp-1" pending stored [m3; m2] [m1]).
  - reflexivity.
  - intros m [<-|[<-|[]]]; discriminate.
  - intros m [<-|[]]; discriminate.
Defined.

End FurtherRuns.
